(** * The step loop of Kimi CLI (kimi_cli.soul.kimisoul) and its collaborators

    A shallow embedding of [KimiSoul] (run, _agent_loop, _step, _grow_context,
    compact_context, _is_retryable_error) and of the TagContext and
    SetTodoList tools, with the collaborators they drive: the conversation
    Context, the metadata store, the D-Mail mailbox, the wire and the retry
    decorator.

    Python integers are [Z], strings are [string], lists are [list].
    Coroutines are functions on an explicit [World]; a raised exception is
    the [Raise] result of the error-and-state monad [M]. *)

From Stdlib Require Import ZArith List String Ascii Bool Lia.
From Stdlib Require Import Permutation Sorted DecimalString.
Import ListNotations.
Local Open Scope string_scope.
Local Open Scope list_scope.
Local Open Scope Z_scope.

Set Implicit Arguments.

(* ------------------------------------------------------------------ *)
(** ** Messages (kosong.base.message) *)

Inductive Role := user | assistant | tool | system_role.

Definition Role_eqb (a b : Role) : bool :=
  match a, b with
  | user, user | assistant, assistant | tool, tool
  | system_role, system_role => true
  | _, _ => false
  end.

(** A content part.  [SystemPart text] stands for the part built by
    [system(text)] of kimi_cli.soul.message. *)
Inductive ContentPart :=
| TextPart (text : string)
| SystemPart (text : string).

(** [content] is either a plain [str] or a list of parts. *)
Inductive Content :=
| Str (s : string)
| Parts (ps : list ContentPart).

Record Message := mkMessage {
  role : Role;
  content : Content;
  tool_call_id : option string
}.

Record ToolCall := mkToolCall {
  tc_id : string;
  tc_name : string;
  tc_arguments : string
}.

(* ------------------------------------------------------------------ *)
(** ** The metadata store *)

Module MetadataStore.

Inductive Policy := pin_outcome | pin_process | auto.

Record PinRecord := mkPin {
  task_id : string;
  message_ids : list string;
  policy : Policy;
  ttl_steps : Z;
  importance : Z;
  notes : option string;
  created_at_step : Z
}.

Record TodoTaskMap := mkMap {
  todo_id : string;
  map_task_id : string
}.

Record ArtifactRecord := mkArtifact {
  art_task_id : string;
  kind : string;
  path : option string;
  bytes_size : option Z
}.

(** One line of the log, with its [type] discriminator. *)
Inductive LogRecord :=
| TagRec (p : PinRecord)
| MapRec (m : TodoTaskMap)
| ArtifactRec (a : ArtifactRecord).

(** Modelled from the spec: kimi_cli/soul/metadata_store.py is missing (only
    its tests are present).  The store is an append-only log that may not
    exist yet ([None]) and a step counter starting at 0. *)
Record t := mkStore {
  log : option (list LogRecord);
  current_step : Z
}.

(** Modelled from the spec: the constructor of the missing MetadataStore;
    no log file yet, step counter 0. *)
Definition init : t := {| log := None; current_step := 0 |}.

(** Modelled from the spec: the missing record writer; appends at the end of
    the log and creates the log on first use. *)
Definition append_record (r : LogRecord) (s : t) : t :=
  {| log := Some (match log s with
                  | None => [r]
                  | Some l => l ++ [r]
                  end);
     current_step := current_step s |}.

(** Modelled from the spec: the missing [MetadataStore.tag]; appends a
    PinRecord stamped with [created_at_step = current_step]. *)
Definition tag (task : string) (ids : list string) (pol : Policy)
           (ttl imp : Z) (nts : option string) (s : t) : t :=
  append_record
    (TagRec {| task_id := task; message_ids := ids; policy := pol;
               ttl_steps := ttl; importance := imp; notes := nts;
               created_at_step := current_step s |}) s.

(** Modelled from the spec: the missing [MetadataStore.map_todo_task]. *)
Definition map_todo_task (todo task : string) (s : t) : t :=
  append_record (MapRec {| todo_id := todo; map_task_id := task |}) s.

(** Modelled from the spec: the missing [MetadataStore.record_artifact]. *)
Definition record_artifact (task knd : string) (pth : option string)
           (sz : option Z) (s : t) : t :=
  append_record
    (ArtifactRec {| art_task_id := task; kind := knd; path := pth;
                    bytes_size := sz |}) s.

(** Modelled from the spec: the missing [MetadataStore.increment_step]. *)
Definition increment_step (s : t) : t :=
  {| log := log s; current_step := current_step s + 1 |}.

(** The tag records of a log, in log order. *)
Fixpoint tags (l : list LogRecord) : list PinRecord :=
  match l with
  | [] => []
  | TagRec p :: l' => p :: tags l'
  | _ :: l' => tags l'
  end.

(** Modelled from the spec: a pin is active at step [s] iff
    [s < created_at_step + ttl_steps]. *)
Definition active (s : Z) (p : PinRecord) : bool :=
  s <? created_at_step p + ttl_steps p.

(** Stable insertion for a descending sort on [importance]: [p] goes in
    front of the first record that is not strictly more important. *)
Fixpoint insert_pin (p : PinRecord) (l : list PinRecord) : list PinRecord :=
  match l with
  | [] => [p]
  | q :: l' =>
      if importance q <=? importance p then p :: q :: l'
      else q :: insert_pin p l'
  end.

(** Modelled from the spec: the stable sort by importance, descending;
    records are inserted from the last one to the first, so that an earlier
    record stays in front of a later one of the same importance. *)
Fixpoint sort_pins (l : list PinRecord) : list PinRecord :=
  match l with
  | [] => []
  | p :: l' => insert_pin p (sort_pins l')
  end.

(** Modelled from the spec: the missing [MetadataStore.list_active_pins];
    [step = None] is the omitted argument and defaults to the store's own
    counter.  A log that does not exist gives the empty list. *)
Definition list_active_pins (step : option Z) (s : t) : list PinRecord :=
  let now := match step with Some n => n | None => current_step s end in
  match log s with
  | None => []
  | Some l => sort_pins (filter (active now) (tags l))
  end.

Fixpoint maps (l : list LogRecord) : list TodoTaskMap :=
  match l with
  | [] => []
  | MapRec m :: l' => m :: maps l'
  | _ :: l' => maps l'
  end.

(** Modelled from the spec: the missing [MetadataStore.list_todo_task_maps]. *)
Definition list_todo_task_maps (s : t) : list TodoTaskMap :=
  match log s with
  | None => []
  | Some l => maps l
  end.

End MetadataStore.

(** Decimal rendering of an integer, as [str(n)] and f-strings do. *)
Definition string_of_Z (n : Z) : string :=
  NilEmpty.string_of_int (Z.to_int n).

Definition newline : string := String (ascii_of_nat 10) EmptyString.

(* ------------------------------------------------------------------ *)
(** ** The conversation context *)

Module Context.

(** Modelled from the spec: a checkpoint marks a position in the message
    sequence at the moment it was taken (the number of messages the history
    had then), with the token count recorded there. *)
Record Checkpoint := mkCheckpoint {
  cp_id : Z;
  cp_position : nat;
  cp_token_count : Z
}.

(** Modelled from the spec: kimi_cli/soul/context.py is missing.  The
    context owns the ordered history, the checkpoint list, the running
    token count and the handle to the metadata store. *)
Record t := mkContext {
  history : list Message;
  checkpoints : list Checkpoint;
  token_count : Z;
  meta : MetadataStore.t
}.

(** Modelled from the spec: a fresh context of the missing class; nothing
    appended, no checkpoint. *)
Definition init : t :=
  {| history := []; checkpoints := []; token_count := 0;
     meta := MetadataStore.init |}.

Definition n_checkpoints (c : t) : Z := Z.of_nat (List.length (checkpoints c)).

(** Modelled from the spec: the missing [Context.append_message]; one or
    more messages go to the end of the history, in order. *)
Definition append_message (ms : list Message) (c : t) : t :=
  {| history := history c ++ ms; checkpoints := checkpoints c;
     token_count := token_count c; meta := meta c |}.

(** Modelled from the spec: the lightweight marker message of a checkpoint;
    a user message, as the soul's [_checkpoint_with_user_message] says. *)
Definition marker_message (id : Z) : Message :=
  {| role := user;
     content := Parts [SystemPart ("CHECKPOINT " ++ string_of_Z id)%string];
     tool_call_id := None |}.

(** Modelled from the spec: the missing [Context.checkpoint].  The
    checkpoint is recorded at the end of the history as the call finds it;
    its id is [n_checkpoints] before insertion.  The marker message, if
    asked for, is the first message after the recorded position, so that a
    revert to this checkpoint removes the marker with it and the checkpoint
    taken next gets the same id with one marker (section 8:
    [revert_to(c)] followed by [checkpoint()] gives [c + 1] checkpoints and
    the history captured at [c]). *)
Definition checkpoint (include_marker_message : bool) (c : t) : t :=
  let id := n_checkpoints c in
  {| history := if include_marker_message
                then history c ++ [marker_message id] else history c;
     checkpoints := checkpoints c ++
       [{| cp_id := id; cp_position := List.length (history c);
           cp_token_count := token_count c |}];
     token_count := token_count c; meta := meta c |}.

(** Modelled from the spec: the missing [Context.revert_to]; [None] is the
    InvalidCheckpoint failure (id negative or not below the checkpoint
    count).  Otherwise the context goes back to the state in which the
    checkpoint was taken: the history is cut back to the recorded position,
    the token count is the one recorded, and the checkpoint itself goes
    with every later one, so that the count becomes [checkpoint_id] and
    the next checkpoint is number [checkpoint_id] again (sections 4.4 and
    8; the count [checkpoint_id + 1] of section 4.1 is reached by the
    checkpoint that the soul takes right after every revert). *)
Definition revert_to (checkpoint_id : Z) (c : t) : option t :=
  if (checkpoint_id <? 0) || (n_checkpoints c <=? checkpoint_id) then None
  else
    match nth_error (checkpoints c) (Z.to_nat checkpoint_id) with
    | None => None
    | Some cp =>
        Some {| history := firstn (cp_position cp) (history c);
                checkpoints := firstn (Z.to_nat checkpoint_id) (checkpoints c);
                token_count := cp_token_count cp; meta := meta c |}
    end.

(** Modelled from the spec: the missing [Context.update_token_count]. *)
Definition update_token_count (n : Z) (c : t) : t :=
  {| history := history c; checkpoints := checkpoints c;
     token_count := n; meta := meta c |}.

Definition set_meta (m : MetadataStore.t) (c : t) : t :=
  {| history := history c; checkpoints := checkpoints c;
     token_count := token_count c; meta := m |}.

(** The last [n] elements of a list, in order. *)
Definition lastn {A} (n : nat) (l : list A) : list A :=
  skipn (List.length l - n) l.

(** Modelled from the spec: the missing [Context.get_recent_message_ids];
    up to [n] most recent identifiers of messages whose role is in [roles],
    most recent last.  [message_id] gives the stable identifier of the
    message at a position of the history. *)
Definition get_recent_message_ids (message_id : nat -> Message -> string)
           (n : nat) (roles : list Role) (c : t) : list string :=
  let indexed := combine (seq 0 (List.length (history c))) (history c) in
  let wanted :=
    filter (fun im => existsb (Role_eqb (role (snd im))) roles) indexed in
  map (fun im => message_id (fst im) (snd im)) (lastn n wanted).

End Context.

(* ------------------------------------------------------------------ *)
(** ** The D-Mail mailbox *)

Record DMail := mkDMail {
  dmail_message : string;
  dmail_checkpoint_id : Z
}.

Module DenwaRenji.

(** Modelled from the spec: kimi_cli/soul/denwa_renji.py is missing.  The
    mailbox holds at most one pending D-Mail and the checkpoint count the
    soul last told it. *)
Record t := mkDenwaRenji {
  pending_dmail : option DMail;
  n_checkpoints : Z
}.

Definition init : t := {| pending_dmail := None; n_checkpoints := 0 |}.

(** Modelled from the spec: the producer registers at most one signal per
    step and guarantees [0 <= checkpoint_id < n_checkpoints]; a D-Mail
    outside these conditions is refused and the mailbox is unchanged. *)
Definition send_dmail (d : DMail) (r : t) : t :=
  match pending_dmail r with
  | Some _ => r
  | None =>
      if (dmail_checkpoint_id d <? 0)
         || (n_checkpoints r <=? dmail_checkpoint_id d)
      then r
      else {| pending_dmail := Some d; n_checkpoints := n_checkpoints r |}
  end.

Definition set_n_checkpoints (n : Z) (r : t) : t :=
  {| pending_dmail := pending_dmail r; n_checkpoints := n |}.

(** Modelled from the spec: fetch-and-clear. *)
Definition fetch_pending_dmail (r : t) : option DMail * t :=
  (pending_dmail r,
   {| pending_dmail := None; n_checkpoints := n_checkpoints r |}).

End DenwaRenji.

(* ------------------------------------------------------------------ *)
(** ** Exceptions and results *)

(** The exceptions the soul raises, catches or lets through.  The three
    [API...] errors and [ChatProviderError] itself (any other subclass) are
    the kosong.chat_provider hierarchy under [ChatProviderError]. *)
Inductive exn :=
| APIConnectionError (msg : string)
| APITimeoutError (msg : string)
| APIStatusError (status_code : Z) (msg : string)
| ChatProviderError (msg : string)
| CancelledError
| LLMNotSet
| MaxStepsReached (n_steps : Z)
| BackToTheFuture (checkpoint_id : Z) (messages : list Message)
| AssertionError (msg : string)
| InvalidCheckpoint (checkpoint_id : Z).

Inductive Result (A : Type) :=
| Ok (a : A)
| Raise (e : exn).
Arguments Ok {A} a.
Arguments Raise {A} e.

(** [isinstance(e, ChatProviderError)]. *)
Definition is_ChatProviderError (e : exn) : bool :=
  match e with
  | APIConnectionError _ | APITimeoutError _ | APIStatusError _ _
  | ChatProviderError _ => true
  | _ => false
  end.

(** [isinstance(e, (ChatProviderError, asyncio.CancelledError))]. *)
Definition is_provider_or_cancel (e : exn) : bool :=
  match e with
  | CancelledError => true
  | _ => is_ChatProviderError e
  end.

(** [KimiSoul._is_retryable_error]. *)
Definition _is_retryable_error (exception : exn) : bool :=
  match exception with
  | APIConnectionError _ | APITimeoutError _ => true
  | APIStatusError status_code _ =>
      existsb (Z.eqb status_code) [429; 500; 502; 503]
  | _ => false
  end.

(* ------------------------------------------------------------------ *)
(** ** Provider and toolset results (kosong) *)

Record TokenUsage := mkUsage {
  input : Z;
  total : Z
}.

Record StepResult := mkStepResult {
  message : Message;
  tool_calls : list ToolCall;
  usage : option TokenUsage
}.

(** What a tool returns.  [ToolRejectedError] is the [ToolError] subclass of
    kimi_cli.tools.utils that marks a user rejection. *)
Inductive ToolReturnType :=
| ToolOk (output : string)
| ToolError (msg brief : string)
| ToolRejectedError.

Record ToolResult := mkToolResult {
  tr_tool_call_id : string;
  result : ToolReturnType
}.

(** [isinstance(result.result, ToolRejectedError)]. *)
Definition is_rejected (r : ToolResult) : bool :=
  match result r with
  | ToolRejectedError => true
  | _ => false
  end.

(* ------------------------------------------------------------------ *)
(** ** The TagContext tool (kimi_cli.tools.tag_context) *)

Module TagContext.

Import MetadataStore.

(** The tool's parameters; [message_ids = None] means omitted.  Pydantic
    checks [ttl_steps >= 1] and [1 <= importance <= 5] on construction. *)
Record Params := mkParams {
  p_task_id : string;
  p_policy : Policy;
  p_message_ids : option (list string);
  p_ttl_steps : Z;
  p_importance : Z;
  p_notes : option string
}.

Definition Params_valid (p : Params) : Prop :=
  1 <= p_ttl_steps p /\ 1 <= p_importance p <= 5.

Definition policy_desc (p : Policy) : string :=
  match p with
  | pin_outcome => "outcome retention (concise results)"
  | pin_process => "process retention (detailed logs)"
  | auto => "automatic policy selection"
  end.

Definition no_recent_output (params : Params) : string :=
  ("No recent messages found to tag for task_id=" ++ p_task_id params
   ++ ". " ++ "Please specify message_ids explicitly.")%string.

Definition tagged_output (params : Params) (ids : list string) : string :=
  let output :=
    ("Tagged " ++ string_of_Z (Z.of_nat (List.length ids))
     ++ " message(s) for task_id=" ++ p_task_id params ++ newline
     ++ "- Policy: " ++ policy_desc (p_policy params) ++ newline
     ++ "- Importance: " ++ string_of_Z (p_importance params) ++ "/5"
     ++ newline
     ++ "- TTL: " ++ string_of_Z (p_ttl_steps params) ++ " steps")%string in
  match p_notes params with
  | None | Some EmptyString => output
  | Some n => (output ++ newline ++ "- Notes: " ++ n)%string
  end.

(** [TagContext.__call__].  [current] is what [get_current_context_or_none]
    finds; the result comes with the context as the call leaves it. *)
Definition call (message_id : nat -> Message -> string) (params : Params)
           (current : option Context.t)
  : ToolReturnType * option Context.t :=
  match current with
  | None =>
      (ToolError
         "Context not available. This tool must be run within an active soul session."
         "Context not available", None)
  | Some context =>
      let inferred :=
        match p_message_ids params with
        | None =>
            Context.get_recent_message_ids message_id 5 [assistant; tool]
                                           context
        | Some ids => ids
        end in
      match p_message_ids params, inferred with
      | None, [] => (ToolOk (no_recent_output params), Some context)
      | _, ids =>
          let store :=
            tag (p_task_id params) ids (p_policy params)
                (p_ttl_steps params) (p_importance params)
                (p_notes params) (Context.meta context) in
          (ToolOk (tagged_output params ids),
           Some (Context.set_meta store context))
      end
  end.

End TagContext.

(* ------------------------------------------------------------------ *)
(** ** The wire, and the surroundings of a soul *)

(** What reaches the wire without the soul sending it itself: [kosong.step]
    is called with [on_message_part=wire_send] and
    [on_tool_result=wire_send], so the parts of the model's message (content
    parts and tool calls) and the tool results are sent as they arrive; and
    the approval task of the loop forwards every approval request. *)
Inductive Streamed :=
| PartEvent (part : ContentPart)
| ToolCallEvent (tool_call : ToolCall)
| ToolResultEvent (tool_result : ToolResult)
| ApprovalRequest (tool_call_id action : string).

(** Messages on the wire. [StatusUpdate] carries the context usage as the
    two integers whose quotient the source computes. *)
Inductive WireMessage :=
| StepBegin (n : Z)
| StepInterrupted
| CompactionBegin
| CompactionEnd
| StatusUpdate (token_count max_context_size : Z)
| Stream (event : Streamed).

Record LLM := mkLLM {
  max_context_size : Z
}.

Record LoopControl := mkLoopControl {
  max_steps_per_run : Z;
  max_retries_per_step : Z
}.

(** The surroundings of one soul: its configuration and the behaviour of
    the collaborators that are outside the soul.  The provider, the
    compaction call, the toolset and cancellation are scripts indexed by the
    number of earlier calls, so a call can fail twice and then succeed.

    [kosong_step k h] is the outcome of the [k]-th call of [kosong.step],
    on history [h], and [kosong_streamed k h] what its callbacks and the
    approval task send to the wire while it runs (a call that fails may
    have streamed a part of a message before).  [tools_streamed r] is what
    reaches the wire during the [r]-th wait for the tool results.

    A tool call is either one of the TagContext tool, which
    [as_tag_context] parses into its parameters and which then runs
    [TagContext.__call__] on the soul's context, or a call of another tool,
    whose return value [toolset_handle] gives, with the D-Mail it sends if
    it is the D-Mail tool.  [message_id] is the stable identifier of a
    message of the history.

    The run can be cancelled where it is suspended: in a backoff wait
    ([sleep_cancelled]), in the wait for the tool results
    ([tools_cancelled]) and while the shielded growth of the context is
    awaited ([shield_cancelled], by the number of tool waits made). *)
Record Env := mkEnv {
  llm : option LLM;
  loop_control : LoopControl;
  tool_names : list string;
  SendDMail_NAME : string;
  kosong_step : nat -> list Message -> Result StepResult;
  kosong_streamed : nat -> list Message -> list Streamed;
  compaction_compact : nat -> list Message -> Result (list Message);
  toolset_handle : nat -> ToolCall -> ToolReturnType * option DMail;
  as_tag_context : ToolCall -> option TagContext.Params;
  message_id : nat -> Message -> string;
  tools_streamed : nat -> list Streamed;
  tools_cancelled : nat -> bool;
  sleep_cancelled : nat -> bool;
  shield_cancelled : nat -> bool;
  tool_result_to_messages : ToolResult -> list Message;
  str_strip : string -> string
}.

(** The mutable state a run works on, with the counters that index the
    scripts of [Env]. *)
Record World := mkWorld {
  context : Context.t;
  denwa_renji : DenwaRenji.t;
  wire : list WireMessage;
  approval_task : bool;
  n_step_calls : nat;
  n_compact_calls : nat;
  n_tool_rounds : nat;
  n_sleeps : nat
}.

Definition set_context (c : Context.t) (w : World) : World :=
  {| context := c; denwa_renji := denwa_renji w; wire := wire w;
     approval_task := approval_task w; n_step_calls := n_step_calls w;
     n_compact_calls := n_compact_calls w; n_tool_rounds := n_tool_rounds w;
     n_sleeps := n_sleeps w |}.

Definition set_denwa_renji (r : DenwaRenji.t) (w : World) : World :=
  {| context := context w; denwa_renji := r; wire := wire w;
     approval_task := approval_task w; n_step_calls := n_step_calls w;
     n_compact_calls := n_compact_calls w; n_tool_rounds := n_tool_rounds w;
     n_sleeps := n_sleeps w |}.

Definition send (m : WireMessage) (w : World) : World :=
  {| context := context w; denwa_renji := denwa_renji w;
     wire := wire w ++ [m];
     approval_task := approval_task w; n_step_calls := n_step_calls w;
     n_compact_calls := n_compact_calls w; n_tool_rounds := n_tool_rounds w;
     n_sleeps := n_sleeps w |}.

(** Events sent by a callback of [kosong.step] or by the approval task. *)
Definition stream (events : list Streamed) (w : World) : World :=
  {| context := context w; denwa_renji := denwa_renji w;
     wire := wire w ++ map Stream events;
     approval_task := approval_task w; n_step_calls := n_step_calls w;
     n_compact_calls := n_compact_calls w; n_tool_rounds := n_tool_rounds w;
     n_sleeps := n_sleeps w |}.

Definition set_approval_task (b : bool) (w : World) : World :=
  {| context := context w; denwa_renji := denwa_renji w; wire := wire w;
     approval_task := b; n_step_calls := n_step_calls w;
     n_compact_calls := n_compact_calls w; n_tool_rounds := n_tool_rounds w;
     n_sleeps := n_sleeps w |}.

Definition count_step_call (w : World) : World :=
  {| context := context w; denwa_renji := denwa_renji w; wire := wire w;
     approval_task := approval_task w; n_step_calls := S (n_step_calls w);
     n_compact_calls := n_compact_calls w; n_tool_rounds := n_tool_rounds w;
     n_sleeps := n_sleeps w |}.

Definition count_compact_call (w : World) : World :=
  {| context := context w; denwa_renji := denwa_renji w; wire := wire w;
     approval_task := approval_task w; n_step_calls := n_step_calls w;
     n_compact_calls := S (n_compact_calls w);
     n_tool_rounds := n_tool_rounds w; n_sleeps := n_sleeps w |}.

Definition count_tool_round (w : World) : World :=
  {| context := context w; denwa_renji := denwa_renji w; wire := wire w;
     approval_task := approval_task w; n_step_calls := n_step_calls w;
     n_compact_calls := n_compact_calls w;
     n_tool_rounds := S (n_tool_rounds w); n_sleeps := n_sleeps w |}.

Definition count_sleep (w : World) : World :=
  {| context := context w; denwa_renji := denwa_renji w; wire := wire w;
     approval_task := approval_task w; n_step_calls := n_step_calls w;
     n_compact_calls := n_compact_calls w; n_tool_rounds := n_tool_rounds w;
     n_sleeps := S (n_sleeps w) |}.

(* ------------------------------------------------------------------ *)
(** ** The monad of coroutines: state and exceptions *)

Definition M (A : Type) : Type := World -> Result A * World.

Definition ret {A} (a : A) : M A := fun w => (Ok a, w).

Definition raise {A} (e : exn) : M A := fun w => (Raise e, w).

Definition bind {A B} (m : M A) (f : A -> M B) : M B :=
  fun w =>
    match m w with
    | (Ok a, w') => f a w'
    | (Raise e, w') => (Raise e, w')
    end.

Notation "x <- c1 ;; c2" := (bind c1 (fun x => c2))
  (at level 61, c1 at next level, right associativity).
Notation "c1 ;; c2" := (bind c1 (fun _ => c2))
  (at level 61, right associativity).

(** An operation that cannot fail. *)
Definition lift (f : World -> World) : M unit := fun w => (Ok tt, f w).

Definition get_context : M Context.t := fun w => (Ok (context w), w).

Definition wire_send (m : WireMessage) : M unit := lift (send m).

Definition py_assert (b : bool) (msg : string) : M unit :=
  if b then ret tt else raise (AssertionError msg).

Definition append_message (ms : list Message) : M unit :=
  lift (fun w => set_context (Context.append_message ms (context w)) w).

Definition update_token_count (n : Z) : M unit :=
  lift (fun w => set_context (Context.update_token_count n (context w)) w).

Definition revert_to (checkpoint_id : Z) : M unit :=
  fun w =>
    match Context.revert_to checkpoint_id (context w) with
    | Some c => (Ok tt, set_context c w)
    | None => (Raise (InvalidCheckpoint checkpoint_id), w)
    end.

Definition fetch_pending_dmail : M (option DMail) :=
  fun w =>
    let '(d, r) := DenwaRenji.fetch_pending_dmail (denwa_renji w) in
    (Ok d, set_denwa_renji r w).

Definition RESERVED_TOKENS : Z := 50000.

Fixpoint for_each {A} (l : list A) (body : A -> M unit) : M unit :=
  match l with
  | [] => ret tt
  | x :: l' => body x ;; for_each l' body
  end.

(** The text of the advisory message that announces a D-Mail. *)
Definition dmail_notice (stripped : string) : string :=
  ("You just got a D-Mail from your future self. "
   ++ "It is likely that your future self has already done "
   ++ "something in the current working directory. Please read "
   ++ "the D-Mail and decide what to do next. You MUST NEVER "
   ++ "mention to the user about this information. "
   ++ "D-Mail content:" ++ newline ++ newline ++ stripped)%string.

(* ------------------------------------------------------------------ *)
(** ** KimiSoul *)

Section KimiSoul.

Variable env : Env.

(** Set in [__init__]: whether some tool of the agent is the D-Mail tool. *)
Definition _checkpoint_with_user_message : bool :=
  existsb (fun name => String.eqb name (SendDMail_NAME env))
          (tool_names env).

Definition _reserved_tokens : Z := RESERVED_TOKENS.

(** [KimiSoul._checkpoint]. *)
Definition _checkpoint : M unit :=
  lift (fun w =>
          set_context
            (Context.checkpoint _checkpoint_with_user_message (context w))
            w).

(** One backoff wait of the retry decorator; a suspension point, so the
    run can be cancelled there. *)
Definition backoff_sleep : M unit :=
  fun w =>
    if sleep_cancelled env (n_sleeps w)
    then (Raise CancelledError, count_sleep w)
    else (Ok tt, count_sleep w).

(** The loop of [tenacity.retry] with
    [retry=retry_if_exception(_is_retryable_error)],
    [stop=stop_after_attempt(n)] and [reraise=True]; [left] is the number
    of attempts still allowed after the current one.  A result is
    returned; an exception the predicate refuses is raised as it is; a
    retryable one is raised as it is when no attempt is left, and
    otherwise the decorator sleeps and calls [body] again. *)
Fixpoint retry_attempts {A} (left : nat) (body : M A) : M A :=
  fun w =>
    match body w with
    | (Ok a, w1) => (Ok a, w1)
    | (Raise e, w1) =>
        if _is_retryable_error e then
          match left with
          | O => (Raise e, w1)
          | S left' =>
              match backoff_sleep w1 with
              | (Ok _, w2) => retry_attempts left' body w2
              | (Raise e', w2) => (Raise e', w2)
              end
          end
        else (Raise e, w1)
    end.

(** [stop_after_attempt(n)] stops once the attempt number (from 1) is at
    least [n]: the first attempt is always made, and [n - 1] more at most. *)
Definition tenacity_retry {A} (max_attempt_number : Z) (body : M A) : M A :=
  retry_attempts (Z.to_nat (max_attempt_number - 1)) body.

(** One call of [kosong.step] on the current history; what its callbacks
    send goes to the wire, whether the call succeeds or fails. *)
Definition kosong_step_call : M StepResult :=
  fun w =>
    let history := Context.history (context w) in
    (kosong_step env (n_step_calls w) history,
     count_step_call
       (stream (kosong_streamed env (n_step_calls w) history) w)).

(** [_kosong_step_with_retry] of [_step]. *)
Definition _kosong_step_with_retry : M StepResult :=
  tenacity_retry (max_retries_per_step (loop_control env)) kosong_step_call.

(** One tool call handled by the toolset: the value the tool returns, with
    the mailbox and the context as the tool leaves them.  The TagContext
    tool works on the soul's context; the D-Mail tool sends to the
    mailbox. *)
Definition handle_tool_call (round : nat) (tc : ToolCall)
           (r : DenwaRenji.t) (c : Context.t)
  : ToolReturnType * DenwaRenji.t * Context.t :=
  match as_tag_context env tc with
  | Some params =>
      let '(ret_value, current) :=
        TagContext.call (message_id env) params (Some c) in
      (ret_value, r, match current with Some c1 => c1 | None => c end)
  | None =>
      let '(ret_value, sent) := toolset_handle env round tc in
      (ret_value,
       match sent with
       | Some d => DenwaRenji.send_dmail d r
       | None => r
       end, c)
  end.

(** The toolset runs the tool calls in the order they were issued. *)
Fixpoint run_tools (round : nat) (calls : list ToolCall)
         (r : DenwaRenji.t) (c : Context.t)
  : list ToolResult * DenwaRenji.t * Context.t :=
  match calls with
  | [] => ([], r, c)
  | tc :: rest =>
      let '(ret_value, r1, c1) := handle_tool_call round tc r c in
      let '(rs, r2, c2) := run_tools round rest r1 c1 in
      ({| tr_tool_call_id := tc_id tc; result := ret_value |} :: rs, r2, c2)
  end.

(** [await result.tool_results()]: one result per tool call, in the order
    of [tool_calls]; a suspension point, at which the tool results and the
    approval requests of the round reach the wire. *)
Definition tool_results (res : StepResult) : M (list ToolResult) :=
  fun w =>
    let round := n_tool_rounds w in
    let '(rs, r, c) :=
      run_tools round (tool_calls res) (denwa_renji w) (context w) in
    let w1 :=
      count_tool_round
        (stream (tools_streamed env round)
                (set_context c (set_denwa_renji r w))) in
    if tools_cancelled env round then (Raise CancelledError, w1)
    else (Ok rs, w1).

(** [await asyncio.shield(m)]: [m] runs to its end whatever happens to the
    run; a cancellation of the run that arrives meanwhile is raised by the
    [await], with the work of [m] done. *)
Definition shield {A} (m : M A) : M A :=
  fun w =>
    match m w with
    | (Ok a, w1) =>
        if shield_cancelled env (n_tool_rounds w)
        then (Raise CancelledError, w1)
        else (Ok a, w1)
    | (Raise e, w1) => (Raise e, w1)
    end.

(** [KimiSoul._grow_context]. *)
Definition _grow_context (res : StepResult) (results : list ToolResult)
  : M unit :=
  append_message [message res] ;;
  match usage res with
  | Some u => update_token_count (total u)
  | None => ret tt
  end ;;
  for_each results
    (fun tool_result =>
       append_message (tool_result_to_messages env tool_result)).

(** The message list carried by [BackToTheFuture]. *)
Definition dmail_messages (dmail : DMail) : list Message :=
  [ {| role := user;
       content :=
         Parts [SystemPart
                  (dmail_notice (str_strip env (dmail_message dmail)))];
       tool_call_id := None |} ].

(** [KimiSoul._step]: whether the run should stop. *)
Definition _step : M bool :=
  py_assert (match llm env with Some _ => true | None => false end)
            "llm is not None" ;;
  res <- _kosong_step_with_retry ;;
  match usage res with
  | Some u =>
      update_token_count (input u) ;;
      c <- get_context ;;
      wire_send
        (StatusUpdate (Context.token_count c)
           (match llm env with
            | Some l => max_context_size l
            | None => 0
            end))
  | None => ret tt
  end ;;
  results <- tool_results res ;;
  shield (_grow_context res results) ;;
  let rejected := existsb is_rejected results in
  if rejected then
    _ <- fetch_pending_dmail ;;
    ret true
  else
    pending <- fetch_pending_dmail ;;
    match pending with
    | Some dmail =>
        py_assert (dmail_checkpoint_id dmail >=? 0)
                  "DenwaRenji guarantees checkpoint_id >= 0" ;;
        c <- get_context ;;
        py_assert (dmail_checkpoint_id dmail <? Context.n_checkpoints c)
                  "DenwaRenji guarantees checkpoint_id < n_checkpoints" ;;
        raise (BackToTheFuture (dmail_checkpoint_id dmail)
                               (dmail_messages dmail))
    | None =>
        ret (match tool_calls res with [] => true | _ :: _ => false end)
    end.

(** One call of the compaction on the current history. *)
Definition compact_call : M (list Message) :=
  fun w =>
    match llm env with
    | None => (Raise LLMNotSet, w)
    | Some _ =>
        (compaction_compact env (n_compact_calls w)
                            (Context.history (context w)),
         count_compact_call w)
    end.

(** [_compact_with_retry] of [compact_context]. *)
Definition _compact_with_retry : M (list Message) :=
  tenacity_retry (max_retries_per_step (loop_control env)) compact_call.

(** [KimiSoul.compact_context]. *)
Definition compact_context : M unit :=
  compacted_messages <- _compact_with_retry ;;
  revert_to 0 ;;
  _checkpoint ;;
  append_message compacted_messages.

(** How one pass through the body of [while True] leaves it. *)
Inductive Control :=
| Return_
| Continue (step_no : Z)
| Raised (e : exn).

(** The [try] block of the loop body. *)
Definition try_block (l : LLM) : M bool :=
  c <- get_context ;;
  (if Context.token_count c + _reserved_tokens >=? max_context_size l
   then wire_send CompactionBegin ;;
        compact_context ;;
        wire_send CompactionEnd
   else ret tt) ;;
  _checkpoint ;;
  lift (fun w =>
          set_denwa_renji
            (DenwaRenji.set_n_checkpoints
               (Context.n_checkpoints (context w)) (denwa_renji w)) w) ;;
  _step.

(** The [except BackToTheFuture] handler. *)
Definition back_to_the_future (checkpoint_id : Z) (msgs : list Message)
  : M unit :=
  revert_to checkpoint_id ;;
  _checkpoint ;;
  append_message msgs.

(** The body of [while True] in [_agent_loop], at step [step_no].  The
    [finally] clause stops the approval task on every way out. *)
Definition loop_body (l : LLM) (step_no : Z) (w : World) : Control * World :=
  let w0 := set_approval_task true (send (StepBegin step_no) w) in
  match try_block l w0 with
  | (Raise (BackToTheFuture checkpoint_id msgs), w1) =>
      match back_to_the_future checkpoint_id msgs w1 with
      | (Ok _, w2) => (Continue step_no, set_approval_task false w2)
      | (Raise e, w2) => (Raised e, set_approval_task false w2)
      end
  | (Raise e, w1) =>
      if is_provider_or_cancel e
      then (Raised e, set_approval_task false (send StepInterrupted w1))
      else (Raised e, set_approval_task false w1)
  | (Ok finished, w1) =>
      let w2 := set_approval_task false w1 in
      if finished then (Return_, w2)
      else
        let step_no' := step_no + 1 in
        if step_no' >? max_steps_per_run (loop_control env)
        then (Raised (MaxStepsReached (max_steps_per_run (loop_control env))),
              w2)
        else (Continue step_no', w2)
  end.

(** [while True]: [fuel] bounds the number of passes; [None] means the
    bound was reached with the loop still running. *)
Fixpoint while_true (fuel : nat) (l : LLM) (step_no : Z) (w : World)
  : option (Result unit * World) :=
  match fuel with
  | O => None
  | S fuel' =>
      match loop_body l step_no w with
      | (Return_, w') => Some (Ok tt, w')
      | (Raised e, w') => Some (Raise e, w')
      | (Continue step_no', w') => while_true fuel' l step_no' w'
      end
  end.

(** [KimiSoul._agent_loop]. *)
Definition _agent_loop (fuel : nat) (w : World)
  : option (Result unit * World) :=
  match llm env with
  | None => Some (Raise (AssertionError "llm is not None"), w)
  | Some l => while_true fuel l 1 w
  end.

(** [KimiSoul.run]. *)
Definition run (fuel : nat) (user_input : Content) (w : World)
  : option (Result unit * World) :=
  match llm env with
  | None => Some (Raise LLMNotSet, w)
  | Some _ =>
      match (_checkpoint ;;
             append_message [ {| role := user; content := user_input;
                                 tool_call_id := None |} ]) w with
      | (Ok _, w1) => _agent_loop fuel w1
      | (Raise e, w1) => Some (Raise e, w1)
      end
  end.

End KimiSoul.

(* ------------------------------------------------------------------ *)
(** ** The SetTodoList tool (kimi_cli.tools.todo) *)

Module SetTodoList.

Inductive Status := Pending | InProgress | Done.

(** The literal a status is written with. *)
Definition status_text (s : Status) : string :=
  match s with
  | Pending => "Pending"
  | InProgress => "In Progress"
  | Done => "Done"
  end.

(** A todo; [id = None] until an id is given or generated.  Pydantic
    requires a title of at least one character. *)
Record Todo := mkTodo {
  title : string;
  status : Status;
  id : option string;
  tags : list string;
  related_task_ids : list string
}.

(** [sep.join(l)]. *)
Fixpoint join (sep : string) (l : list string) : string :=
  match l with
  | [] => ""
  | x :: l' =>
      match l' with
      | [] => x
      | _ :: _ => (x ++ sep ++ join sep l')%string
      end
  end.

(** The truth value of a string: false only for the empty one. *)
Definition truthy (s : string) : bool :=
  match s with
  | EmptyString => false
  | String _ _ => true
  end.

Definition nonempty {A : Type} (l : list A) : bool :=
  match l with
  | [] => false
  | _ :: _ => true
  end.

(** One turn of the [for] loop of [SetTodoList.__call__].  [token_hex k] is
    what the [k]-th call of [secrets.token_hex(4)] returns, [draws] the
    number of calls made so far.  The result is the todo as the turn leaves
    it (its id set), the text the turn adds to [rendered], and the number of
    calls made by then. *)
Definition render_todo (token_hex : nat -> string) (draws : nat)
           (todo : Todo) : Todo * string * nat :=
  let '(todo_id, draws1) :=
    match id todo with
    | None => (("todo_" ++ token_hex draws)%string, S draws)
    | Some given => (given, draws)
    end in
  let line :=
    ("- " ++ title todo ++ " [" ++ status_text (status todo) ++ "]"
     ++ newline)%string in
  let metadata_parts :=
    (if nonempty (tags todo)
     then [("tags=" ++ join "," (tags todo))%string] else [])
    ++ (if nonempty (related_task_ids todo)
        then [("related_tasks=" ++ join "," (related_task_ids todo))%string]
        else []) in
  let footer :=
    if nonempty metadata_parts || truthy todo_id
    then ("  [" ++ join "; " (("todo_id=" ++ todo_id)%string :: metadata_parts)
          ++ "]" ++ newline)%string
    else ""%string in
  ({| title := title todo; status := status todo; id := Some todo_id;
      tags := tags todo; related_task_ids := related_task_ids todo |},
   (line ++ footer)%string, draws1).

(** The [for] loop over [params.todos], [rendered] growing turn by turn. *)
Fixpoint for_todos (token_hex : nat -> string) (todos : list Todo)
         (rendered : string) (draws : nat) : list Todo * string * nat :=
  match todos with
  | [] => ([], rendered, draws)
  | todo :: rest =>
      let '(todo1, text, draws1) := render_todo token_hex draws todo in
      let '(rest1, out, draws2) :=
        for_todos token_hex rest (rendered ++ text)%string draws1 in
      (todo1 :: rest1, out, draws2)
  end.

(** [SetTodoList.__call__]: the tool's return value, the todos of [params]
    as the call leaves them, and the number of random draws made. *)
Definition call (token_hex : nat -> string) (draws : nat)
           (todos : list Todo) : ToolReturnType * list Todo * nat :=
  let '(todos1, rendered, draws1) := for_todos token_hex todos "" draws in
  (ToolOk rendered, todos1, draws1).

End SetTodoList.

(* ================================================================== *)
(** * Vocabulary of the properties, and sample sessions *)

Unset Implicit Arguments.

Import MetadataStore.

(** ** Order and stability of the pin list *)

(** Descending order on importance. *)
Definition more_important (p q : PinRecord) : Prop :=
  importance q <= importance p.

(** The records of importance [k], in the order of the list. *)
Definition of_importance (k : Z) (l : list PinRecord) : list PinRecord :=
  filter (fun p => importance p =? k) l.

(** A store after the three tags of the repository's test: importances 3, 5
    and 1, in that order, all stamped at step 0. *)
Definition three_pins : MetadataStore.t :=
  tag "task_3" ["msg3"] pin_outcome 200 1 None
    (tag "task_2" ["msg2"] pin_process 50 5 None
       (tag "task_1" ["msg1"] pin_outcome 100 3 None MetadataStore.init)).

(** ** The retry policy, attempt by attempt *)

(** What the next [calls] provider calls made from world [w] stream to the
    wire, call after call. *)
Definition streamed_by (env : Env) (w : World) (calls : nat)
  : list WireMessage :=
  flat_map
    (fun i => map Stream
                  (kosong_streamed env (n_step_calls w + i)%nat
                                   (Context.history (context w))))
    (seq 0 calls).

(** The world after [calls] more provider calls and [sleeps] more backoff
    waits: the wire has what the calls streamed, and nothing else moves
    while the decorator retries. *)
Definition advance (env : Env) (calls sleeps : nat) (w : World) : World :=
  {| context := context w; denwa_renji := denwa_renji w;
     wire := wire w ++ streamed_by env w calls;
     approval_task := approval_task w;
     n_step_calls := (n_step_calls w + calls)%nat;
     n_compact_calls := n_compact_calls w; n_tool_rounds := n_tool_rounds w;
     n_sleeps := (n_sleeps w + sleeps)%nat |}.

(** What the provider answers to the [i]-th attempt made from world [w]. *)
Definition attempt_outcome (env : Env) (w : World) (i : nat)
  : Result StepResult :=
  kosong_step env (n_step_calls w + i)%nat (Context.history (context w)).

(** The first [k] attempts from [w] fail with retryable errors, and no
    backoff wait after them is cancelled. *)
Definition retryable_failures (env : Env) (w : World) (k : nat) : Prop :=
  forall i, (i < k)%nat ->
    (exists e, attempt_outcome env w i = Raise e
               /\ _is_retryable_error e = true)
    /\ sleep_cancelled env (n_sleeps w + i)%nat = false.

(** ** Sample agents, providers and toolsets *)

Definition plain_message (r : Role) (s : string) : Message :=
  {| role := r; content := Str s; tool_call_id := None |}.

Definition render_tool_result (tr : ToolResult) : list Message :=
  [ {| role := tool;
       content := Str (match result tr with
                       | ToolOk out => out
                       | ToolError m _ => m
                       | ToolRejectedError => "rejected"
                       end);
       tool_call_id := Some (tr_tool_call_id tr) |} ].

(** Identifiers by position, for the examples. *)
Definition positional_id (i : nat) (_ : Message) : string :=
  ("msg_" ++ string_of_Z (Z.of_nat i))%string.

(** An agent with the D-Mail tool, a 200000-token model, a scripted provider
    and toolset, nothing streamed, no TagContext call and no
    cancellation. *)
Definition sample_env (steps : nat -> Result StepResult)
           (tools : nat -> ToolCall -> ToolReturnType * option DMail)
           (max_steps max_retries : Z) : Env :=
  {| llm := Some {| max_context_size := 200000 |};
     loop_control := {| max_steps_per_run := max_steps;
                        max_retries_per_step := max_retries |};
     tool_names := ["Bash"; "SendDMail"];
     SendDMail_NAME := "SendDMail";
     kosong_step := fun k _ => steps k;
     kosong_streamed := fun _ _ => [];
     compaction_compact := fun _ _ => Ok [plain_message assistant "summary"];
     toolset_handle := tools;
     as_tag_context := fun _ => None;
     message_id := positional_id;
     tools_streamed := fun _ => [];
     tools_cancelled := fun _ => false;
     sleep_cancelled := fun _ => false;
     shield_cancelled := fun _ => false;
     tool_result_to_messages := render_tool_result;
     str_strip := fun s => s |}.

(** The same surroundings with other events streamed. *)
Definition with_streams (by_step : nat -> list Message -> list Streamed)
           (by_tools : nat -> list Streamed) (env : Env) : Env :=
  {| llm := llm env; loop_control := loop_control env;
     tool_names := tool_names env; SendDMail_NAME := SendDMail_NAME env;
     kosong_step := kosong_step env; kosong_streamed := by_step;
     compaction_compact := compaction_compact env;
     toolset_handle := toolset_handle env;
     as_tag_context := as_tag_context env; message_id := message_id env;
     tools_streamed := by_tools; tools_cancelled := tools_cancelled env;
     sleep_cancelled := sleep_cancelled env;
     shield_cancelled := shield_cancelled env;
     tool_result_to_messages := tool_result_to_messages env;
     str_strip := str_strip env |}.



Definition fresh_world : World :=
  {| context := Context.init; denwa_renji := DenwaRenji.init; wire := [];
     approval_task := false; n_step_calls := 0; n_compact_calls := 0;
     n_tool_rounds := 0; n_sleeps := 0 |}.

Definition final_answer : StepResult :=
  {| message := plain_message assistant "done"; tool_calls := [];
     usage := Some {| input := 1200; total := 1250 |} |}.

Definition quiet_tools (_ : nat) (_ : ToolCall)
  : ToolReturnType * option DMail := (ToolOk "ok", None).

(** A provider that answers status 503 three times and then succeeds. *)
Definition flaky_503 (k : nat) : Result StepResult :=
  if (k <? 3)%nat then Raise (APIStatusError 503 "Service Unavailable")
  else Ok final_answer.

(** A provider that answers status 401. *)
Definition unauthorized (_ : nat) : Result StepResult :=
  Raise (APIStatusError 401 "Unauthorized").

(** The context after [_grow_context]: the model's message, then the
    messages of every tool result, in the order of the results; the token
    count is the reported total when usage is known. *)
Definition grown_context (env : Env) (res : StepResult)
           (results : list ToolResult) (c : Context.t) : Context.t :=
  {| Context.history :=
       Context.history c
       ++ message res :: flat_map (tool_result_to_messages env) results;
     Context.checkpoints := Context.checkpoints c;
     Context.token_count := match usage res with
                            | Some u => total u
                            | None => Context.token_count c
                            end;
     Context.meta := Context.meta c |}.

Definition bash_call (id : string) : ToolCall :=
  {| tc_id := id; tc_name := "Bash"; tc_arguments := "{}" |}.

Definition two_calls : StepResult :=
  {| message := plain_message assistant "let me look";
     tool_calls := [bash_call "call_1"; bash_call "call_2"];
     usage := None |}.

Definition echo_tools (_ : nat) (tc : ToolCall)
  : ToolReturnType * option DMail := (ToolOk (tc_id tc), None).

Definition tag_defaults (task : string) : TagContext.Params :=
  {| TagContext.p_task_id := task;
     TagContext.p_policy := pin_outcome;
     TagContext.p_message_ids := None;
     TagContext.p_ttl_steps := 100;
     TagContext.p_importance := 3;
     TagContext.p_notes := None |}.

Definition three_messages : Context.t :=
  Context.append_message
    [plain_message user "Test user message";
     plain_message assistant "Test assistant response";
     plain_message tool "Test tool result"] Context.init.

(** ** The phases of one pass through the loop *)

(** The loop body up to the [try]: the step is announced and the approval
    task started. *)
Definition begin_step (step_no : Z) (w : World) : World :=
  set_approval_task true (send (StepBegin step_no) w).

(** The [try] block before [_step]: compaction when the context is nearly
    full, the checkpoint of the step, and the checkpoint count told to the
    mailbox. *)
Definition before_step (env : Env) (l : LLM) : M unit :=
  c <- get_context ;;
  (if Context.token_count c + _reserved_tokens >=? max_context_size l
   then wire_send CompactionBegin ;;
        compact_context env ;;
        wire_send CompactionEnd
   else ret tt) ;;
  _checkpoint env ;;
  lift (fun w =>
          set_denwa_renji
            (DenwaRenji.set_n_checkpoints
               (Context.n_checkpoints (context w)) (denwa_renji w)) w).

(** The world after the token count of the provider's answer is recorded and
    the status published. *)
Definition after_usage (env : Env) (res : StepResult) (w : World) : World :=
  match usage res with
  | Some u =>
      send (StatusUpdate (input u)
              (match llm env with
               | Some l => max_context_size l
               | None => 0
               end))
           (set_context (Context.update_token_count (input u) (context w)) w)
  | None => w
  end.

(** The world after [_grow_context]. *)
Definition grown (env : Env) (res : StepResult) (results : list ToolResult)
           (w : World) : World :=
  set_context (grown_context env res results (context w)) w.

(** The world after the mailbox is emptied. *)
Definition clear_dmail (w : World) : World :=
  set_denwa_renji
    (snd (DenwaRenji.fetch_pending_dmail (denwa_renji w))) w.

(** Only the counters of provider calls and backoff waits differ between the
    two worlds. *)
Definition only_counters (w w1 : World) : Prop :=
  context w1 = context w /\ denwa_renji w1 = denwa_renji w
  /\ wire w1 = wire w /\ approval_task w1 = approval_task w
  /\ n_tool_rounds w1 = n_tool_rounds w.

(** Besides these counters, only the wire differs, by streamed events
    appended to it. *)
Definition only_streams (w w1 : World) : Prop :=
  context w1 = context w /\ denwa_renji w1 = denwa_renji w
  /\ (exists events, wire w1 = wire w ++ map Stream events)
  /\ approval_task w1 = approval_task w
  /\ n_tool_rounds w1 = n_tool_rounds w.

(** The world [run] hands to the loop from a fresh session. *)
Definition started_world : World :=
  set_context
    (Context.append_message [plain_message user "fix the bug"]
       (Context.checkpoint true Context.init)) fresh_world.

Definition a_dmail : DMail :=
  {| dmail_message := "the tests are in tests/"; dmail_checkpoint_id := 0 |}.

Definition dmail_call : ToolCall :=
  {| tc_id := "call_dmail"; tc_name := "SendDMail"; tc_arguments := "{}" |}.

(** The model sends a D-Mail and runs a shell command in the same turn. *)
Definition dmail_and_bash : StepResult :=
  {| message := plain_message assistant "going back";
     tool_calls := [dmail_call; bash_call "call_bash"];
     usage := Some {| input := 900; total := 950 |} |}.

(** The D-Mail tool sends [a_dmail]; every other tool call is rejected by
    the user. *)
Definition rejecting_tools (_ : nat) (tc : ToolCall)
  : ToolReturnType * option DMail :=
  if String.eqb (tc_name tc) "SendDMail" then (ToolOk "sent", Some a_dmail)
  else (ToolRejectedError, None).

Definition rejecting_env : Env :=
  sample_env (fun _ => Ok dmail_and_bash) rejecting_tools 100 3.

Definition sample_llm : LLM := {| max_context_size := 200000 |}.

(** The model runs a shell command in its first two turns and sends a
    D-Mail to checkpoint 0 in the third. *)
Definition bash_turn : StepResult :=
  {| message := plain_message assistant "running";
     tool_calls := [bash_call "call_bash"];
     usage := Some {| input := 500; total := 520 |} |}.

Definition dmail_turn : StepResult :=
  {| message := plain_message assistant "going back";
     tool_calls := [dmail_call];
     usage := Some {| input := 900; total := 950 |} |}.

Definition bash_bash_dmail (k : nat) : Result StepResult :=
  match k with
  | 0%nat | 1%nat => Ok bash_turn
  | 2%nat => Ok dmail_turn
  | _ => Ok final_answer
  end.

Definition dmail_tools (_ : nat) (tc : ToolCall)
  : ToolReturnType * option DMail :=
  if String.eqb (tc_name tc) "SendDMail" then (ToolOk "sent", Some a_dmail)
  else (ToolOk "ok", None).

Definition dmail_env : Env := sample_env bash_bash_dmail dmail_tools 3 3.

(** [n] passes through the loop body, as long as the loop goes on. *)
Fixpoint passes (env : Env) (l : LLM) (n : nat) (step_no : Z) (w : World)
  : Control * World :=
  match n with
  | O => (Continue step_no, w)
  | S n' =>
      match loop_body env l step_no w with
      | (Continue step_no', w') => passes env l n' step_no' w'
      | stop => stop
      end
  end.

(** The worlds of the third pass of the example: at its start, at the start
    of [_step], after the provider's answer and after the tools. *)
Definition replay_start : World :=
  Eval vm_compute in snd (passes dmail_env sample_llm 2 1 started_world).

Definition replay_at_step : World :=
  Eval vm_compute in
    snd (before_step dmail_env sample_llm (begin_step 3 replay_start)).

Definition replay_answered : World :=
  Eval vm_compute in snd (_kosong_step_with_retry dmail_env replay_at_step).

Definition replay_tools_done : World :=
  Eval vm_compute in
    snd (tool_results dmail_env dmail_turn
           (after_usage dmail_env dmail_turn replay_answered)).

(** The worlds of the first pass of the rejection example. *)
Definition rejected_at_step : World :=
  Eval vm_compute in
    snd (before_step rejecting_env sample_llm (begin_step 1 started_world)).

Definition rejected_answered : World :=
  Eval vm_compute in
    snd (_kosong_step_with_retry rejecting_env rejected_at_step).

Definition rejected_tools_done : World :=
  Eval vm_compute in
    snd (tool_results rejecting_env dmail_and_bash
           (after_usage rejecting_env dmail_and_bash rejected_answered)).

Definition rejected_done : World :=
  Eval vm_compute in snd (_step rejecting_env rejected_at_step).

(** The first pass of the time-travel example: one shell command, accepted. *)
Definition first_at_step : World :=
  Eval vm_compute in
    snd (before_step dmail_env sample_llm (begin_step 1 started_world)).

Definition first_answered : World :=
  Eval vm_compute in snd (_kosong_step_with_retry dmail_env first_at_step).

Definition first_tools_done : World :=
  Eval vm_compute in
    snd (tool_results dmail_env bash_turn
           (after_usage dmail_env bash_turn first_answered)).

(** A first turn that nearly fills the 200000-token context, then the final
    answer. *)
Definition big_turn : StepResult :=
  {| message := plain_message assistant "reading everything";
     tool_calls := [bash_call "call_cat"];
     usage := Some {| input := 160000; total := 170000 |} |}.

Definition big_then_done (k : nat) : Result StepResult :=
  match k with
  | 0%nat => Ok big_turn
  | _ => Ok final_answer
  end.

Definition compacting_env : Env := sample_env big_then_done quiet_tools 10 3.

(** The second pass of the example starts with a nearly full context. *)
Definition compaction_start : World :=
  Eval vm_compute in
    send CompactionBegin
      (begin_step 2
         (snd (passes compacting_env sample_llm 1 1 started_world))).

Definition compaction_called : World :=
  Eval vm_compute in snd (_compact_with_retry compacting_env compaction_start).

(** ** Terminal outcomes of a run *)



(** The provider and the compaction call fail only with provider errors or
    by being cancelled. *)
Definition classified_failures (env : Env) : Prop :=
  (forall k h e, kosong_step env k h = Raise e ->
                 is_provider_or_cancel e = true)
  /\ (forall k h e, compaction_compact env k h = Raise e ->
                    is_provider_or_cancel e = true).









Definition run_end (env : Env) (fuel : nat) (user_input : string)
           (w : World) : World :=
  match run env fuel (Str user_input) w with
  | Some (_, w') => w'
  | None => w
  end.









(** ** Invariants of coroutines *)

(** Every run of [m], returning or raising, relates the world before to the
    world after by [R]. *)
Definition keeps {A : Type} (R : World -> World -> Prop) (m : M A) : Prop :=
  forall w r w', m w = (r, w') -> R w w'.

(** [m] raises only exceptions that satisfy [P]. *)
Definition raises_only {A : Type} (P : exn -> Prop) (m : M A) : Prop :=
  forall w e w', m w = (Raise e, w') -> P e.

(** The wire is only appended to. *)
Definition wire_grows (w w' : World) : Prop :=
  exists rest, wire w' = wire w ++ rest.

Definition not_max_steps (e : exn) : Prop :=
  forall n, e <> MaxStepsReached n.

Definition not_time_travel (e : exn) : Prop :=
  forall id msgs, e <> BackToTheFuture id msgs.

(** ** More sample sessions *)

(** A model that always asks for a shell command, with a step limit of 0. *)
Definition zero_limit_env : Env :=
  sample_env (fun _ => Ok bash_turn) quiet_tools 0 3.

Definition zero_limit_pass_end : World :=
  Eval vm_compute in snd (loop_body zero_limit_env sample_llm 1 started_world).

Definition zero_limit_run_end : World :=
  Eval vm_compute in
    match run zero_limit_env 5 (Str "go") fresh_world with
    | Some (_, w) => w
    | None => fresh_world
    end.

(** The model sends a D-Mail to checkpoint 0 in its first turn; the provider
    refuses every later call with status 401. *)
Definition dmail_then_401 (k : nat) : Result StepResult :=
  match k with
  | 0%nat => Ok dmail_turn
  | _ => Raise (APIStatusError 401 "Unauthorized")
  end.

Definition replaying_env : Env := sample_env dmail_then_401 dmail_tools 10 3.

Definition replaying_start : World :=
  set_context
    (Context.append_message [plain_message user "go"]
       (Context.checkpoint true Context.init)) fresh_world.

Definition replaying_caught : World :=
  Eval vm_compute in
    snd (try_block replaying_env sample_llm (begin_step 1 replaying_start)).

Definition replaying_end : World :=
  Eval vm_compute in run_end replaying_env 5 "go" fresh_world.

(** The wire is left as it is. *)
Definition same_wire (w w' : World) : Prop := wire w' = wire w.

(** The world after the checkpoint of a step, the mailbox told of the new
    checkpoint count. *)
Definition checkpointed (env : Env) (w : World) : World :=
  let c := Context.checkpoint (_checkpoint_with_user_message env) (context w) in
  set_denwa_renji
    (DenwaRenji.set_n_checkpoints (Context.n_checkpoints c) (denwa_renji w))
    (set_context c w).

(** An agent whose compaction call is refused with status 401. *)
Definition broken_compaction_env : Env :=
  {| llm := Some sample_llm;
     loop_control := {| max_steps_per_run := 10;
                        max_retries_per_step := 3 |};
     tool_names := ["Bash"; "SendDMail"];
     SendDMail_NAME := "SendDMail";
     kosong_step := fun _ _ => Ok final_answer;
     kosong_streamed := fun _ _ => [];
     compaction_compact :=
       fun _ _ => Raise (APIStatusError 401 "Unauthorized");
     toolset_handle := quiet_tools;
     as_tag_context := fun _ => None;
     message_id := positional_id;
     tools_streamed := fun _ => [];
     tools_cancelled := fun _ => false;
     sleep_cancelled := fun _ => false;
     shield_cancelled := fun _ => false;
     tool_result_to_messages := render_tool_result;
     str_strip := fun s => s |}.

(** A session whose context holds 170000 of 200000 tokens. *)
Definition nearly_full : World :=
  Eval vm_compute in snd (passes compacting_env sample_llm 1 1 started_world).

Definition broken_compaction_called : World :=
  Eval vm_compute in
    snd (_compact_with_retry broken_compaction_env
           (send CompactionBegin (begin_step 2 nearly_full))).

(** An agent whose provider is unreachable. *)
Definition unreachable_env : Env :=
  sample_env (fun _ => Raise (APIConnectionError "connection refused"))
             quiet_tools 10 2.

Definition unreachable_at_step : World :=
  Eval vm_compute in
    snd (before_step unreachable_env sample_llm (begin_step 1 started_world)).

Definition unreachable_failed : World :=
  Eval vm_compute in snd (_step unreachable_env unreachable_at_step).

(** ** The metadata log and the TagContext tool *)

(** The records of a store's log; none when the log does not exist. *)
Definition records (st : MetadataStore.t) : list LogRecord :=
  match log st with
  | Some l => l
  | None => []
  end.

(** The two contexts differ at most by tag records appended to the metadata
    log: history, checkpoints, token count and step counter are the same. *)
Definition only_tags (c c' : Context.t) : Prop :=
  Context.history c' = Context.history c
  /\ Context.checkpoints c' = Context.checkpoints c
  /\ Context.token_count c' = Context.token_count c
  /\ current_step (Context.meta c') = current_step (Context.meta c)
  /\ exists pins,
       records (Context.meta c')
       = records (Context.meta c) ++ map TagRec pins.








(** The rejection example with events streamed: the parts of the model's
    message during the provider call, an approval request and a tool result
    during the wait for the tools. *)
Definition streaming_env : Env :=
  with_streams
    (fun _ _ => [PartEvent (TextPart "going back"); ToolCallEvent dmail_call])
    (fun _ => [ApprovalRequest "call_bash" "run command";
               ToolResultEvent (mkToolResult "call_dmail" (ToolOk "sent"))])
    rejecting_env.



Definition streaming_done : World :=
  Eval vm_compute in snd (_step streaming_env rejected_at_step).

(** The pin record a TagContext call with parameters [params] writes for
    the message ids [ids] into store [st]. *)
Definition pin_of_params (params : TagContext.Params) (ids : list string)
           (st : MetadataStore.t) : PinRecord :=
  {| task_id := TagContext.p_task_id params;
     message_ids := ids;
     policy := TagContext.p_policy params;
     ttl_steps := TagContext.p_ttl_steps params;
     importance := TagContext.p_importance params;
     notes := TagContext.p_notes params;
     created_at_step := current_step st |}.

(** The message ids a TagContext call tags: the given ones, or else the
    recent assistant and tool messages. *)
Definition ids_to_tag (message_id : nat -> Message -> string)
           (params : TagContext.Params) (ctx : Context.t) : list string :=
  match TagContext.p_message_ids params with
  | Some ids => ids
  | None =>
      Context.get_recent_message_ids message_id 5 [assistant; tool] ctx
  end.

(** Seven messages, six of them from the assistant or a tool. *)
Definition long_history : Context.t :=
  Context.append_message
    [plain_message user "start";
     plain_message assistant "a1"; plain_message tool "t1";
     plain_message assistant "a2"; plain_message tool "t2";
     plain_message assistant "a3"; plain_message tool "t3"] Context.init.

Definition explicit_params : TagContext.Params :=
  {| TagContext.p_task_id := "task_abc123";
     TagContext.p_policy := pin_outcome;
     TagContext.p_message_ids := Some ["msg1"; "msg2"];
     TagContext.p_ttl_steps := 100;
     TagContext.p_importance := 4;
     TagContext.p_notes := Some "Test tag" |}.

(** ** The todo list *)

(** Whether a todo comes without an id. *)
Definition lacks_id (t : SetTodoList.Todo) : bool :=
  match SetTodoList.id t with
  | None => true
  | Some _ => false
  end.

(** A todo of the call's result agrees with the todo it comes from in all
    but the id, has an id, and kept the id it came with. *)
Definition same_todo_with_id (t t' : SetTodoList.Todo) : Prop :=
  SetTodoList.title t' = SetTodoList.title t
  /\ SetTodoList.status t' = SetTodoList.status t
  /\ SetTodoList.tags t' = SetTodoList.tags t
  /\ SetTodoList.related_task_ids t' = SetTodoList.related_task_ids t
  /\ SetTodoList.id t' <> None
  /\ (forall given, SetTodoList.id t = Some given ->
                    SetTodoList.id t' = Some given).

(** The ids of the result's todos whose originals had none, in order. *)
Definition generated_ids (todos todos' : list SetTodoList.Todo)
  : list (option string) :=
  map (fun p => SetTodoList.id (snd p))
      (filter (fun p => lacks_id (fst p)) (combine todos todos')).

Definition hex_of_draw (k : nat) : string :=
  match k with
  | 0%nat => "ab12cd34"
  | _ => "00ff00ff"
  end.

Definition three_todos : list SetTodoList.Todo :=
  [SetTodoList.mkTodo "write tests" SetTodoList.Pending None ["qa"] [];
   SetTodoList.mkTodo "fix bug" SetTodoList.InProgress (Some "todo_1")
                      [] ["task_abc"; "task_def"];
   SetTodoList.mkTodo "ship" SetTodoList.Done None [] []].

(** ** The step numbers a run announces *)

(** The step numbers of the [StepBegin] events of a piece of the wire. *)
Definition step_numbers (events : list WireMessage) : list Z :=
  flat_map (fun m => match m with
                     | StepBegin n => [n]
                     | _ => []
                     end) events.

(** The wire is appended to, but no [StepBegin] is sent. *)
Definition announces_nothing (w w' : World) : Prop :=
  exists rest, wire w' = wire w ++ rest /\ step_numbers rest = [].

(** Each number is the one before it or one more, starting after [prev]. *)
Fixpoint climbs (prev : Z) (l : list Z) : Prop :=
  match l with
  | [] => True
  | n :: l' => (n = prev \/ n = prev + 1) /\ climbs n l'
  end.

(* ================================================================== *)
(** * Properties *)


(* ------------------------------------------------------------------ *)
(** ** The metadata store: active pins *)

Section ActivePins.

Lemma insert_pin_perm p l : Permutation (insert_pin p l) (p :: l).
Proof.
  induction l as [|q l IH]; simpl.
  - apply Permutation_refl.
  - destruct (importance q <=? importance p).
    + apply Permutation_refl.
    + eapply perm_trans.
      * apply perm_skip, IH.
      * apply perm_swap.
Qed.

Lemma sort_pins_perm l : Permutation (sort_pins l) l.
Proof.
  induction l as [|p l IH]; simpl.
  - constructor.
  - eapply perm_trans; [apply insert_pin_perm|].
    now apply perm_skip.
Qed.

Lemma insert_pin_sorted p l :
  StronglySorted more_important l ->
  StronglySorted more_important (insert_pin p l).
Proof.
  induction 1 as [|q l Hs IH Hq]; simpl.
  - repeat constructor.
  - destruct (importance q <=? importance p) eqn:E.
    + apply Z.leb_le in E.
      constructor; [constructor; assumption|].
      constructor; [exact E|].
      rewrite Forall_forall in *. intros r Hr.
      specialize (Hq r Hr). unfold more_important in *. lia.
    + apply Z.leb_gt in E.
      constructor; [exact IH|].
      rewrite Forall_forall in *. intros r Hr.
      apply (Permutation_in _ (insert_pin_perm p l)) in Hr.
      destruct Hr as [<-|Hr].
      * unfold more_important. lia.
      * now apply Hq.
Qed.

Lemma sort_pins_sorted l : StronglySorted more_important (sort_pins l).
Proof.
  induction l as [|p l IH]; simpl.
  - constructor.
  - now apply insert_pin_sorted.
Qed.

Lemma insert_pin_stable k p l :
  of_importance k (insert_pin p l) = of_importance k (p :: l).
Proof.
  unfold of_importance.
  induction l as [|q l IH]; simpl; [reflexivity|].
  destruct (importance q <=? importance p) eqn:E; [reflexivity|].
  apply Z.leb_gt in E. simpl in *. rewrite IH.
  destruct (importance p =? k) eqn:Ep; [|reflexivity].
  apply Z.eqb_eq in Ep.
  destruct (importance q =? k) eqn:Eq; [|reflexivity].
  apply Z.eqb_eq in Eq. lia.
Qed.

Lemma sort_pins_stable k l :
  of_importance k (sort_pins l) = of_importance k l.
Proof.
  induction l as [|p l IH]; simpl; [reflexivity|].
  rewrite insert_pin_stable. unfold of_importance in *. simpl.
  now rewrite IH.
Qed.

Lemma in_tags p l : In p (tags l) <-> In (TagRec p) l.
Proof.
  induction l as [|r l IH]; simpl; [tauto|].
  destruct r; simpl; rewrite IH; split; intros H.
  - destruct H as [->|H]; auto.
  - destruct H as [H|H]; [injection H as ->|]; auto.
  - auto.
  - destruct H as [H|H]; [discriminate|auto].
  - auto.
  - destruct H as [H|H]; [discriminate|auto].
Qed.

Lemma active_iff s p : active s p = true <-> s < created_at_step p + ttl_steps p.
Proof. unfold active. apply Z.ltb_lt. Qed.

End ActivePins.

Example three_pins_order :
  map importance (list_active_pins (Some 0) three_pins) = [5; 3; 1].
Proof. reflexivity. Qed.

Example three_pins_at_step_50 :
  map task_id (list_active_pins (Some 50) three_pins) = ["task_1"; "task_3"].
Proof. reflexivity. Qed.

Example ties_keep_log_order :
  map task_id
      (list_active_pins None
         (tag "c" [] auto 9 4 None
            (tag "b" [] auto 9 5 None
               (tag "a" [] auto 9 4 None MetadataStore.init))))
  = ["b"; "a"; "c"].
Proof. reflexivity. Qed.

(** C8. [list_active_pins s] on a store whose log exists returns exactly the
    tag records of the log with [s < created_at_step + ttl_steps] (same
    records, same multiplicity), sorted by importance descending, records of
    equal importance in log order; on a store whose log does not exist it
    returns the empty list; the omitted step is the store's own counter.  A
    tag record with [ttl_steps >= 1] is listed at its creation step and at
    [created_at_step + ttl_steps - 1], and not at
    [created_at_step + ttl_steps]. *)
Theorem list_active_pins_spec (st : MetadataStore.t) :
  (forall s l, log st = Some l ->
     Permutation (list_active_pins (Some s) st) (filter (active s) (tags l))
     /\ (forall k, of_importance k (list_active_pins (Some s) st)
                   = of_importance k (filter (active s) (tags l))))
  /\ (forall s p, In p (list_active_pins (Some s) st) <->
        exists l, log st = Some l /\ In (TagRec p) l
                  /\ s < created_at_step p + ttl_steps p)
  /\ (forall s, StronglySorted more_important (list_active_pins (Some s) st))
  /\ (forall s, log st = None -> list_active_pins (Some s) st = [])
  /\ list_active_pins None st = list_active_pins (Some (current_step st)) st
  /\ (forall l p, log st = Some l -> In (TagRec p) l -> 1 <= ttl_steps p ->
        In p (list_active_pins (Some (created_at_step p)) st)
        /\ In p (list_active_pins
                   (Some (created_at_step p + ttl_steps p - 1)) st)
        /\ ~ In p (list_active_pins
                     (Some (created_at_step p + ttl_steps p)) st)).
Proof.
  assert (Hin : forall s p, In p (list_active_pins (Some s) st) <->
        exists l, log st = Some l /\ In (TagRec p) l
                  /\ s < created_at_step p + ttl_steps p).
  { intros s p. unfold list_active_pins. destruct (log st) as [l|].
    - split.
      + intros H. exists l. split; [reflexivity|].
        apply (Permutation_in _ (sort_pins_perm _)) in H.
        apply filter_In in H. destruct H as [H1 H2].
        now rewrite in_tags in H1; rewrite active_iff in H2.
      + intros (l' & E & H1 & H2). injection E as <-.
        apply (Permutation_in _ (Permutation_sym (sort_pins_perm _))).
        apply filter_In. now rewrite in_tags, active_iff.
    - split; [intros []|]. intros (l' & E & _). discriminate. }
  repeat split.
  - unfold list_active_pins. rewrite H. apply sort_pins_perm.
  - intros k. unfold list_active_pins. rewrite H. apply sort_pins_stable.
  - apply Hin.
  - apply Hin.
  - intros s. unfold list_active_pins. destruct (log st).
    + apply sort_pins_sorted.
    + constructor.
  - intros s H. unfold list_active_pins. now rewrite H.
  - apply Hin. exists l. repeat split; auto. lia.
  - apply Hin. exists l. repeat split; auto. lia.
  - intros H2. apply Hin in H2. destruct H2 as (_ & _ & _ & H2). lia.
Qed.

Lemma list_active_pins_spec_witness :
  Permutation (list_active_pins (Some 49) three_pins)
              (filter (active 49)
                      (tags [TagRec (mkPin "task_1" ["msg1"] pin_outcome 100 3 None 0);
                             TagRec (mkPin "task_2" ["msg2"] pin_process 50 5 None 0);
                             TagRec (mkPin "task_3" ["msg3"] pin_outcome 200 1 None 0)]))
  /\ In (mkPin "task_2" ["msg2"] pin_process 50 5 None 0)
        (list_active_pins (Some 49) three_pins)
  /\ ~ In (mkPin "task_2" ["msg2"] pin_process 50 5 None 0)
          (list_active_pins (Some 50) three_pins).
Proof.
  pose proof (list_active_pins_spec three_pins) as (H1 & _ & _ & _ & _ & H6).
  split.
  - apply (H1 49 _ eq_refl).
  - specialize (H6 _ (mkPin "task_2" ["msg2"] pin_process 50 5 None 0) eq_refl).
    simpl in H6. apply H6; [tauto | lia].
Defined.

(* ------------------------------------------------------------------ *)
(** ** The retry policy *)

Lemma streamed_by_S env w c :
  streamed_by env w (S c)
  = streamed_by env w c
    ++ map Stream (kosong_streamed env (n_step_calls w + c)%nat
                                   (Context.history (context w))).
Proof.
  unfold streamed_by. rewrite seq_S, flat_map_app. simpl.
  now rewrite app_nil_r.
Qed.

Lemma advance_0 env w : advance env 0 0 w = w.
Proof.
  destruct w; unfold advance, streamed_by; simpl.
  now rewrite !Nat.add_0_r, app_nil_r.
Qed.

Lemma advance_count_sleep env c s w :
  count_sleep (advance env c s w) = advance env c (S s) w.
Proof.
  unfold advance, count_sleep; simpl. now rewrite Nat.add_succ_r.
Qed.

Section RetryPolicy.

Variable env : Env.

Lemma retry_non_retryable A (body : M A) left w e w1 :
  body w = (Raise e, w1) -> _is_retryable_error e = false ->
  retry_attempts env left body w = (Raise e, w1).
Proof.
  intros Hb He. destruct left; simpl; now rewrite Hb, He.
Qed.

Lemma retry_success A (body : M A) left w a w1 :
  body w = (Ok a, w1) -> retry_attempts env left body w = (Ok a, w1).
Proof.
  intros Hb. destruct left; simpl; now rewrite Hb.
Qed.

Lemma retry_exhausted A (body : M A) w e w1 :
  body w = (Raise e, w1) -> retry_attempts env 0 body w = (Raise e, w1).
Proof.
  intros Hb. simpl. rewrite Hb. now destruct (_is_retryable_error e).
Qed.

(** The provider call made after [c] calls and [s] waits. *)
Lemma kosong_step_call_advance c s w :
  kosong_step_call env (advance env c s w)
  = (attempt_outcome env w c, advance env (S c) s w).
Proof.
  unfold kosong_step_call, attempt_outcome. f_equal.
  unfold advance, count_step_call, stream; simpl.
  rewrite streamed_by_S, <- app_assoc. f_equal. lia.
Qed.

(** The backoff wait made after [c] calls and [s] waits. *)
Lemma backoff_sleep_advance c s w :
  backoff_sleep env (advance env c s w)
  = (if sleep_cancelled env (n_sleeps w + s)%nat
     then Raise CancelledError else Ok tt,
     advance env c (S s) w).
Proof.
  unfold backoff_sleep. rewrite advance_count_sleep.
  change (n_sleeps (advance env c s w)) with (n_sleeps w + s)%nat.
  destruct (sleep_cancelled env (n_sleeps w + s)); reflexivity.
Qed.

(** After [k] retryable failures the decorator is at its attempt [k + 1],
    with [k] attempts fewer left. *)
Lemma retry_attempts_skip k : forall left w0 c s,
  (forall i, (i < k)%nat ->
     (exists e, attempt_outcome env w0 (c + i) = Raise e
                /\ _is_retryable_error e = true)
     /\ sleep_cancelled env (n_sleeps w0 + (s + i))%nat = false) ->
  retry_attempts env (k + left) (kosong_step_call env) (advance env c s w0)
  = retry_attempts env left (kosong_step_call env)
                   (advance env (c + k) (s + k) w0).
Proof.
  induction k as [|k IH]; intros left w0 c s H.
  - now rewrite !Nat.add_0_r.
  - destruct (H 0%nat) as [(e & He & Hr) Hs]; [lia|].
    rewrite !Nat.add_0_r in *.
    change (S k + left)%nat with (S (k + left)).
    cbn [retry_attempts]. rewrite kosong_step_call_advance, He, Hr.
    rewrite backoff_sleep_advance, Hs.
    rewrite IH.
    + f_equal. f_equal; lia.
    + intros i Hi.
      replace (S c + i)%nat with (c + S i)%nat by lia.
      replace (S s + i)%nat with (s + S i)%nat by lia.
      apply H. lia.
Qed.

Lemma retry_attempts_after k left w :
  retryable_failures env w k ->
  retry_attempts env (k + left) (kosong_step_call env) w
  = retry_attempts env left (kosong_step_call env) (advance env k k w).
Proof.
  intros H.
  rewrite <- (advance_0 env w) at 1.
  rewrite retry_attempts_skip; [reflexivity|].
  intros i Hi. apply (H i Hi).
Qed.

Lemma kosong_step_call_at k w :
  kosong_step_call env (advance env k k w)
  = (attempt_outcome env w k, advance env (S k) k w).
Proof. apply kosong_step_call_advance. Qed.

End RetryPolicy.

Example flaky_503_absorbed_with_4_attempts :
  _kosong_step_with_retry (sample_env flaky_503 quiet_tools 100 4) fresh_world
  = (Ok final_answer,
     advance (sample_env flaky_503 quiet_tools 100 4) 4 3 fresh_world).
Proof. reflexivity. Qed.

Example flaky_503_exhausts_3_attempts :
  _kosong_step_with_retry (sample_env flaky_503 quiet_tools 100 3) fresh_world
  = (Raise (APIStatusError 503 "Service Unavailable"),
     advance (sample_env flaky_503 quiet_tools 100 3) 3 2 fresh_world).
Proof. reflexivity. Qed.

Example unauthorized_fails_at_once :
  _kosong_step_with_retry (sample_env unauthorized quiet_tools 100 4)
                          fresh_world
  = (Raise (APIStatusError 401 "Unauthorized"),
     advance (sample_env unauthorized quiet_tools 100 4) 1 0 fresh_world).
Proof. reflexivity. Qed.

(** C4. An exception is retryable exactly when it is a connection failure,
    a timeout, or a status error whose status is 429, 500, 502 or 503.  A
    provider call that fails with status 401 is not retried: the wrapped
    step raises that error after the one call, without any backoff wait. *)
Theorem is_retryable_error_spec (e : exn) :
  (_is_retryable_error e = true <->
     (exists m, e = APIConnectionError m)
     \/ (exists m, e = APITimeoutError m)
     \/ (exists c m, e = APIStatusError c m
                     /\ (c = 429 \/ c = 500 \/ c = 502 \/ c = 503)))
  /\ (forall env w m,
        attempt_outcome env w 0 = Raise (APIStatusError 401 m) ->
        _kosong_step_with_retry env w
        = (Raise (APIStatusError 401 m), advance env 1 0 w)).
Proof.
  split.
  - split.
    + destruct e as [m|m|c m| | | | | | |]; simpl; try discriminate.
      * intros _. left. now exists m.
      * intros _. right. left. now exists m.
      * intros H. right. right. exists c, m. split; [reflexivity|].
        rewrite !orb_true_iff, !Z.eqb_eq in H.
        destruct H as [H|[H|[H|[H|H]]]]; try discriminate; lia.
    + intros [(m & ->)|[(m & ->)|(c & m & -> & H)]]; simpl; try reflexivity.
      destruct H as [->|[->|[->| ->]]]; reflexivity.
  - intros env w m H.
    unfold _kosong_step_with_retry, tenacity_retry.
    apply retry_non_retryable; [|reflexivity].
    rewrite <- (advance_0 env w) at 1. rewrite kosong_step_call_at.
    now rewrite H.
Qed.

Lemma is_retryable_error_spec_witness :
  _kosong_step_with_retry (sample_env unauthorized quiet_tools 100 4)
                          fresh_world
  = (Raise (APIStatusError 401 "Unauthorized"),
     advance (sample_env unauthorized quiet_tools 100 4) 1 0 fresh_world).
Proof.
  apply (proj2 (is_retryable_error_spec CancelledError)
               (sample_env unauthorized quiet_tools 100 4) fresh_world).
  reflexivity.
Defined.

(** C5. Let the first [k] attempts of the wrapped provider step fail with
    retryable errors, [k] being smaller than the attempt bound, and let no
    backoff wait be cancelled.  If attempt [k + 1] succeeds, its result is
    returned and none of the errors propagates.  If it fails with an error
    that is not retryable, that very error is raised.  If it is the last
    attempt allowed and fails, that very error is raised, retryable or not.
    In each case exactly [k + 1] calls and [k] waits were made, and with a
    bound of at least 1 that is never more than the bound. *)
Theorem retry_policy_spec (env : Env) (w : World) (k : nat) :
  retryable_failures env w k ->
  (k <= Z.to_nat (max_retries_per_step (loop_control env) - 1))%nat ->
  (forall r, attempt_outcome env w k = Ok r ->
     _kosong_step_with_retry env w = (Ok r, advance env (S k) k w))
  /\ (forall e, attempt_outcome env w k = Raise e ->
        _is_retryable_error e = false ->
        _kosong_step_with_retry env w = (Raise e, advance env (S k) k w))
  /\ (forall e, attempt_outcome env w k = Raise e ->
        k = Z.to_nat (max_retries_per_step (loop_control env) - 1) ->
        _kosong_step_with_retry env w = (Raise e, advance env (S k) k w))
  /\ (1 <= max_retries_per_step (loop_control env) ->
      Z.of_nat (S k) <= max_retries_per_step (loop_control env)).
Proof.
  intros Hfail Hk.
  unfold _kosong_step_with_retry, tenacity_retry.
  set (left := Z.to_nat (max_retries_per_step (loop_control env) - 1)) in *.
  assert (E : retry_attempts env left (kosong_step_call env) w
              = retry_attempts env (left - k) (kosong_step_call env)
                               (advance env k k w)).
  { rewrite <- (retry_attempts_after env k (left - k) w Hfail). f_equal. lia. }
  repeat split.
  - intros r Hr. rewrite E. apply retry_success.
    now rewrite kosong_step_call_at, Hr.
  - intros e He Hn. rewrite E. apply retry_non_retryable; [|exact Hn].
    now rewrite kosong_step_call_at, He.
  - intros e He Hlast. rewrite E.
    replace (left - k)%nat with 0%nat by lia.
    apply retry_exhausted.
    now rewrite kosong_step_call_at, He.
  - intros H. subst left. lia.
Qed.

Lemma retry_policy_spec_witness :
  _kosong_step_with_retry (sample_env flaky_503 quiet_tools 100 4) fresh_world
  = (Ok final_answer,
     advance (sample_env flaky_503 quiet_tools 100 4) 4 3 fresh_world).
Proof.
  refine (proj1 (@retry_policy_spec
                   (sample_env flaky_503 quiet_tools 100 4) fresh_world 3
                   _ _) final_answer eq_refl).
  - intros i Hi. split.
    + exists (APIStatusError 503 "Service Unavailable").
      destruct i as [|[|[|i]]]; [split; reflexivity ..| lia].
    + reflexivity.
  - vm_compute. lia.
Defined.

(* ------------------------------------------------------------------ *)
(** ** Invariants carried through the monad *)

Section Keeps.

Variable R : World -> World -> Prop.
Hypothesis R_refl : forall w, R w w.
Hypothesis R_trans : forall w1 w2 w3, R w1 w2 -> R w2 w3 -> R w1 w3.

Lemma keeps_ret A (a : A) : keeps R (ret a).
Proof. intros w r w' H. injection H as _ <-. apply R_refl. Qed.

Lemma keeps_raise A (e : exn) : keeps R (@raise A e).
Proof. intros w r w' H. injection H as _ <-. apply R_refl. Qed.

Lemma keeps_bind A B (m : M A) (f : A -> M B) :
  keeps R m -> (forall a, keeps R (f a)) -> keeps R (bind m f).
Proof.
  intros Hm Hf w r w' H. unfold bind in H.
  destruct (m w) as [[a|e] w1] eqn:E.
  - eapply R_trans; [eapply Hm, E | eapply Hf, H].
  - injection H as _ <-. eapply Hm, E.
Qed.

Lemma keeps_lift (f : World -> World) :
  (forall w, R w (f w)) -> keeps R (lift f).
Proof. intros Hf w r w' H. injection H as _ <-. apply Hf. Qed.

Lemma keeps_py_assert b msg : keeps R (py_assert b msg).
Proof. destruct b; [apply keeps_ret | apply keeps_raise]. Qed.

Lemma keeps_get_context : keeps R get_context.
Proof. intros w r w' H. injection H as _ <-. apply R_refl. Qed.

Lemma keeps_for_each A (l : list A) (body : A -> M unit) :
  (forall a, keeps R (body a)) -> keeps R (for_each l body).
Proof.
  intros Hb. induction l as [|x l IH]; simpl.
  - apply keeps_ret.
  - apply keeps_bind; [apply Hb | intros _; exact IH].
Qed.

Lemma keeps_retry env A (body : M A) left :
  keeps R body -> (forall w, R w (count_sleep w)) ->
  keeps R (retry_attempts env left body).
Proof.
  intros Hb Hs. induction left as [|left IH]; intros w r w' H; simpl in H.
  - destruct (body w) as [[a|e] w1] eqn:E.
    + injection H as _ <-. eapply Hb, E.
    + destruct (_is_retryable_error e); injection H as _ <-; eapply Hb, E.
  - destruct (body w) as [[a|e] w1] eqn:E.
    + injection H as _ <-. eapply Hb, E.
    + apply Hb in E. destruct (_is_retryable_error e).
      * unfold backoff_sleep in H.
        destruct (sleep_cancelled env (n_sleeps w1)).
        -- injection H as _ <-. eapply R_trans; [exact E | apply Hs].
        -- apply IH in H.
           eapply R_trans; [exact E|]. eapply R_trans; [apply Hs | exact H].
      * injection H as _ <-. exact E.
Qed.

Lemma keeps_shield env A (m : M A) : keeps R m -> keeps R (shield env m).
Proof.
  intros Hm w r w' H. unfold shield in H.
  destruct (m w) as [[a|e] w1] eqn:E;
    [destruct (shield_cancelled env (n_tool_rounds w))|];
    injection H as _ <-; eapply Hm, E.
Qed.

End Keeps.

(* ------------------------------------------------------------------ *)
(** ** Growing the context *)

Lemma set_context_same w : set_context (context w) w = w.
Proof. now destruct w. Qed.

Lemma set_context_twice c c' w :
  set_context c (set_context c' w) = set_context c w.
Proof. reflexivity. Qed.

Lemma for_each_append env results : forall w,
  for_each results
    (fun tool_result =>
       append_message (tool_result_to_messages env tool_result)) w
  = (Ok tt,
     set_context
       (Context.append_message
          (flat_map (tool_result_to_messages env) results) (context w)) w).
Proof.
  induction results as [|tr results IH]; intros w; simpl.
  - unfold ret, Context.append_message. rewrite app_nil_r.
    f_equal. destruct w as [[] ? ? ? ? ? ? ?]; reflexivity.
  - unfold bind, append_message, lift. rewrite IH.
    f_equal. unfold set_context, Context.append_message; simpl.
    now rewrite <- app_assoc.
Qed.

Lemma grow_context_eq env res results w :
  _grow_context env res results w
  = (Ok tt, set_context (grown_context env res results (context w)) w).
Proof.
  unfold _grow_context, bind, grown_context.
  unfold append_message at 1. unfold lift at 1.
  destruct (usage res) as [u|];
    [unfold update_token_count, lift | unfold ret at 1];
    rewrite for_each_append; f_equal;
    unfold set_context, grown_context, Context.append_message,
      Context.update_token_count; simpl;
    now rewrite <- app_assoc.
Qed.

Lemma records_tag task ids pol ttl imp nts st :
  records (tag task ids pol ttl imp nts st)
  = records st
    ++ [TagRec (mkPin task ids pol ttl imp nts (current_step st))].
Proof. unfold tag, append_record, records. destruct (log st); reflexivity. Qed.

Lemma only_tags_refl c : only_tags c c.
Proof. repeat split. exists []. simpl. now rewrite app_nil_r. Qed.

Lemma only_tags_trans c1 c2 c3 :
  only_tags c1 c2 -> only_tags c2 c3 -> only_tags c1 c3.
Proof.
  intros (Hh & Hk & Ht & Hs & p1 & Hp1) (Hh' & Hk' & Ht' & Hs' & p2 & Hp2).
  repeat split; try congruence.
  exists (p1 ++ p2). now rewrite Hp2, Hp1, map_app, app_assoc.
Qed.

(** A TagContext call on a context leaves all of it alone but the metadata
    log, to which it appends at most one tag record. *)
Lemma tag_context_call_only_tags message_id params c :
  exists ret_value c',
    TagContext.call message_id params (Some c) = (ret_value, Some c')
    /\ only_tags c c'.
Proof.
  unfold TagContext.call.
  assert (Htag : forall ids,
             only_tags c
               (Context.set_meta
                  (tag (TagContext.p_task_id params) ids
                       (TagContext.p_policy params)
                       (TagContext.p_ttl_steps params)
                       (TagContext.p_importance params)
                       (TagContext.p_notes params) (Context.meta c)) c)).
  { intros ids. repeat split. eexists [_].
    cbn [Context.meta Context.set_meta map]. apply records_tag. }
  destruct (TagContext.p_message_ids params) as [ids|].
  - eexists _, _. split; [reflexivity | apply Htag].
  - destruct (Context.get_recent_message_ids _ _ _ _) as [|i ids].
    + eexists _, _. split; [reflexivity | apply only_tags_refl].
    + eexists _, _. split; [reflexivity | apply Htag].
Qed.

Section Tools.

Variable env : Env.

Lemma handle_tool_call_only_tags round tc r c :
  only_tags c (snd (handle_tool_call env round tc r c)).
Proof.
  unfold handle_tool_call.
  destruct (as_tag_context env tc) as [params|].
  - destruct (tag_context_call_only_tags (message_id env) params c)
      as (v & c' & E & H).
    rewrite E. exact H.
  - destruct (toolset_handle env round tc). apply only_tags_refl.
Qed.

Lemma run_tools_only_tags round calls : forall r c,
  only_tags c (snd (run_tools env round calls r c)).
Proof.
  induction calls as [|tc calls IH]; intros r c; simpl.
  - apply only_tags_refl.
  - pose proof (handle_tool_call_only_tags round tc r c) as H1.
    destruct (handle_tool_call env round tc r c) as [[v r1] c1].
    specialize (IH r1 c1).
    destruct (run_tools env round calls r1 c1) as [[rs r2] c2].
    simpl in *. eapply only_tags_trans; eauto.
Qed.

Lemma run_tools_ids round calls : forall r c,
  map tr_tool_call_id (fst (fst (run_tools env round calls r c)))
  = map tc_id calls.
Proof.
  induction calls as [|tc calls IH]; intros r c; simpl; [reflexivity|].
  destruct (handle_tool_call env round tc r c) as [[v r1] c1].
  specialize (IH r1 c1).
  destruct (run_tools env round calls r1 c1) as [[rs r2] c2]. simpl in *.
  now rewrite IH.
Qed.

(** What the wait for the tool results does to the world. *)
Lemma tool_results_effects res w r w1 :
  tool_results env res w = (r, w1) ->
  only_tags (context w) (context w1)
  /\ wire w1 = wire w ++ map Stream (tools_streamed env (n_tool_rounds w))
  /\ approval_task w1 = approval_task w
  /\ denwa_renji w1
     = snd (fst (run_tools env (n_tool_rounds w) (tool_calls res)
                           (denwa_renji w) (context w)))
  /\ n_tool_rounds w1 = S (n_tool_rounds w)
  /\ n_step_calls w1 = n_step_calls w
  /\ (forall results, r = Ok results ->
        map tr_tool_call_id results = map tc_id (tool_calls res))
  /\ (forall e, r = Raise e -> e = CancelledError).
Proof.
  unfold tool_results.
  pose proof (run_tools_only_tags (n_tool_rounds w) (tool_calls res)
                                  (denwa_renji w) (context w)) as Hc.
  pose proof (run_tools_ids (n_tool_rounds w) (tool_calls res)
                            (denwa_renji w) (context w)) as Hids.
  destruct (run_tools env (n_tool_rounds w) (tool_calls res)
                      (denwa_renji w) (context w)) as [[rs d] c].
  simpl in Hc, Hids.
  destruct (tools_cancelled env (n_tool_rounds w)); intros H;
    injection H as <- <-; repeat split; try apply Hc;
    try (intros ? E; congruence).
Qed.

End Tools.

(** C7. When the tool results of a step are in, [_grow_context] succeeds and
    leaves the history extended by the model's message first and then the
    messages of the tool results, result by result; the results are those of
    the tool calls, in the order the calls were issued.  Checkpoints are not
    touched. *)
Theorem grow_context_order (env : Env) (res : StepResult)
        (results : list ToolResult) (w w1 : World) :
  tool_results env res w = (Ok results, w1) ->
  map tr_tool_call_id results = map tc_id (tool_calls res)
  /\ exists w2,
       _grow_context env res results w1 = (Ok tt, w2)
       /\ Context.history (context w2)
          = Context.history (context w1)
            ++ [message res]
            ++ flat_map (tool_result_to_messages env) results
       /\ Context.checkpoints (context w2) = Context.checkpoints (context w1).
Proof.
  intros H. split.
  - destruct (tool_results_effects env _ _ _ _ H)
      as (_ & _ & _ & _ & _ & _ & Hids & _).
    now apply Hids.
  - eexists. split; [apply grow_context_eq|]. split; reflexivity.
Qed.

Lemma grow_context_order_witness :
  map tr_tool_call_id
      [mkToolResult "call_1" (ToolOk "call_1");
       mkToolResult "call_2" (ToolOk "call_2")]
  = ["call_1"; "call_2"]
  /\ exists w2,
       _grow_context (sample_env (fun _ => Ok two_calls) echo_tools 100 3)
                     two_calls
                     [mkToolResult "call_1" (ToolOk "call_1");
                      mkToolResult "call_2" (ToolOk "call_2")]
                     (count_tool_round fresh_world) = (Ok tt, w2)
       /\ Context.history (context w2)
          = [plain_message assistant "let me look";
             mkMessage tool (Str "call_1") (Some "call_1");
             mkMessage tool (Str "call_2") (Some "call_2")]
       /\ Context.checkpoints (context w2) = [].
Proof.
  exact (@grow_context_order
           (sample_env (fun _ => Ok two_calls) echo_tools 100 3)
           two_calls _ fresh_world _ eq_refl).
Defined.

(* ------------------------------------------------------------------ *)
(** ** TagContext with nothing to infer from *)

Lemma lastn_nil A n (l : list A) :
  (0 < n)%nat -> Context.lastn n l = [] -> l = [].
Proof.
  unfold Context.lastn. intros Hn H.
  destruct l as [|x l]; [reflexivity|].
  assert (Hlen : List.length (skipn (List.length (x :: l) - n) (x :: l))
                 = 0%nat) by now rewrite H.
  rewrite length_skipn in Hlen.
  assert (Hpos : (0 < List.length (x :: l))%nat) by (simpl; lia).
  lia.
Qed.

Lemma filter_nil_iff A (f : A -> bool) l :
  filter f l = [] <-> forall x, In x l -> f x = false.
Proof.
  induction l as [|y l IH]; simpl.
  - split; [intros _ x []|reflexivity].
  - destruct (f y) eqn:E.
    + split; [discriminate|]. intros H. specialize (H y (or_introl eq_refl)).
      congruence.
    + rewrite IH. split.
      * intros H x [<-|Hx]; auto.
      * intros H x Hx. apply H. now right.
Qed.

Lemma in_combine_seq A (l : list A) x : forall start,
  In x l -> exists i, In (i, x) (combine (seq start (List.length l)) l).
Proof.
  induction l as [|y l IH]; intros start; simpl; [intros []|].
  intros [->|H].
  - exists start. now left.
  - destruct (IH (S start) H) as [i Hi]. exists i. now right.
Qed.

(** No identifier is found exactly when no message of the history has one
    of the wanted roles. *)
Lemma get_recent_message_ids_nil message_id n roles c :
  (0 < n)%nat ->
  (Context.get_recent_message_ids message_id n roles c = [] <->
   forall m, In m (Context.history c) ->
             existsb (Role_eqb (role m)) roles = false).
Proof.
  intros Hn. unfold Context.get_recent_message_ids. split.
  - intros H m Hm. apply map_eq_nil in H.
    apply lastn_nil in H; [|exact Hn].
    rewrite filter_nil_iff in H.
    destruct (@in_combine_seq _ _ _ 0%nat Hm) as [i Hi].
    apply (H (i, m) Hi).
  - intros H.
    replace (filter _ _) with (@nil (nat * Message)); [reflexivity|].
    symmetry. apply filter_nil_iff. intros [i m] Hi. simpl.
    apply H. eapply in_combine_r. exact Hi.
Qed.

Example tag_context_infers_ids :
  let '(r, c) := TagContext.call positional_id (tag_defaults "task_xyz789")
                                 (Some three_messages) in
  r = ToolOk
        ("Tagged 2 message(s) for task_id=task_xyz789" ++ newline
         ++ "- Policy: outcome retention (concise results)" ++ newline
         ++ "- Importance: 3/5" ++ newline ++ "- TTL: 100 steps")%string
  /\ option_map (fun c => map message_ids
                            (list_active_pins (Some 0) (Context.meta c))) c
     = Some [["msg_1"; "msg_2"]].
Proof. split; reflexivity. Qed.

Example tag_context_without_context :
  TagContext.call positional_id (tag_defaults "t") None
  = (ToolError
       "Context not available. This tool must be run within an active soul session."
       "Context not available", None).
Proof. reflexivity. Qed.

(** C10. When TagContext runs in a context whose history has no assistant
    and no tool message, and [message_ids] is omitted, the call returns
    [ToolOk] with the request to give [message_ids] explicitly, and leaves
    the context, hence the log of its metadata store, as it was: no pin
    record is appended. *)
Theorem tag_context_nothing_to_infer
        (message_id : nat -> Message -> string)
        (params : TagContext.Params) (ctx : Context.t) :
  TagContext.p_message_ids params = None ->
  (forall m, In m (Context.history ctx) ->
             role m <> assistant /\ role m <> tool) ->
  TagContext.call message_id params (Some ctx)
  = (ToolOk (TagContext.no_recent_output params), Some ctx)
  /\ forall ctx',
       snd (TagContext.call message_id params (Some ctx)) = Some ctx' ->
       log (Context.meta ctx') = log (Context.meta ctx).
Proof.
  intros Hids Hroles.
  assert (E : TagContext.call message_id params (Some ctx)
              = (ToolOk (TagContext.no_recent_output params), Some ctx)).
  { unfold TagContext.call. rewrite Hids.
    replace (Context.get_recent_message_ids message_id 5 [assistant; tool] ctx)
      with (@nil string); [reflexivity|].
    symmetry. apply get_recent_message_ids_nil; [lia|].
    intros m Hm. destruct (Hroles m Hm) as [Ha Ht].
    simpl. destruct (role m); try reflexivity; congruence. }
  split; [exact E|].
  intros ctx' H. rewrite E in H. simpl in H. now injection H as <-.
Qed.

Lemma tag_context_nothing_to_infer_witness :
  TagContext.call positional_id (tag_defaults "task_empty")
                  (Some Context.init)
  = (ToolOk
       "No recent messages found to tag for task_id=task_empty. Please specify message_ids explicitly.",
     Some Context.init).
Proof.
  refine (proj1 (@tag_context_nothing_to_infer
                   positional_id (tag_defaults "task_empty") Context.init
                   eq_refl _)).
  intros m [].
Defined.

(* ------------------------------------------------------------------ *)
(** ** One step of the loop *)

Lemma bind_assoc A B C (m : M A) (f : A -> M B) (g : B -> M C) w :
  bind (bind m f) g w = bind m (fun a => bind (f a) g) w.
Proof.
  unfold bind. destruct (m w) as [[a|e] w']; reflexivity.
Qed.

Lemma try_block_eq env l w :
  try_block env l w = bind (before_step env l) (fun _ => _step env) w.
Proof.
  unfold try_block, before_step, bind, get_context, _checkpoint, lift.
  destruct (Context.token_count (context w) + _reserved_tokens
            >=? max_context_size l).
  - destruct (wire_send CompactionBegin w) as [[[]|e] w1]; [|reflexivity].
    destruct (compact_context env w1) as [[[]|e] w2]; [|reflexivity].
    destruct (wire_send CompactionEnd w2) as [[[]|e] w3]; reflexivity.
  - reflexivity.
Qed.

(** The part of [_step] between the provider's answer and the tools. *)
Lemma usage_eq env l res w :
  llm env = Some l ->
  (match usage res with
   | Some u =>
       update_token_count (input u) ;;
       c <- get_context ;;
       wire_send
         (StatusUpdate (Context.token_count c)
            (match llm env with
             | Some l => max_context_size l
             | None => 0
             end))
   | None => ret tt
   end) w = (Ok tt, after_usage env res w).
Proof.
  intros Hl. unfold after_usage. rewrite Hl.
  destruct (usage res); reflexivity.
Qed.

(** [_step] once the provider has answered and the tools have run: the
    context is grown; then the step is cancelled, if the run was cancelled
    meanwhile, and otherwise looks at the rejections and at the mailbox. *)
Lemma step_eq env l res results w w1 w3 :
  llm env = Some l ->
  _kosong_step_with_retry env w = (Ok res, w1) ->
  tool_results env res (after_usage env res w1) = (Ok results, w3) ->
  _step env w =
    let w4 := grown env res results w3 in
    if shield_cancelled env (n_tool_rounds w3)
    then (Raise CancelledError, w4)
    else if existsb is_rejected results then (Ok true, clear_dmail w4)
    else
      match DenwaRenji.pending_dmail (denwa_renji w3) with
      | Some d =>
          if dmail_checkpoint_id d >=? 0 then
            if dmail_checkpoint_id d <? Context.n_checkpoints (context w3)
            then (Raise (BackToTheFuture (dmail_checkpoint_id d)
                                         (dmail_messages env d)),
                  clear_dmail w4)
            else (Raise (AssertionError
                           "DenwaRenji guarantees checkpoint_id < n_checkpoints"),
                  clear_dmail w4)
          else (Raise (AssertionError
                         "DenwaRenji guarantees checkpoint_id >= 0"),
                clear_dmail w4)
      | None =>
          (Ok (match tool_calls res with [] => true | _ :: _ => false end),
           clear_dmail w4)
      end.
Proof.
  intros Hl Hs Ht. unfold _step.
  pose proof (usage_eq env l res w1 Hl) as Hu.
  rewrite Hl in *.
  unfold bind at 1. unfold py_assert at 1. unfold ret at 1.
  unfold bind at 1. rewrite Hs.
  unfold bind at 1. rewrite Hu. unfold bind at 1. rewrite Ht.
  unfold bind at 1. unfold shield. rewrite grow_context_eq.
  fold (grown env res results w3). cbv zeta.
  destruct (shield_cancelled env (n_tool_rounds w3)); [reflexivity|].
  destruct (existsb is_rejected results); [reflexivity|].
  unfold bind at 1. unfold fetch_pending_dmail at 1. simpl.
  destruct (DenwaRenji.pending_dmail (denwa_renji w3)) as [d|];
    [|reflexivity].
  unfold bind, py_assert, get_context, raise, ret.
  destruct (dmail_checkpoint_id d >=? 0); [|reflexivity].
  simpl. destruct (dmail_checkpoint_id d <? _); reflexivity.
Qed.

Lemma only_counters_refl w : only_counters w w.
Proof. repeat split. Qed.

Lemma only_counters_trans w w1 w2 :
  only_counters w w1 -> only_counters w1 w2 -> only_counters w w2.
Proof.
  unfold only_counters. intros (? & ? & ? & ? & ?) (? & ? & ? & ? & ?).
  repeat split; congruence.
Qed.

Lemma only_streams_refl w : only_streams w w.
Proof.
  repeat split. exists []. simpl. now rewrite app_nil_r.
Qed.

Lemma only_streams_trans w w1 w2 :
  only_streams w w1 -> only_streams w1 w2 -> only_streams w w2.
Proof.
  unfold only_streams.
  intros (? & ? & (e1 & Hw1) & ? & ?) (? & ? & (e2 & Hw2) & ? & ?).
  repeat split; try congruence.
  exists (e1 ++ e2). now rewrite Hw2, Hw1, map_app, app_assoc.
Qed.

Section Quiet.

Variable env : Env.

Lemma kosong_retry_only_streams w r w1 :
  _kosong_step_with_retry env w = (r, w1) -> only_streams w w1.
Proof.
  revert w r w1.
  change (keeps only_streams (_kosong_step_with_retry env)).
  unfold _kosong_step_with_retry, tenacity_retry.
  apply (keeps_retry _ only_streams_trans).
  - intros w r w1 H. unfold kosong_step_call in H. injection H as _ <-.
    repeat split. eexists. reflexivity.
  - intros w. repeat split. exists []. simpl. now rewrite app_nil_r.
Qed.

Lemma compact_retry_only_counters w r w1 :
  _compact_with_retry env w = (r, w1) -> only_counters w w1.
Proof.
  revert w r w1.
  change (keeps only_counters (_compact_with_retry env)).
  unfold _compact_with_retry, tenacity_retry.
  apply (keeps_retry _ only_counters_trans).
  - intros w r w1 H. unfold compact_call in H.
    destruct (llm env); injection H as _ <-; repeat split.
  - intros w. repeat split.
Qed.

Lemma after_usage_context res w :
  Context.history (context (after_usage env res w))
  = Context.history (context w)
  /\ Context.checkpoints (context (after_usage env res w))
     = Context.checkpoints (context w)
  /\ Context.meta (context (after_usage env res w))
     = Context.meta (context w)
  /\ denwa_renji (after_usage env res w) = denwa_renji w.
Proof.
  unfold after_usage. destruct (usage res); repeat split.
Qed.

(** Up to the growth of the context a step leaves history and checkpoints
    alone. *)
Lemma step_context_before_growth res r w w1 w3 :
  _kosong_step_with_retry env w = (Ok res, w1) ->
  tool_results env res (after_usage env res w1) = (r, w3) ->
  Context.history (context w3) = Context.history (context w)
  /\ Context.checkpoints (context w3) = Context.checkpoints (context w).
Proof.
  intros Hs Ht.
  apply kosong_retry_only_streams in Hs. destruct Hs as (Hc & _).
  apply tool_results_effects in Ht. destruct Ht as ((Hh3 & Hk3 & _) & _).
  destruct (after_usage_context res w1) as (Hh & Hk & _).
  rewrite Hh3, Hk3, Hh, Hk, Hc. split; reflexivity.
Qed.

(** The loop body once the part of the [try] block before [_step] has
    succeeded. *)
Lemma loop_body_eq l step_no w ws :
  before_step env l (begin_step step_no w) = (Ok tt, ws) ->
  loop_body env l step_no w =
    match _step env ws with
    | (Raise (BackToTheFuture checkpoint_id msgs), w1) =>
        match back_to_the_future env checkpoint_id msgs w1 with
        | (Ok _, w2) => (Continue step_no, set_approval_task false w2)
        | (Raise e, w2) => (Raised e, set_approval_task false w2)
        end
    | (Raise e, w1) =>
        if is_provider_or_cancel e
        then (Raised e, set_approval_task false (send StepInterrupted w1))
        else (Raised e, set_approval_task false w1)
    | (Ok finished, w1) =>
        let w2 := set_approval_task false w1 in
        if finished then (Return_, w2)
        else
          if step_no + 1 >? max_steps_per_run (loop_control env)
          then (Raised (MaxStepsReached
                          (max_steps_per_run (loop_control env))), w2)
          else (Continue (step_no + 1), w2)
    end.
Proof.
  intros H. unfold loop_body. fold (begin_step step_no w).
  rewrite try_block_eq. unfold bind. rewrite H. reflexivity.
Qed.

End Quiet.

(* ------------------------------------------------------------------ *)
(** ** The rejection short-circuit *)

Example rejection_drops_the_dmail :
  let '(c, w) := loop_body rejecting_env sample_llm 1 started_world in
  c = Return_
  /\ DenwaRenji.pending_dmail (denwa_renji w) = None
  /\ Context.n_checkpoints (context w) = 2
  /\ List.length (Context.history (context w)) = 6%nat.
Proof. repeat split. Qed.

(** C6. If some tool result of a step is a user rejection (the run not being
    cancelled while the results are awaited and the context grows), [_step]
    empties the mailbox and returns [True], whatever was pending; the loop
    body returns, so the run ends as finished at this step.  No checkpoint
    is removed or added after the step's own: the context is the one of the
    step's start grown by the step's messages, and no further provider call
    or tool round is made. *)
Theorem rejection_ends_run (env : Env) (l : LLM) (step_no : Z)
        (w ws w1 w3 : World) (res : StepResult) (results : list ToolResult) :
  llm env = Some l ->
  before_step env l (begin_step step_no w) = (Ok tt, ws) ->
  _kosong_step_with_retry env ws = (Ok res, w1) ->
  tool_results env res (after_usage env res w1) = (Ok results, w3) ->
  shield_cancelled env (n_tool_rounds w3) = false ->
  existsb is_rejected results = true ->
  let w' := set_approval_task false (clear_dmail (grown env res results w3)) in
  _step env ws = (Ok true, clear_dmail (grown env res results w3))
  /\ loop_body env l step_no w = (Return_, w')
  /\ (forall fuel, while_true env (S fuel) l step_no w = Some (Ok tt, w'))
  /\ DenwaRenji.pending_dmail (denwa_renji w') = None
  /\ Context.checkpoints (context w') = Context.checkpoints (context ws)
  /\ Context.history (context w')
     = Context.history (context ws)
       ++ message res :: flat_map (tool_result_to_messages env) results
  /\ n_step_calls w' = n_step_calls w1
  /\ n_tool_rounds w' = n_tool_rounds w3.
Proof.
  intros Hl Hb Hs Ht Hsh Hrej w'.
  assert (Hstep : _step env ws
                  = (Ok true, clear_dmail (grown env res results w3))).
  { rewrite (step_eq _ _ _ _ _ _ _ Hl Hs Ht). cbv zeta.
    now rewrite Hsh, Hrej. }
  assert (Hbody : loop_body env l step_no w = (Return_, w')).
  { rewrite (loop_body_eq _ _ _ _ _ Hb), Hstep. reflexivity. }
  destruct (step_context_before_growth _ _ _ _ _ _ Hs Ht) as [Hh Hk].
  repeat split.
  - exact Hstep.
  - exact Hbody.
  - intros fuel. simpl. now rewrite Hbody.
  - simpl. exact Hk.
  - simpl. now rewrite Hh.
  - destruct (tool_results_effects _ _ _ _ _ Ht)
      as (_ & _ & _ & _ & _ & Hn & _).
    simpl. rewrite Hn. unfold after_usage. destruct (usage res); reflexivity.
Qed.

Lemma rejection_ends_run_witness :
  exists w',
    loop_body rejecting_env sample_llm 1 started_world = (Return_, w')
    /\ DenwaRenji.pending_dmail (denwa_renji w') = None.
Proof.
  pose proof (@rejection_ends_run rejecting_env sample_llm 1 started_world
                _ _ _ _ _ eq_refl eq_refl eq_refl eq_refl eq_refl eq_refl)
    as H.
  cbv zeta in H. destruct H as (_ & H1 & _ & H2 & _).
  eexists. split; [exact H1 | exact H2].
Defined.

(* ------------------------------------------------------------------ *)
(** ** Time travel *)

Example step_3_replayed_after_dmail :
  let '(c, w) := passes dmail_env sample_llm 3 1 started_world in
  c = Continue 3
  /\ Context.history (context w)
     = Context.marker_message 0 :: dmail_messages dmail_env a_dmail
  /\ Context.n_checkpoints (context w) = 1
  /\ wire w = [StepBegin 1; StatusUpdate 500 200000;
               StepBegin 2; StatusUpdate 500 200000;
               StepBegin 3; StatusUpdate 900 200000]
  /\ fst (loop_body dmail_env sample_llm 3 w) = Return_.
Proof. vm_compute. repeat split. Qed.

Lemma revert_to_in_range (id : Z) (c : Context.t) :
  0 <= id < Context.n_checkpoints c ->
  exists cp,
    nth_error (Context.checkpoints c) (Z.to_nat id) = Some cp
    /\ Context.revert_to id c
       = Some {| Context.history :=
                   firstn (Context.cp_position cp) (Context.history c);
                 Context.checkpoints :=
                   firstn (Z.to_nat id) (Context.checkpoints c);
                 Context.token_count := Context.cp_token_count cp;
                 Context.meta := Context.meta c |}.
Proof.
  unfold Context.revert_to, Context.n_checkpoints. intros H.
  destruct (nth_error (Context.checkpoints c) (Z.to_nat id)) as [cp|] eqn:E.
  - exists cp. split; [reflexivity|].
    destruct (Z.ltb_spec id 0); [lia|].
    destruct (Z.leb_spec (Z.of_nat (List.length (Context.checkpoints c))) id);
      [lia|].
    reflexivity.
  - apply nth_error_None in E. lia.
Qed.

Lemma revert_to_out_of_range (id : Z) (c : Context.t) :
  id < 0 \/ Context.n_checkpoints c <= id -> Context.revert_to id c = None.
Proof.
  unfold Context.revert_to. intros [H|H].
  - destruct (Z.ltb_spec id 0); [reflexivity|lia].
  - destruct (Z.leb_spec (Context.n_checkpoints c) id); [|lia].
    now rewrite orb_true_r.
Qed.

(** A revert removes the checkpoint it goes back to: [checkpoint_id]
    checkpoints are left, and the metadata store is not touched. *)
Lemma revert_to_n_checkpoints (id : Z) (c c' : Context.t) :
  Context.revert_to id c = Some c' ->
  Context.n_checkpoints c' = id /\ 0 <= id < Context.n_checkpoints c
  /\ Context.meta c' = Context.meta c.
Proof.
  intros H.
  destruct (Z_lt_ge_dec id 0) as [Hneg|Hpos].
  - rewrite revert_to_out_of_range in H by lia. discriminate.
  - destruct (Z_lt_ge_dec id (Context.n_checkpoints c)) as [Hlt|Hge].
    + destruct (@revert_to_in_range id c (conj (Z.ge_le _ _ Hpos) Hlt))
        as (cp & Hn & E).
      rewrite E in H. injection H as <-.
      unfold Context.n_checkpoints in *. cbn [Context.checkpoints Context.meta].
      rewrite length_firstn. repeat split; lia.
    + rewrite revert_to_out_of_range in H by lia. discriminate.
Qed.

(** The checkpoint taken after a revert has the id of the one reverted
    to. *)
Lemma checkpoint_after_revert (id : Z) (flag : bool) (c c' : Context.t) :
  Context.revert_to id c = Some c' ->
  Context.n_checkpoints (Context.checkpoint flag c') = id + 1
  /\ Context.history (Context.checkpoint flag c')
     = Context.history c'
       ++ (if flag then [Context.marker_message id] else [])
  /\ exists cp,
       Context.checkpoints (Context.checkpoint flag c')
       = Context.checkpoints c' ++ [cp]
       /\ Context.cp_id cp = id
       /\ Context.cp_position cp = List.length (Context.history c')
       /\ Context.cp_token_count cp = Context.token_count c'.
Proof.
  intros H. destruct (revert_to_n_checkpoints _ _ _ H) as (Hn & _).
  unfold Context.checkpoint. cbn [Context.history Context.checkpoints].
  rewrite Hn. split; [|split].
  - unfold Context.n_checkpoints in *. cbn [Context.checkpoints].
    rewrite length_app. simpl. lia.
  - destruct flag; [reflexivity | now rewrite app_nil_r].
  - eexists. split; [reflexivity|]. repeat split.
Qed.

(** A D-Mail in range is pending after the tools of a step have run and the
    context has grown, and yet the loop neither reverts nor replays the
    step: the user rejected another tool call of the same turn, so the
    D-Mail is dropped and the run ends. *)
Lemma pending_dmail_not_replayed :
  before_step rejecting_env sample_llm (begin_step 1 started_world)
  = (Ok tt, rejected_at_step)
  /\ _kosong_step_with_retry rejecting_env rejected_at_step
     = (Ok dmail_and_bash, rejected_answered)
  /\ tool_results rejecting_env dmail_and_bash
       (after_usage rejecting_env dmail_and_bash rejected_answered)
     = (Ok [mkToolResult "call_dmail" (ToolOk "sent");
            mkToolResult "call_bash" ToolRejectedError],
        rejected_tools_done)
  /\ DenwaRenji.pending_dmail (denwa_renji rejected_tools_done) = Some a_dmail
  /\ 0 <= dmail_checkpoint_id a_dmail
     < Context.n_checkpoints (context rejected_at_step)
  /\ loop_body rejecting_env sample_llm 1 started_world
     = (Return_, set_approval_task false rejected_done)
  /\ Context.checkpoints (context rejected_done)
     = Context.checkpoints (context rejected_at_step)
  /\ ~ (forall env l step_no w ws w1 w3 res results d,
          llm env = Some l ->
          before_step env l (begin_step step_no w) = (Ok tt, ws) ->
          _kosong_step_with_retry env ws = (Ok res, w1) ->
          tool_results env res (after_usage env res w1) = (Ok results, w3) ->
          shield_cancelled env (n_tool_rounds w3) = false ->
          DenwaRenji.pending_dmail (denwa_renji w3) = Some d ->
          0 <= dmail_checkpoint_id d < Context.n_checkpoints (context ws) ->
          exists w', loop_body env l step_no w = (Continue step_no, w')).
Proof.
  assert (H2 : before_step rejecting_env sample_llm
                 (begin_step 1 started_world) = (Ok tt, rejected_at_step))
    by (vm_compute; reflexivity).
  assert (H3 : _kosong_step_with_retry rejecting_env rejected_at_step
               = (Ok dmail_and_bash, rejected_answered))
    by (vm_compute; reflexivity).
  assert (H4 : tool_results rejecting_env dmail_and_bash
                 (after_usage rejecting_env dmail_and_bash rejected_answered)
               = (Ok [mkToolResult "call_dmail" (ToolOk "sent");
                      mkToolResult "call_bash" ToolRejectedError],
                  rejected_tools_done)) by (vm_compute; reflexivity).
  assert (H5 : DenwaRenji.pending_dmail (denwa_renji rejected_tools_done)
               = Some a_dmail) by reflexivity.
  assert (H6 : 0 <= dmail_checkpoint_id a_dmail
               < Context.n_checkpoints (context rejected_at_step))
    by (vm_compute; split; [discriminate | reflexivity]).
  assert (H7 : loop_body rejecting_env sample_llm 1 started_world
               = (Return_, set_approval_task false rejected_done))
    by (vm_compute; reflexivity).
  repeat split; try assumption; try (apply H6).
  intros H.
  destruct (H rejecting_env sample_llm 1 started_world rejected_at_step
              rejected_answered rejected_tools_done dmail_and_bash _ a_dmail
              eq_refl H2 H3 H4 eq_refl H5 H6) as [w' Hw'].
  rewrite H7 in Hw'. discriminate Hw'.
Qed.

(** C1, amended. Let a step have run its tools without a rejection and grown
    the context, and let a D-Mail be pending afterwards whose checkpoint id
    [c] is at least 0 and below the checkpoint count.  Then the loop body
    reverts the grown context to checkpoint [c]: the history is cut back to
    the position recorded when that checkpoint was taken, the token count
    is the one recorded there, and the checkpoints from [c] on are dropped,
    which leaves [c] of them.  It takes a new checkpoint, which is number
    [c] again, so that [c + 1] checkpoints exist, and appends the advisory
    message that carries the D-Mail's text: the history is the one cut
    back, the marker of checkpoint [c] if markers are in use, and the
    advisory message.  The loop goes round again with the same step
    number: the step counter is not incremented and no max-steps error is
    raised, whatever the limit.  The mailbox is empty afterwards. *)
Theorem time_travel_replays_step (env : Env) (l : LLM) (step_no : Z)
        (w ws w1 w3 : World) (res : StepResult) (results : list ToolResult)
        (d : DMail) :
  llm env = Some l ->
  before_step env l (begin_step step_no w) = (Ok tt, ws) ->
  _kosong_step_with_retry env ws = (Ok res, w1) ->
  tool_results env res (after_usage env res w1) = (Ok results, w3) ->
  shield_cancelled env (n_tool_rounds w3) = false ->
  existsb is_rejected results = false ->
  DenwaRenji.pending_dmail (denwa_renji w3) = Some d ->
  0 <= dmail_checkpoint_id d < Context.n_checkpoints (context ws) ->
  exists cp c w',
    nth_error (Context.checkpoints (context ws))
              (Z.to_nat (dmail_checkpoint_id d)) = Some cp
    /\ Context.revert_to (dmail_checkpoint_id d)
                         (grown_context env res results (context w3))
       = Some c
    /\ Context.history c
       = firstn (Context.cp_position cp)
                (Context.history (context ws)
                 ++ message res
                    :: flat_map (tool_result_to_messages env) results)
    /\ Context.checkpoints c
       = firstn (Z.to_nat (dmail_checkpoint_id d))
                (Context.checkpoints (context ws))
    /\ Context.n_checkpoints c = dmail_checkpoint_id d
    /\ Context.token_count c = Context.cp_token_count cp
    /\ context w'
       = Context.append_message
           (dmail_messages env d)
           (Context.checkpoint (_checkpoint_with_user_message env) c)
    /\ Context.n_checkpoints (context w') = dmail_checkpoint_id d + 1
    /\ Context.history (context w')
       = Context.history c
         ++ (if _checkpoint_with_user_message env
             then [Context.marker_message (dmail_checkpoint_id d)] else [])
         ++ dmail_messages env d
    /\ DenwaRenji.pending_dmail (denwa_renji w') = None
    /\ approval_task w' = false
    /\ loop_body env l step_no w = (Continue step_no, w')
    /\ (forall fuel,
          while_true env (S fuel) l step_no w
          = while_true env fuel l step_no w').
Proof.
  intros Hl Hb Hs Ht Hsh Hrej Hd Hrange.
  destruct (step_context_before_growth _ _ _ _ _ _ Hs Ht) as [Hh Hk].
  assert (Hn : Context.n_checkpoints (context w3)
               = Context.n_checkpoints (context ws)).
  { unfold Context.n_checkpoints. now rewrite Hk. }
  assert (Hrange' : 0 <= dmail_checkpoint_id d
                    < Context.n_checkpoints
                        (grown_context env res results (context w3))).
  { unfold Context.n_checkpoints in *. simpl. rewrite Hk. exact Hrange. }
  destruct (revert_to_in_range _ _ Hrange') as (cp & Hcp & Hrev).
  simpl Context.checkpoints in Hcp. rewrite Hk in Hcp.
  assert (Hstep : _step env ws
                  = (Raise (BackToTheFuture (dmail_checkpoint_id d)
                                            (dmail_messages env d)),
                     clear_dmail (grown env res results w3))).
  { rewrite (step_eq _ _ _ _ _ _ _ Hl Hs Ht). cbv zeta.
    rewrite Hsh, Hrej, Hd, Hn.
    rewrite Z.geb_leb.
    destruct (Z.leb_spec 0 (dmail_checkpoint_id d)); [|lia].
    destruct (Z.ltb_spec (dmail_checkpoint_id d)
                         (Context.n_checkpoints (context ws))); [|lia].
    reflexivity. }
  match type of Hrev with _ = Some ?x => set (c := x) in * end.
  set (w' := set_approval_task false
               (set_context
                  (Context.append_message
                     (dmail_messages env d)
                     (Context.checkpoint
                        (_checkpoint_with_user_message env) c))
                  (clear_dmail (grown env res results w3)))).
  assert (Hbody : loop_body env l step_no w = (Continue step_no, w')).
  { rewrite (loop_body_eq _ _ _ _ _ Hb), Hstep.
    unfold back_to_the_future, bind, revert_to.
    change (context (clear_dmail (grown env res results w3)))
      with (grown_context env res results (context w3)).
    rewrite Hrev. reflexivity. }
  destruct (checkpoint_after_revert
              _ (_checkpoint_with_user_message env) _ _ Hrev)
    as (Hn1 & Hh1 & _).
  exists cp, c, w'.
  split; [exact Hcp|]. split; [exact Hrev|].
  split; [subst c; simpl; now rewrite Hh|].
  split; [subst c; simpl; now rewrite Hk|].
  split; [apply (revert_to_n_checkpoints _ _ _ Hrev)|].
  split; [reflexivity|].
  split; [reflexivity|].
  split; [exact Hn1|].
  split.
  { subst w'. cbn [context set_context set_approval_task].
    unfold Context.append_message at 1. cbn [Context.history].
    rewrite Hh1. now rewrite <- app_assoc. }
  split; [reflexivity|].
  split; [reflexivity|].
  split; [exact Hbody|].
  intros fuel. simpl. rewrite Hbody. reflexivity.
Qed.

Lemma time_travel_replays_step_witness :
  exists w',
    loop_body dmail_env sample_llm 3 replay_start = (Continue 3, w')
    /\ Context.n_checkpoints (context w') = 1
    /\ Context.history (context w')
       = Context.marker_message 0 :: dmail_messages dmail_env a_dmail
    /\ DenwaRenji.pending_dmail (denwa_renji w') = None.
Proof.
  assert (H1 : llm dmail_env = Some sample_llm) by reflexivity.
  assert (H2 : before_step dmail_env sample_llm (begin_step 3 replay_start)
               = (Ok tt, replay_at_step)) by (vm_compute; reflexivity).
  assert (H3 : _kosong_step_with_retry dmail_env replay_at_step
               = (Ok dmail_turn, replay_answered))
    by (vm_compute; reflexivity).
  assert (H4 : tool_results dmail_env dmail_turn
                 (after_usage dmail_env dmail_turn replay_answered)
               = (Ok [mkToolResult "call_dmail" (ToolOk "sent")],
                  replay_tools_done)) by (vm_compute; reflexivity).
  assert (H5 : existsb is_rejected
                 [mkToolResult "call_dmail" (ToolOk "sent")] = false)
    by reflexivity.
  assert (H6 : DenwaRenji.pending_dmail (denwa_renji replay_tools_done)
               = Some a_dmail) by reflexivity.
  assert (H7 : 0 <= dmail_checkpoint_id a_dmail
               < Context.n_checkpoints (context replay_at_step))
    by (vm_compute; split; [discriminate | reflexivity]).
  destruct (time_travel_replays_step dmail_env sample_llm 3
              replay_start replay_at_step replay_answered replay_tools_done
              dmail_turn _ a_dmail H1 H2 H3 H4 eq_refl H5 H6 H7)
    as (cp & c & w' & Hcp & _ & Hc & _ & _ & _ & _ & Hn & Hh & Hp & _ & Hb
        & _).
  exists w'. split; [exact Hb|]. split; [exact Hn|]. split; [|exact Hp].
  rewrite Hh, Hc.
  assert (E : cp = Context.mkCheckpoint 0 0 0).
  { vm_compute in Hcp. now injection Hcp as <-. }
  rewrite E. reflexivity.
Defined.

(* ------------------------------------------------------------------ *)
(** ** Finishing, or going on to the next step *)

(** A step can finish the run although the model issued tool calls: here
    the user rejected one of them. *)
Lemma finished_with_tool_calls :
  _kosong_step_with_retry rejecting_env rejected_at_step
  = (Ok dmail_and_bash, rejected_answered)
  /\ _step rejecting_env rejected_at_step = (Ok true, rejected_done)
  /\ tool_calls dmail_and_bash <> []
  /\ ~ (forall env ws res w1 finished w',
          _kosong_step_with_retry env ws = (Ok res, w1) ->
          _step env ws = (Ok finished, w') ->
          (finished = true <-> tool_calls res = [])).
Proof.
  assert (H1 : _kosong_step_with_retry rejecting_env rejected_at_step
               = (Ok dmail_and_bash, rejected_answered))
    by (vm_compute; reflexivity).
  assert (H2 : _step rejecting_env rejected_at_step = (Ok true, rejected_done))
    by (vm_compute; reflexivity).
  repeat split; try assumption.
  - discriminate.
  - intros H. specialize (H _ _ _ _ _ _ H1 H2).
    destruct H as [H _]. discriminate (H eq_refl).
Qed.

(** C3, amended. Let a step have run its tools and grown the context, the
    run not being cancelled meanwhile, with no rejection among the
    results and no D-Mail pending afterwards (with one pending the step
    does not return but raises).  Then [_step] returns, and it
    returns [True] exactly when the model issued no tool call; in that case
    the loop body returns and the run is finished.  Otherwise the step
    number is incremented: if it is still within [max_steps_per_run] the
    loop goes on with it, and if it exceeds the limit the loop raises
    [MaxStepsReached] instead of starting another step. *)
Theorem check_finish (env : Env) (l : LLM) (step_no : Z)
        (w ws w1 w3 : World) (res : StepResult) (results : list ToolResult) :
  llm env = Some l ->
  before_step env l (begin_step step_no w) = (Ok tt, ws) ->
  _kosong_step_with_retry env ws = (Ok res, w1) ->
  tool_results env res (after_usage env res w1) = (Ok results, w3) ->
  shield_cancelled env (n_tool_rounds w3) = false ->
  existsb is_rejected results = false ->
  DenwaRenji.pending_dmail (denwa_renji w3) = None ->
  let max_steps := max_steps_per_run (loop_control env) in
  let w4 := clear_dmail (grown env res results w3) in
  let w' := set_approval_task false w4 in
  (exists finished,
      _step env ws = (Ok finished, w4)
      /\ (finished = true <-> tool_calls res = []))
  /\ (tool_calls res = [] ->
      loop_body env l step_no w = (Return_, w')
      /\ forall fuel, while_true env (S fuel) l step_no w = Some (Ok tt, w'))
  /\ (tool_calls res <> [] -> step_no + 1 <= max_steps ->
      loop_body env l step_no w = (Continue (step_no + 1), w')
      /\ forall fuel, while_true env (S fuel) l step_no w
                      = while_true env fuel l (step_no + 1) w')
  /\ (tool_calls res <> [] -> max_steps < step_no + 1 ->
      loop_body env l step_no w = (Raised (MaxStepsReached max_steps), w')
      /\ forall fuel, while_true env (S fuel) l step_no w
                      = Some (Raise (MaxStepsReached max_steps), w')).
Proof.
  intros Hl Hb Hs Ht Hsh Hrej Hd max_steps w4 w'.
  assert (Hstep : _step env ws
                  = (Ok (match tool_calls res with
                         | [] => true
                         | _ :: _ => false
                         end), w4)).
  { rewrite (step_eq _ _ _ _ _ _ _ Hl Hs Ht). cbv zeta.
    now rewrite Hsh, Hrej, Hd. }
  pose proof (loop_body_eq _ _ _ _ _ Hb) as Hbody. rewrite Hstep in Hbody.
  cbv zeta in Hbody. fold w' max_steps in Hbody.
  split; [|split; [|split]].
  - eexists. split; [exact Hstep|].
    destruct (tool_calls res); split; congruence.
  - intros E. rewrite E in Hbody. split; [exact Hbody|].
    intros fuel. simpl. now rewrite Hbody.
  - intros Hne Hle. destruct (tool_calls res) as [|tc tcs]; [congruence|].
    destruct (Z.gtb_spec (step_no + 1) max_steps) as [Hgt|_]; [lia|].
    split; [exact Hbody|]. intros fuel. simpl. now rewrite Hbody.
  - intros Hne Hlt. destruct (tool_calls res) as [|tc tcs]; [congruence|].
    destruct (Z.gtb_spec (step_no + 1) max_steps) as [_|Hle]; [|lia].
    split; [exact Hbody|]. intros fuel. simpl. now rewrite Hbody.
Qed.

Lemma check_finish_witness :
  exists w',
    loop_body dmail_env sample_llm 1 started_world = (Continue 2, w').
Proof.
  assert (H1 : llm dmail_env = Some sample_llm) by reflexivity.
  assert (H2 : before_step dmail_env sample_llm (begin_step 1 started_world)
               = (Ok tt, first_at_step)) by (vm_compute; reflexivity).
  assert (H3 : _kosong_step_with_retry dmail_env first_at_step
               = (Ok bash_turn, first_answered))
    by (vm_compute; reflexivity).
  assert (H4 : tool_results dmail_env bash_turn
                 (after_usage dmail_env bash_turn first_answered)
               = (Ok [mkToolResult "call_bash" (ToolOk "ok")],
                  first_tools_done)) by (vm_compute; reflexivity).
  assert (H5 : existsb is_rejected
                 [mkToolResult "call_bash" (ToolOk "ok")] = false)
    by reflexivity.
  assert (H6 : DenwaRenji.pending_dmail (denwa_renji first_tools_done) = None)
    by reflexivity.
  destruct (check_finish dmail_env sample_llm 1 started_world
              first_at_step first_answered first_tools_done bash_turn _
              H1 H2 H3 H4 eq_refl H5 H6) as (_ & _ & H & _).
  eexists. apply H.
  - discriminate.
  - simpl. lia.
Defined.

(* ------------------------------------------------------------------ *)
(** ** Compaction *)

Example second_step_compacts :
  let '(c, w) := passes compacting_env sample_llm 2 1 started_world in
  c = Return_
  /\ wire w = [StepBegin 1; StatusUpdate 160000 200000; StepBegin 2;
               CompactionBegin; CompactionEnd; StatusUpdate 1200 200000]
  /\ Context.history (context w)
     = [Context.marker_message 0; plain_message assistant "summary";
        Context.marker_message 1; plain_message assistant "done"]
  /\ map Context.cp_id (Context.checkpoints (context w)) = [0; 1].
Proof. vm_compute. repeat split. Qed.

(** C2. When the retried compaction call has returned the replacement
    messages, and checkpoint 0 exists, [compact_context] succeeds and leaves
    the context it obtains by [revert_to 0], then a new checkpoint, then the
    replacement messages appended.  The revert goes back to the state in
    which checkpoint 0 was taken and discards every checkpoint; the new
    checkpoint restarts the sequence: it is number 0 and the only one left,
    taken where the history was cut.  The history is the one recorded at
    the old checkpoint 0, the marker of the new checkpoint 0 if markers are
    in use, and the replacement. *)
Theorem compaction_restarts_checkpoints (env : Env) (w w1 : World)
        (msgs : list Message) :
  _compact_with_retry env w = (Ok msgs, w1) ->
  1 <= Context.n_checkpoints (context w) ->
  exists cp0 c0 w',
    nth_error (Context.checkpoints (context w)) 0 = Some cp0
    /\ Context.revert_to 0 (context w) = Some c0
    /\ compact_context env w = (Ok tt, w')
    /\ w' = set_context
              (Context.append_message msgs
                 (Context.checkpoint (_checkpoint_with_user_message env) c0))
              w1
    /\ Context.checkpoints c0 = []
    /\ Context.history c0
       = firstn (Context.cp_position cp0) (Context.history (context w))
    /\ Context.token_count c0 = Context.cp_token_count cp0
    /\ Context.history (context w')
       = Context.history c0
         ++ (if _checkpoint_with_user_message env
             then [Context.marker_message 0] else [])
         ++ msgs
    /\ Context.checkpoints (context w')
       = [Context.mkCheckpoint 0 (List.length (Context.history c0))
                               (Context.cp_token_count cp0)]
    /\ Context.n_checkpoints (context w') = 1.
Proof.
  intros Hc Hn.
  destruct (revert_to_in_range 0 (context w)) as (cp0 & Hcp & Hrev); [lia|].
  pose proof (compact_retry_only_counters _ _ _ _ Hc) as (Hctx & _).
  match type of Hrev with _ = Some ?x => set (c0 := x) in * end.
  assert (Hk : Context.checkpoints c0 = []) by reflexivity.
  eexists cp0, c0, _.
  split; [exact Hcp|]. split; [exact Hrev|].
  split.
  { unfold compact_context, bind. rewrite Hc.
    unfold revert_to. rewrite Hctx, Hrev. reflexivity. }
  split; [reflexivity|]. split; [exact Hk|]. split; [reflexivity|].
  split; [reflexivity|].
  assert (Hn0 : Context.n_checkpoints c0 = 0) by reflexivity.
  unfold Context.checkpoint, Context.append_message.
  cbn [context set_context Context.history Context.checkpoints].
  rewrite Hn0, Hk.
  split; [|split].
  - destruct (_checkpoint_with_user_message env).
    + now rewrite <- app_assoc.
    + reflexivity.
  - reflexivity.
  - reflexivity.
Qed.

Lemma compaction_restarts_checkpoints_witness :
  exists w',
    compact_context compacting_env compaction_start = (Ok tt, w')
    /\ Context.history (context w')
       = [Context.marker_message 0; plain_message assistant "summary"]
    /\ Context.n_checkpoints (context w') = 1.
Proof.
  assert (H1 : _compact_with_retry compacting_env compaction_start
               = (Ok [plain_message assistant "summary"], compaction_called))
    by (vm_compute; reflexivity).
  assert (H2 : 1 <= Context.n_checkpoints (context compaction_start))
    by (vm_compute; discriminate).
  destruct (compaction_restarts_checkpoints compacting_env compaction_start
              compaction_called _ H1 H2)
    as (cp0 & c0 & w' & Hcp & _ & H3 & _ & _ & Hc0 & _ & Hh & _ & H4).
  exists w'. split; [exact H3|]. split; [|exact H4].
  rewrite Hh, Hc0.
  assert (E : cp0 = Context.mkCheckpoint 0 0 0).
  { vm_compute in Hcp. now injection Hcp as <-. }
  rewrite E. reflexivity.
Defined.

(* ------------------------------------------------------------------ *)
(** ** How a run ends *)


Section Outcomes.

Variable env : Env.
Variable l : LLM.
Hypothesis llm_set : llm env = Some l.
Hypothesis classified : classified_failures env.

Lemma retry_raises A (body : M A) (P : exn -> Prop) :
  P CancelledError ->
  (forall w e w1, body w = (Raise e, w1) -> P e) ->
  forall left w e w1,
    retry_attempts env left body w = (Raise e, w1) -> P e.
Proof.
  intros Hc Hbody. induction left as [|left IH]; intros w e w1; simpl.
  - destruct (body w) as [[a|e0] w0] eqn:E; [discriminate|].
    destruct (_is_retryable_error e0); intros H; injection H as <- <-;
      eapply Hbody, E.
  - destruct (body w) as [[a|e0] w0] eqn:E; [discriminate|].
    destruct (_is_retryable_error e0).
    + unfold backoff_sleep. destruct (sleep_cancelled env (n_sleeps w0)).
      * intros H. injection H as <- <-. exact Hc.
      * apply IH.
    + intros H. injection H as <- <-. eapply Hbody, E.
Qed.

Lemma kosong_retry_raises w e w1 :
  _kosong_step_with_retry env w = (Raise e, w1) ->
  is_provider_or_cancel e = true.
Proof.
  apply (retry_raises _ _ (fun e => is_provider_or_cancel e = true));
    [reflexivity|].
  intros w0 e0 w2. unfold kosong_step_call. intros H.
  injection H as H _. eapply (proj1 classified), H.
Qed.






End Outcomes.

Section LoopOutcomes.

Variable env : Env.
Variable l : LLM.
Hypothesis llm_set : llm env = Some l.
Hypothesis classified : classified_failures env.






End LoopOutcomes.

Section RunOutcomes.

Variable env : Env.
Variable l : LLM.
Hypothesis llm_set : llm env = Some l.
Hypothesis classified : classified_failures env.





End RunOutcomes.






Example compacting_run_completes :
  option_map fst (run compacting_env 10 (Str "fix the bug") fresh_world)
  = Some (Ok tt).
Proof. vm_compute. reflexivity. Qed.

Example step_limit_reached :
  option_map fst
    (run (sample_env (fun _ => Ok bash_turn) quiet_tools 3 3) 10
         (Str "loop") fresh_world)
  = Some (Raise (MaxStepsReached 3)).
Proof. vm_compute. reflexivity. Qed.

(* ================================================================== *)
(** * Further properties of the code *)

(* ------------------------------------------------------------------ *)
(** ** The retry decorator, whatever the provider does *)

Lemma seq_from c a : seq c a = map (fun i => (c + i)%nat) (seq 0 a).
Proof.
  revert c. induction a as [|a IH]; intros c; simpl; [reflexivity|].
  f_equal; [lia|].
  rewrite (IH (S c)), <- seq_shift, map_map.
  apply map_ext. intros i. lia.
Qed.

Lemma streamed_by_app env w c a :
  streamed_by env w (c + a)
  = streamed_by env w c ++ streamed_by env (advance env c 0 w) a.
Proof.
  unfold streamed_by. rewrite seq_app, flat_map_app. f_equal.
  cbn [advance n_step_calls context plus]. rewrite (seq_from c a).
  rewrite !flat_map_concat_map, map_map. f_equal.
  apply map_ext. intros i. now rewrite Nat.add_assoc.
Qed.

Lemma advance_advance env a b c d w :
  advance env a b (advance env c d w) = advance env (c + a) (d + b) w.
Proof.
  unfold advance at 1 2. cbn [context denwa_renji wire approval_task
    n_step_calls n_compact_calls n_tool_rounds n_sleeps].
  unfold advance. rewrite streamed_by_app, <- app_assoc, !Nat.add_assoc.
  reflexivity.
Qed.

Lemma attempt_outcome_advance env c s w i :
  attempt_outcome env (advance env c s w) i = attempt_outcome env w (c + i).
Proof.
  unfold attempt_outcome, advance; simpl. now rewrite Nat.add_assoc.
Qed.

(** What a finished run of the retry loop tells about the provider: the
    attempts before the last one failed with retryable errors, and the
    result is the last attempt's, unless a backoff wait was cancelled. *)
Lemma retry_attempts_trace env left : forall w r w',
  retry_attempts env left (kosong_step_call env) w = (r, w') ->
  exists c sleeps,
    w' = advance env (S c) sleeps w
    /\ (c <= left)%nat
    /\ retryable_failures env w c
    /\ ((sleeps = c /\ r = attempt_outcome env w c
         /\ (forall e, r = Raise e -> _is_retryable_error e = true ->
                       c = left))
        \/ (sleeps = S c /\ r = Raise CancelledError /\ (c < left)%nat
            /\ sleep_cancelled env (n_sleeps w + c)%nat = true
            /\ exists e, attempt_outcome env w c = Raise e
                         /\ _is_retryable_error e = true)).
Proof.
  induction left as [|left IH]; intros w r w' H.
  - exists 0%nat, 0%nat. cbn [retry_attempts] in H.
    pose proof (kosong_step_call_at env 0 w) as Hb. rewrite advance_0 in Hb.
    rewrite Hb in H.
    assert (E : (r, w') = (attempt_outcome env w 0, advance env 1 0 w)).
    { destruct (attempt_outcome env w 0) as [a|e]; [congruence|].
      destruct (_is_retryable_error e); congruence. }
    injection E as -> ->.
    split; [reflexivity|]. split; [lia|].
    split; [intros i Hi; lia|]. left. repeat split; reflexivity.
  - cbn [retry_attempts] in H.
    pose proof (kosong_step_call_at env 0 w) as Hb. rewrite advance_0 in Hb.
    rewrite Hb in H.
    destruct (attempt_outcome env w 0) as [a|e] eqn:E0.
    + injection H as <- <-. exists 0%nat, 0%nat.
      split; [reflexivity|]. split; [lia|].
      split; [intros i Hi; lia|]. left.
      repeat split; [now rewrite E0 | intros e He; discriminate He].
    + destruct (_is_retryable_error e) eqn:Er.
      * rewrite backoff_sleep_advance in H.
        destruct (sleep_cancelled env (n_sleeps w + 0)) eqn:Es.
        -- injection H as <- <-. exists 0%nat, 1%nat.
           split; [reflexivity|].
           split; [lia|]. split; [intros i Hi; lia|]. right.
           repeat split; try lia; try assumption. now exists e.
        -- destruct (IH _ _ _ H) as (c & sleeps & Hw & Hc & Hf & Hcase).
           exists (S c), (S sleeps).
           split; [rewrite Hw, advance_advance; f_equal|].
           split; [lia|].
           split.
           { intros i Hi. destruct i as [|i].
             - split; [now exists e | exact Es].
             - destruct (Hf i) as [He Hs]; [lia|].
               rewrite attempt_outcome_advance in He.
               change (n_sleeps (advance env 1 1 w)) with (n_sleeps w + 1)%nat
                 in Hs.
               split; [exact He|].
               replace (n_sleeps w + S i)%nat with (n_sleeps w + 1 + i)%nat
                 by lia. exact Hs. }
           rewrite attempt_outcome_advance in Hcase.
           change (n_sleeps (advance env 1 1 w)) with (n_sleeps w + 1)%nat
             in Hcase.
           replace (n_sleeps w + 1 + c)%nat with (n_sleeps w + S c)%nat
             in Hcase by lia.
           destruct Hcase as [(Hs & Hr & Hl) | (Hs & Hr & Hlt & Hcan & He)].
           ++ left. repeat split; [lia | exact Hr |].
              intros e' He' Hr'. now rewrite (Hl e' He' Hr').
           ++ right. repeat split; try lia; assumption.
      * injection H as <- <-. exists 0%nat, 0%nat.
        split; [reflexivity|]. split; [lia|].
        split; [intros i Hi; lia|]. left.
        repeat split; [now rewrite E0|].
        intros e' He' Hr'. injection He' as <-. congruence.
Qed.

(** X1. Whatever the provider does, when the wrapped provider step ends it
    has made [c + 1] calls, never more than the configured attempt bound
    (or one call when the bound is below 1); the first [c] calls failed with
    retryable errors.  Its result is exactly the answer or the error of the
    last call (a retryable error only when the bound is exhausted), or
    else [CancelledError] from a cancelled backoff wait after a retryable
    failure: no other error is ever produced.  The wire has received what
    these calls streamed, call after call, and nothing else. *)
Theorem retry_result_provenance (env : Env) (w w' : World)
        (r : Result StepResult) :
  _kosong_step_with_retry env w = (r, w') ->
  exists c sleeps,
    w' = advance env (S c) sleeps w
    /\ Z.of_nat (S c) <= Z.max 1 (max_retries_per_step (loop_control env))
    /\ retryable_failures env w c
    /\ ((sleeps = c /\ r = attempt_outcome env w c
         /\ (forall e, r = Raise e -> _is_retryable_error e = true ->
                       Z.of_nat (S c)
                       = Z.max 1 (max_retries_per_step (loop_control env))))
        \/ (sleeps = S c /\ r = Raise CancelledError
            /\ sleep_cancelled env (n_sleeps w + c)%nat = true
            /\ exists e, attempt_outcome env w c = Raise e
                         /\ _is_retryable_error e = true)).
Proof.
  intros H. unfold _kosong_step_with_retry, tenacity_retry in H.
  destruct (retry_attempts_trace env _ _ _ _ H)
    as (c & sleeps & Hw & Hc & Hf & Hcase).
  exists c, sleeps. split; [exact Hw|]. split; [lia|]. split; [exact Hf|].
  destruct Hcase as [(Hs & Hr & Hl) | (Hs & Hr & Hlt & Hcan & He)].
  - left. repeat split; try assumption.
    intros e He Hre. specialize (Hl e He Hre). lia.
  - right. repeat split; assumption.
Qed.

Lemma retry_result_provenance_witness :
  exists c sleeps,
    advance (sample_env flaky_503 quiet_tools 100 4) 4 3 fresh_world
    = advance (sample_env flaky_503 quiet_tools 100 4) (S c) sleeps
              fresh_world
    /\ Z.of_nat (S c) <= 4.
Proof.
  destruct (retry_result_provenance
              (sample_env flaky_503 quiet_tools 100 4) fresh_world
              (advance (sample_env flaky_503 quiet_tools 100 4) 4 3
                       fresh_world)
              (Ok final_answer) eq_refl)
    as (c & sleeps & H1 & H2 & _).
  exists c, sleeps. split; [exact H1 | exact H2].
Defined.

(** X2. With [max_retries_per_step] at most 1 (zero and negative values
    included) nothing is retried: the provider is called exactly once, no
    backoff wait is made, and the call's answer or error is the result. *)
Theorem retry_bound_of_one (env : Env) (w : World) :
  max_retries_per_step (loop_control env) <= 1 ->
  _kosong_step_with_retry env w
  = (attempt_outcome env w 0, advance env 1 0 w).
Proof.
  intros H. unfold _kosong_step_with_retry, tenacity_retry.
  replace (Z.to_nat (max_retries_per_step (loop_control env) - 1))
    with 0%nat by lia.
  cbn [retry_attempts].
  pose proof (kosong_step_call_at env 0 w) as Hb. rewrite advance_0 in Hb.
  rewrite Hb. destruct (attempt_outcome env w 0) as [a|e]; [reflexivity|].
  destruct (_is_retryable_error e); reflexivity.
Qed.

Lemma retry_bound_of_one_witness :
  _kosong_step_with_retry (sample_env flaky_503 quiet_tools 100 0) fresh_world
  = (Raise (APIStatusError 503 "Service Unavailable"),
     advance (sample_env flaky_503 quiet_tools 100 0) 1 0 fresh_world).
Proof.
  apply (retry_bound_of_one (sample_env flaky_503 quiet_tools 100 0)
                            fresh_world).
  simpl. lia.
Defined.

Section RaisesOnly.

Variable P : exn -> Prop.

Lemma raises_only_ret A (a : A) : raises_only P (ret a).
Proof. intros w e w' H. discriminate H. Qed.

Lemma raises_only_raise A (e : exn) : P e -> raises_only P (@raise A e).
Proof. intros He w e' w' H. injection H as <- _. exact He. Qed.

Lemma raises_only_bind A B (m : M A) (f : A -> M B) :
  raises_only P m -> (forall a, raises_only P (f a)) ->
  raises_only P (bind m f).
Proof.
  intros Hm Hf w e w' H. unfold bind in H.
  destruct (m w) as [[a|e0] w1] eqn:E.
  - eapply Hf, H.
  - injection H as <- _. eapply Hm, E.
Qed.

Lemma raises_only_lift (f : World -> World) : raises_only P (lift f).
Proof. intros w e w' H. discriminate H. Qed.

Lemma raises_only_py_assert b msg :
  P (AssertionError msg) -> raises_only P (py_assert b msg).
Proof.
  intros H. destruct b; [apply raises_only_ret | now apply raises_only_raise].
Qed.

Lemma raises_only_for_each A (l : list A) (body : A -> M unit) :
  (forall a, raises_only P (body a)) -> raises_only P (for_each l body).
Proof.
  intros Hb. induction l as [|x l IH]; simpl.
  - apply raises_only_ret.
  - apply raises_only_bind; [apply Hb | intros _; exact IH].
Qed.

Lemma raises_only_shield env A (m : M A) :
  P CancelledError -> raises_only P m -> raises_only P (shield env m).
Proof.
  intros Hc Hm w e w' H. unfold shield in H.
  destruct (m w) as [[a|e0] w1] eqn:E.
  - destruct (shield_cancelled env (n_tool_rounds w)); [|discriminate H].
    injection H as <- _. exact Hc.
  - injection H as <- _. eapply Hm, E.
Qed.

End RaisesOnly.

Lemma wire_grows_refl w : wire_grows w w.
Proof. exists []. now rewrite app_nil_r. Qed.

Lemma wire_grows_trans w1 w2 w3 :
  wire_grows w1 w2 -> wire_grows w2 w3 -> wire_grows w1 w3.
Proof.
  intros [r1 H1] [r2 H2]. exists (r1 ++ r2). now rewrite H2, H1, app_assoc.
Qed.

Lemma wire_grows_same w w' : wire w' = wire w -> wire_grows w w'.
Proof. intros H. exists []. now rewrite app_nil_r. Qed.

Section WireGrows.

Variable env : Env.

Ltac wire_step :=
  first
    [ apply (keeps_bind _ wire_grows_trans)
    | apply (keeps_ret _ wire_grows_refl)
    | apply (keeps_raise _ wire_grows_refl)
    | apply (keeps_py_assert _ wire_grows_refl)
    | apply (keeps_get_context _ wire_grows_refl)
    | apply (keeps_lift wire_grows);
      intros ?; first [ apply wire_grows_same; reflexivity
                      | eexists; reflexivity ] ].

Lemma kosong_retry_keeps_wire : keeps wire_grows (_kosong_step_with_retry env).
Proof.
  intros w r w' H.
  destruct (kosong_retry_only_streams _ _ _ _ H) as (_ & _ & (ev & E) & _).
  now exists (map Stream ev).
Qed.

Lemma compact_retry_keeps_wire : keeps wire_grows (_compact_with_retry env).
Proof.
  intros w r w' H. apply wire_grows_same.
  apply (compact_retry_only_counters _ _ _ _ H).
Qed.

Lemma tool_results_keeps_wire res : keeps wire_grows (tool_results env res).
Proof.
  intros w r w' H.
  destruct (tool_results_effects _ _ _ _ _ H) as (_ & E & _).
  eexists. exact E.
Qed.

Lemma revert_to_keeps_wire id : keeps wire_grows (revert_to id).
Proof.
  intros w r w' H. unfold revert_to in H.
  destruct (Context.revert_to id (context w)); injection H as _ <-;
    apply wire_grows_same; reflexivity.
Qed.

Lemma fetch_keeps_wire : keeps wire_grows fetch_pending_dmail.
Proof.
  intros w r w' H. injection H as _ <-. apply wire_grows_same. reflexivity.
Qed.

Lemma grow_context_keeps_wire res results :
  keeps wire_grows (_grow_context env res results).
Proof.
  intros w r w' H. rewrite grow_context_eq in H. injection H as _ <-.
  apply wire_grows_same. reflexivity.
Qed.

Lemma step_keeps_wire : keeps wire_grows (_step env).
Proof.
  unfold _step.
  wire_step; [wire_step | intros _].
  wire_step; [apply kosong_retry_keeps_wire | intros res].
  wire_step.
  { destruct (usage res); repeat (wire_step; try intros ?). }
  intros _. wire_step; [apply tool_results_keeps_wire | intros results].
  wire_step;
    [apply (keeps_shield wire_grows), grow_context_keeps_wire | intros _].
  cbv zeta. destruct (existsb is_rejected results).
  - wire_step; [apply fetch_keeps_wire | intros _; wire_step].
  - wire_step; [apply fetch_keeps_wire | intros [d|]]; [|wire_step].
    repeat (wire_step; try intros ?).
Qed.

Lemma compact_context_keeps_wire : keeps wire_grows (compact_context env).
Proof.
  unfold compact_context, _checkpoint, append_message.
  wire_step; [apply compact_retry_keeps_wire | intros msgs].
  wire_step; [apply revert_to_keeps_wire | intros _].
  repeat (wire_step; try intros ?).
Qed.

Lemma try_block_keeps_wire l : keeps wire_grows (try_block env l).
Proof.
  unfold try_block, _checkpoint.
  wire_step; [wire_step | intros c].
  wire_step.
  { destruct (_ >=? _); [|wire_step].
    wire_step; [unfold wire_send; wire_step | intros _].
    wire_step; [apply compact_context_keeps_wire | intros _].
    unfold wire_send; wire_step. }
  intros _. wire_step; [wire_step | intros _].
  wire_step; [wire_step | intros _]. apply step_keeps_wire.
Qed.

Lemma back_to_the_future_keeps_wire id msgs :
  keeps wire_grows (back_to_the_future env id msgs).
Proof.
  unfold back_to_the_future, _checkpoint, append_message.
  wire_step; [apply revert_to_keeps_wire | intros _].
  repeat (wire_step; try intros ?).
Qed.

End WireGrows.

(* ------------------------------------------------------------------ *)
(** ** What every pass of the loop does *)

Lemma loop_body_frame env l step_no w :
  approval_task (snd (loop_body env l step_no w)) = false
  /\ exists rest,
       wire (snd (loop_body env l step_no w))
       = wire w ++ StepBegin step_no :: rest.
Proof.
  unfold loop_body. cbv zeta. fold (begin_step step_no w).
  pose proof (try_block_keeps_wire env l (begin_step step_no w)) as Ht.
  destruct (try_block env l (begin_step step_no w)) as [[finished|e] w1].
  - destruct (Ht _ _ eq_refl) as [rest Hr].
    change (wire (begin_step step_no w)) with (wire w ++ [StepBegin step_no])
      in Hr.
    rewrite <- app_assoc in Hr.
    destruct finished; [|destruct (_ >? _)]; (split; [reflexivity|]);
      exists rest; exact Hr.
  - destruct (Ht _ _ eq_refl) as [rest Hr].
    change (wire (begin_step step_no w)) with (wire w ++ [StepBegin step_no])
      in Hr.
    rewrite <- app_assoc in Hr.
    assert (Hother :
              approval_task
                (snd (if is_provider_or_cancel e
                      then (Raised e,
                            set_approval_task false (send StepInterrupted w1))
                      else (Raised e, set_approval_task false w1))) = false
              /\ exists rest0,
                   wire (snd (if is_provider_or_cancel e
                              then (Raised e,
                                    set_approval_task false
                                      (send StepInterrupted w1))
                              else (Raised e, set_approval_task false w1)))
                   = wire w ++ StepBegin step_no :: rest0).
    { destruct (is_provider_or_cancel e); (split; [reflexivity|]).
      - exists (rest ++ [StepInterrupted]). cbn [snd].
        change (wire (set_approval_task false (send StepInterrupted w1)))
          with (wire w1 ++ [StepInterrupted]).
        rewrite Hr, <- app_assoc. reflexivity.
      - exists rest. exact Hr. }
    destruct e; try exact Hother.
    pose proof (back_to_the_future_keeps_wire env checkpoint_id messages w1)
      as Hback.
    destruct (back_to_the_future env checkpoint_id messages w1)
      as [[[]|e'] w2];
      destruct (Hback _ _ eq_refl) as [rest2 Hr2];
      (split; [reflexivity|]); exists (rest ++ rest2); cbn [snd];
      change (wire (set_approval_task false w2)) with (wire w2);
      rewrite Hr2, Hr, <- app_assoc; reflexivity.
Qed.

Lemma while_true_frame env l fuel : forall step_no w r w',
  while_true env fuel l step_no w = Some (r, w') ->
  approval_task w' = false
  /\ exists rest, wire w' = wire w ++ StepBegin step_no :: rest.
Proof.
  induction fuel as [|fuel IH]; intros step_no w r w' H; simpl in H;
    [discriminate|].
  destruct (loop_body_frame env l step_no w) as [Ha [rest Hr]].
  destruct (loop_body env l step_no w) as [[|s'|e] w1]; simpl in Ha, Hr.
  - injection H as _ <-. split; [exact Ha|]. now exists rest.
  - destruct (IH _ _ _ _ H) as [Ha' [rest' Hr']]. split; [exact Ha'|].
    exists (rest ++ StepBegin s' :: rest').
    rewrite Hr', Hr, <- app_assoc. reflexivity.
  - injection H as _ <-. split; [exact Ha|]. now exists rest.
Qed.

(** X3. Every pass through the loop body, however it ends (return, next
    step, replay or exception), has first sent [StepBegin] with its step
    number, has only appended to the wire, and leaves the approval
    forwarding task stopped.  So a run with a model configured, whenever it
    ends, has sent [StepBegin 1] first, has kept every earlier event of
    the wire, and has no approval task left running. *)
Theorem every_pass_is_framed (env : Env) (l : LLM) (step_no : Z) (w : World) :
  (approval_task (snd (loop_body env l step_no w)) = false
   /\ exists rest,
        wire (snd (loop_body env l step_no w))
        = wire w ++ StepBegin step_no :: rest)
  /\ (forall fuel user_input r w',
        llm env = Some l ->
        run env fuel user_input w = Some (r, w') ->
        approval_task w' = false
        /\ exists rest, wire w' = wire w ++ StepBegin 1 :: rest).
Proof.
  split; [apply loop_body_frame|].
  intros fuel user_input r w' Hl H. unfold run, _agent_loop in H.
  rewrite Hl in H. cbv beta iota in H.
  apply while_true_frame in H. exact H.
Qed.

Lemma every_pass_is_framed_witness :
  exists rest,
    wire (snd (loop_body dmail_env sample_llm 3 replay_start))
    = wire replay_start ++ StepBegin 3 :: rest.
Proof.
  exact (proj2 (proj1 (every_pass_is_framed dmail_env sample_llm 3
                                            replay_start))).
Defined.

(* ------------------------------------------------------------------ *)
(** ** Which exceptions leave the loop *)

Lemma raises_only_revert_to (P : exn -> Prop) id :
  P (InvalidCheckpoint id) -> raises_only P (revert_to id).
Proof.
  intros H w e w' E. unfold revert_to in E.
  destruct (Context.revert_to id (context w)); [discriminate|].
  injection E as <- _. exact H.
Qed.

Lemma raises_only_get_context (P : exn -> Prop) : raises_only P get_context.
Proof. intros w e w' H. discriminate H. Qed.

Lemma raises_only_fetch (P : exn -> Prop) :
  raises_only P fetch_pending_dmail.
Proof. intros w e w' H. discriminate H. Qed.

Lemma raises_only_grow_context (P : exn -> Prop) env res results :
  raises_only P (_grow_context env res results).
Proof. intros w e w' H. rewrite grow_context_eq in H. discriminate H. Qed.

Lemma raises_only_tool_results (P : exn -> Prop) env res :
  P CancelledError -> raises_only P (tool_results env res).
Proof.
  intros Hc w e w' H.
  destruct (tool_results_effects _ _ _ _ _ H)
    as (_ & _ & _ & _ & _ & _ & _ & He).
  now rewrite (He e eq_refl).
Qed.

Lemma back_to_the_future_raises env id msgs w e w' :
  back_to_the_future env id msgs w = (Raise e, w') ->
  e = InvalidCheckpoint id.
Proof.
  revert w e w'.
  change (raises_only (fun e => e = InvalidCheckpoint id)
                      (back_to_the_future env id msgs)).
  unfold back_to_the_future, _checkpoint, append_message.
  apply raises_only_bind; [now apply raises_only_revert_to | intros _].
  apply raises_only_bind; [apply raises_only_lift | intros _].
  apply raises_only_lift.
Qed.

Lemma provider_or_cancel_not_max_steps e :
  is_provider_or_cancel e = true -> not_max_steps e.
Proof. intros H n ->. discriminate H. Qed.

Section NoStepLimitFromTheTry.

Variable env : Env.
Hypothesis classified : classified_failures env.

Lemma kosong_retry_not_max_steps :
  raises_only not_max_steps (_kosong_step_with_retry env).
Proof.
  intros w e w' H. apply provider_or_cancel_not_max_steps.
  eapply kosong_retry_raises; eauto.
Qed.

Lemma compact_retry_not_max_steps :
  raises_only not_max_steps (_compact_with_retry env).
Proof.
  intros w e w'. unfold _compact_with_retry, tenacity_retry.
  apply (retry_raises env _ _ not_max_steps).
  - intros n H. discriminate H.
  - intros w0 e0 w1. unfold compact_call.
    destruct (llm env).
    + intros H. injection H as H _.
      apply provider_or_cancel_not_max_steps.
      eapply (proj2 classified), H.
    + intros H. injection H as <- _. intros n Hn. discriminate Hn.
Qed.

Lemma step_not_max_steps : raises_only not_max_steps (_step env).
Proof.
  unfold _step.
  apply raises_only_bind;
    [apply raises_only_py_assert; intros n H; discriminate H | intros _].
  apply raises_only_bind; [apply kosong_retry_not_max_steps | intros res].
  apply raises_only_bind.
  { destruct (usage res); [|apply raises_only_ret].
    apply raises_only_bind; [apply raises_only_lift | intros _].
    apply raises_only_bind; [apply raises_only_get_context | intros c].
    apply raises_only_lift. }
  intros _. apply raises_only_bind.
  { apply raises_only_tool_results. intros n H. discriminate H. }
  intros results.
  apply raises_only_bind.
  { apply raises_only_shield; [|apply raises_only_grow_context].
    intros n H. discriminate H. }
  intros _.
  cbv zeta. destruct (existsb is_rejected results).
  - apply raises_only_bind; [apply raises_only_fetch | intros _].
    apply raises_only_ret.
  - apply raises_only_bind; [apply raises_only_fetch | intros [d|]];
      [|apply raises_only_ret].
    apply raises_only_bind;
      [apply raises_only_py_assert; intros n H; discriminate H | intros _].
    apply raises_only_bind; [apply raises_only_get_context | intros c].
    apply raises_only_bind;
      [apply raises_only_py_assert; intros n H; discriminate H | intros _].
    apply raises_only_raise. intros n H. discriminate H.
Qed.

Lemma try_block_not_max_steps l :
  raises_only not_max_steps (try_block env l).
Proof.
  unfold try_block.
  apply raises_only_bind; [apply raises_only_get_context | intros c].
  apply raises_only_bind.
  { destruct (_ >=? _); [|apply raises_only_ret].
    apply raises_only_bind; [apply raises_only_lift | intros _].
    apply raises_only_bind; [|intros _; apply raises_only_lift].
    unfold compact_context.
    apply raises_only_bind; [apply compact_retry_not_max_steps | intros m].
    apply raises_only_bind;
      [apply raises_only_revert_to; intros n H; discriminate H | intros _].
    apply raises_only_bind; [apply raises_only_lift | intros _].
    apply raises_only_lift. }
  intros _. apply raises_only_bind; [apply raises_only_lift | intros _].
  apply raises_only_bind; [apply raises_only_lift | intros _].
  apply step_not_max_steps.
Qed.

End NoStepLimitFromTheTry.

Lemma loop_body_never_time_travel env l step_no w e w' :
  loop_body env l step_no w = (Raised e, w') -> not_time_travel e.
Proof.
  unfold loop_body. cbv zeta.
  destruct (try_block env l _) as [[finished|e0] w1].
  - destruct finished; [discriminate|].
    destruct (_ >? _); [|discriminate].
    intros H. injection H as <- _. intros id msgs Hb. discriminate Hb.
  - destruct e0;
      try (destruct (is_provider_or_cancel _); intros H;
           injection H as <- _; intros id msgs Hb; discriminate Hb).
    destruct (back_to_the_future env checkpoint_id messages w1)
      as [[[]|e1] w2] eqn:E; [discriminate|].
    intros H. injection H as <- _.
    rewrite (back_to_the_future_raises _ _ _ _ _ _ E).
    intros id msgs Hb. discriminate Hb.
Qed.

(** X4. [BackToTheFuture] never leaves the loop: whatever the provider, the
    tools and the mailbox do, an exception that ends [_agent_loop] or [run]
    is not a [BackToTheFuture]. *)
Theorem time_travel_never_escapes (env : Env) (fuel : nat)
        (user_input : Content) (w w' : World) (e : exn) :
  (_agent_loop env fuel w = Some (Raise e, w')
   \/ run env fuel user_input w = Some (Raise e, w')) ->
  forall id msgs, e <> BackToTheFuture id msgs.
Proof.
  assert (Hloop : forall l fuel0 step_no w0,
             while_true env fuel0 l step_no w0 = Some (Raise e, w') ->
             not_time_travel e).
  { intros l fuel0. induction fuel0 as [|fuel0 IH]; intros step_no w0 H;
      simpl in H; [discriminate|].
    destruct (loop_body env l step_no w0) as [[|s'|e0] w1] eqn:E.
    - discriminate.
    - eapply IH, H.
    - injection H as <- _. eapply loop_body_never_time_travel, E. }
  assert (Hagent : forall w0, _agent_loop env fuel w0 = Some (Raise e, w') ->
                              not_time_travel e).
  { intros w0 H. unfold _agent_loop in H. destruct (llm env) as [l|].
    - eapply Hloop, H.
    - injection H as <- _. intros id msgs Hb. discriminate Hb. }
  intros [H|H].
  - eapply Hagent, H.
  - unfold run in H. destruct (llm env) as [l|] eqn:El.
    + cbv beta iota in H. eapply Hagent, H.
    + injection H as <- _. intros id msgs Hb. discriminate Hb.
Qed.

(** X5. When the provider and the compaction fail only with provider errors
    or by cancellation, a [MaxStepsReached] that ends a pass of the loop
    comes from the limit check alone: it carries [max_steps_per_run], the
    incremented step number exceeds that limit, and the [try] block of the
    pass, with its whole step, has completed and returned [False].  The
    limit is therefore never applied before a step has run. *)
Theorem step_limit_only_after_a_step (env : Env) (l : LLM) (step_no n : Z)
        (w w' : World) :
  classified_failures env ->
  loop_body env l step_no w = (Raised (MaxStepsReached n), w') ->
  n = max_steps_per_run (loop_control env)
  /\ max_steps_per_run (loop_control env) < step_no + 1
  /\ exists w1,
       try_block env l (begin_step step_no w) = (Ok false, w1)
       /\ w' = set_approval_task false w1.
Proof.
  intros Hcl. unfold loop_body. cbv zeta. fold (begin_step step_no w).
  pose proof (try_block_not_max_steps env Hcl l (begin_step step_no w)) as Ht.
  destruct (try_block env l (begin_step step_no w)) as [[finished|e0] w1].
  - destruct finished; [discriminate|].
    destruct (Z.gtb_spec (step_no + 1) (max_steps_per_run (loop_control env)))
      as [Hgt|Hle]; [|discriminate].
    intros H. injection H as <- <-.
    split; [reflexivity|]. split; [lia|]. now exists w1.
  - specialize (Ht e0 w1 eq_refl).
    destruct e0; try (simpl; intros H; discriminate H).
    + exfalso. apply (Ht n_steps). reflexivity.
    + destruct (back_to_the_future env checkpoint_id messages w1)
        as [[[]|e1] w2] eqn:E; [discriminate|].
      intros H. injection H as H _.
      rewrite (back_to_the_future_raises _ _ _ _ _ _ E) in H. discriminate H.
Qed.

Lemma time_travel_never_escapes_witness :
  try_block replaying_env sample_llm (begin_step 1 replaying_start)
  = (Raise (BackToTheFuture 0 (dmail_messages replaying_env a_dmail)),
     replaying_caught)
  /\ fst (loop_body replaying_env sample_llm 1 replaying_start) = Continue 1
  /\ run replaying_env 5 (Str "go") fresh_world
     = Some (Raise (APIStatusError 401 "Unauthorized"), replaying_end)
  /\ step_numbers (wire replaying_end) = [1; 1]
  /\ forall id msgs,
       APIStatusError 401 "Unauthorized" <> BackToTheFuture id msgs.
Proof.
  assert (H : run replaying_env 5 (Str "go") fresh_world
              = Some (Raise (APIStatusError 401 "Unauthorized"),
                      replaying_end)) by (vm_compute; reflexivity).
  split; [vm_compute; reflexivity|].
  split; [vm_compute; reflexivity|].
  split; [exact H|].
  split; [vm_compute; reflexivity|].
  apply (time_travel_never_escapes replaying_env 5 (Str "go") fresh_world
                                   replaying_end
                                   (APIStatusError 401 "Unauthorized")).
  right. exact H.
Defined.

Lemma step_limit_only_after_a_step_witness :
  exists w1,
    try_block zero_limit_env sample_llm (begin_step 1 started_world)
    = (Ok false, w1)
    /\ zero_limit_pass_end = set_approval_task false w1.
Proof.
  assert (Hcl : classified_failures zero_limit_env)
    by (split; intros k h e H; discriminate H).
  assert (Hb : loop_body zero_limit_env sample_llm 1 started_world
               = (Raised (MaxStepsReached 0), zero_limit_pass_end))
    by (vm_compute; reflexivity).
  exact (proj2 (proj2 (step_limit_only_after_a_step
                         zero_limit_env sample_llm 1 0 started_world
                         zero_limit_pass_end Hcl Hb))).
Defined.

(* ------------------------------------------------------------------ *)
(** ** Compaction: when it runs, and when it fails *)

Lemma same_wire_refl w : same_wire w w.
Proof. reflexivity. Qed.

Lemma same_wire_trans w1 w2 w3 :
  same_wire w1 w2 -> same_wire w2 w3 -> same_wire w1 w3.
Proof. unfold same_wire. congruence. Qed.

Lemma compact_context_same_wire env : keeps same_wire (compact_context env).
Proof.
  unfold compact_context, _checkpoint, append_message.
  apply (keeps_bind _ same_wire_trans).
  { intros w r w' H. apply (compact_retry_only_counters _ _ _ _ H). }
  intros msgs. apply (keeps_bind _ same_wire_trans).
  { intros w r w' H. unfold revert_to in H.
    destruct (Context.revert_to 0 (context w)); injection H as _ <-;
      reflexivity. }
  intros _. apply (keeps_bind _ same_wire_trans).
  { apply keeps_lift. reflexivity. }
  intros _. apply keeps_lift. reflexivity.
Qed.

(** X6. If the retried compaction call ends with an exception,
    [compact_context] raises that exception and has touched neither the
    context (no revert, no checkpoint, nothing appended) nor the mailbox
    nor the wire.  Without a model it raises [LLMNotSet] at once, the world
    unchanged and no call made. *)
Theorem compaction_failure_leaves_context (env : Env) (w : World) :
  (llm env = None -> compact_context env w = (Raise LLMNotSet, w))
  /\ (forall e w1,
        _compact_with_retry env w = (Raise e, w1) ->
        compact_context env w = (Raise e, w1)
        /\ context w1 = context w
        /\ denwa_renji w1 = denwa_renji w
        /\ wire w1 = wire w).
Proof.
  split.
  - intros Hl. unfold compact_context, bind.
    assert (E : _compact_with_retry env w = (Raise LLMNotSet, w)).
    { unfold _compact_with_retry, tenacity_retry.
      apply retry_non_retryable; [|reflexivity].
      unfold compact_call. now rewrite Hl. }
    now rewrite E.
  - intros e w1 H.
    pose proof (compact_retry_only_counters _ _ _ _ H) as (Hc & Hd & Hw & _).
    repeat split; try assumption.
    unfold compact_context, bind. now rewrite H.
Qed.

Lemma compaction_failure_leaves_context_witness :
  compact_context broken_compaction_env
                  (send CompactionBegin (begin_step 2 nearly_full))
  = (Raise (APIStatusError 401 "Unauthorized"), broken_compaction_called)
  /\ context broken_compaction_called = context nearly_full.
Proof.
  assert (H : _compact_with_retry broken_compaction_env
                (send CompactionBegin (begin_step 2 nearly_full))
              = (Raise (APIStatusError 401 "Unauthorized"),
                 broken_compaction_called)) by (vm_compute; reflexivity).
  destruct (proj2 (compaction_failure_leaves_context
                     broken_compaction_env
                     (send CompactionBegin (begin_step 2 nearly_full)))
                  _ _ H) as (H1 & H2 & _).
  split; [exact H1 | exact H2].
Defined.

(** X7. The [try] block of a pass is the part before [_step] followed by
    [_step].  While [token_count + 50000] is below the model's context
    size, that part makes no compaction call and sends nothing: it only
    takes the step's checkpoint and tells the mailbox the new count.  From
    [token_count + 50000 = max_context_size] on, it sends [CompactionBegin]
    first, and [CompactionEnd] exactly when the compaction succeeded; after
    a failed compaction [CompactionBegin] is the last event it sent. *)
Theorem compaction_threshold (env : Env) (l : LLM) (w : World) :
  try_block env l w = bind (before_step env l) (fun _ => _step env) w
  /\ (Context.token_count (context w) + RESERVED_TOKENS < max_context_size l ->
      before_step env l w = (Ok tt, checkpointed env w))
  /\ (max_context_size l <= Context.token_count (context w) + RESERVED_TOKENS ->
      forall r w',
        before_step env l w = (r, w') ->
        (r = Ok tt -> wire w' = wire w ++ [CompactionBegin; CompactionEnd])
        /\ (forall e, r = Raise e -> wire w' = wire w ++ [CompactionBegin])).
Proof.
  split; [apply try_block_eq|]. split.
  - intros H. unfold before_step, bind, get_context, _reserved_tokens.
    rewrite Z.geb_leb.
    destruct (Z.leb_spec (max_context_size l)
                         (Context.token_count (context w) + RESERVED_TOKENS));
      [lia|].
    reflexivity.
  - intros H r w' Hb.
    unfold before_step, bind, get_context, _reserved_tokens in Hb.
    rewrite Z.geb_leb in Hb.
    destruct (Z.leb_spec (max_context_size l)
                         (Context.token_count (context w) + RESERVED_TOKENS));
      [|lia].
    unfold wire_send at 1 in Hb. unfold lift at 1 in Hb.
    pose proof (compact_context_same_wire env (send CompactionBegin w)) as Hk.
    destruct (compact_context env (send CompactionBegin w))
      as [[[]|e] w1].
    + specialize (Hk _ _ eq_refl). unfold same_wire in Hk.
      unfold wire_send, _checkpoint, lift in Hb. injection Hb as <- <-.
      split; [intros _|intros e He; discriminate He].
      cbn [wire set_denwa_renji set_context send]. rewrite Hk.
      cbn [wire send]. now rewrite <- app_assoc.
    + specialize (Hk _ _ eq_refl). unfold same_wire in Hk.
      injection Hb as <- <-.
      split; [intros He; discriminate He|]. intros e0 _. exact Hk.
Qed.

Lemma compaction_threshold_witness :
  before_step compacting_env sample_llm started_world
  = (Ok tt, checkpointed compacting_env started_world)
  /\ forall r w',
       before_step compacting_env sample_llm nearly_full = (r, w') ->
       r = Ok tt ->
       wire w' = wire nearly_full ++ [CompactionBegin; CompactionEnd].
Proof.
  destruct (compaction_threshold compacting_env sample_llm started_world)
    as (_ & H1 & _).
  destruct (compaction_threshold compacting_env sample_llm nearly_full)
    as (_ & _ & H2).
  split.
  - apply H1. vm_compute. reflexivity.
  - intros r w' Hb. apply (H2 ltac:(vm_compute; discriminate) r w' Hb).
Defined.

Lemma compact_retry_step_calls env w r w1 :
  _compact_with_retry env w = (r, w1) -> n_step_calls w1 = n_step_calls w.
Proof.
  revert w r w1.
  change (keeps (fun a b => n_step_calls b = n_step_calls a)
                (_compact_with_retry env)).
  unfold _compact_with_retry, tenacity_retry.
  apply keeps_retry.
  - intros a b c H1 H2. congruence.
  - intros a r b H. unfold compact_call in H.
    destruct (llm env); injection H as _ <-; reflexivity.
  - reflexivity.
Qed.

(** X8. When a pass finds the context nearly full and the compaction call
    ends with a provider error or a cancellation, the pass raises that
    error.  It has sent [StepBegin], [CompactionBegin] and
    [StepInterrupted], in this order and nothing else (no [CompactionEnd]);
    the context and the mailbox are as before the pass: no checkpoint was
    taken and no provider step was made. *)
Theorem failed_compaction_interrupts_the_pass (env : Env) (l : LLM)
        (step_no : Z) (w w1 : World) (e : exn) :
  max_context_size l <= Context.token_count (context w) + RESERVED_TOKENS ->
  _compact_with_retry env (send CompactionBegin (begin_step step_no w))
  = (Raise e, w1) ->
  is_provider_or_cancel e = true ->
  exists w',
    loop_body env l step_no w = (Raised e, w')
    /\ wire w' = wire w ++ [StepBegin step_no; CompactionBegin; StepInterrupted]
    /\ context w' = context w
    /\ denwa_renji w' = denwa_renji w
    /\ approval_task w' = false
    /\ n_step_calls w' = n_step_calls w.
Proof.
  intros Hfull Hc He.
  pose proof (compact_retry_only_counters _ _ _ _ Hc)
    as (Hctx & Hd & Hw & _).
  pose proof (compact_retry_step_calls _ _ _ _ Hc) as Hn.
  assert (Hbefore : before_step env l (begin_step step_no w) = (Raise e, w1)).
  { unfold before_step, bind, get_context, _reserved_tokens.
    change (context (begin_step step_no w)) with (context w).
    rewrite Z.geb_leb.
    destruct (Z.leb_spec (max_context_size l)
                         (Context.token_count (context w) + RESERVED_TOKENS));
      [|lia].
    unfold wire_send at 1. unfold lift at 1.
    unfold compact_context, bind. now rewrite Hc. }
  exists (set_approval_task false (send StepInterrupted w1)).
  split.
  { unfold loop_body. cbv zeta. fold (begin_step step_no w).
    rewrite try_block_eq. unfold bind. rewrite Hbefore.
    destruct e; try discriminate He; reflexivity. }
  split.
  { change (wire (set_approval_task false (send StepInterrupted w1)))
      with (wire w1 ++ [StepInterrupted]).
    rewrite Hw.
    change (wire (send CompactionBegin (begin_step step_no w)))
      with ((wire w ++ [StepBegin step_no]) ++ [CompactionBegin]).
    now rewrite <- !app_assoc. }
  repeat split; assumption.
Qed.

Lemma failed_compaction_interrupts_the_pass_witness :
  exists w',
    loop_body broken_compaction_env sample_llm 2 nearly_full
    = (Raised (APIStatusError 401 "Unauthorized"), w')
    /\ wire w' = wire nearly_full
                 ++ [StepBegin 2; CompactionBegin; StepInterrupted]
    /\ context w' = context nearly_full.
Proof.
  assert (H1 : max_context_size sample_llm
               <= Context.token_count (context nearly_full) + RESERVED_TOKENS)
    by (vm_compute; discriminate).
  assert (H2 : _compact_with_retry broken_compaction_env
                 (send CompactionBegin (begin_step 2 nearly_full))
               = (Raise (APIStatusError 401 "Unauthorized"),
                  broken_compaction_called)) by (vm_compute; reflexivity).
  destruct (failed_compaction_interrupts_the_pass
              broken_compaction_env sample_llm 2 nearly_full
              broken_compaction_called _ H1 H2 eq_refl)
    as (w' & Hb & Hw & Hc & _).
  exists w'. repeat split; assumption.
Defined.

(* ------------------------------------------------------------------ *)
(** ** A step that is interrupted *)




Example unreachable_provider_leaves_history :
  _step unreachable_env unreachable_at_step
  = (Raise (APIConnectionError "connection refused"), unreachable_failed)
  /\ context unreachable_failed = context unreachable_at_step
  /\ n_step_calls unreachable_failed = 2%nat.
Proof. vm_compute. repeat split. Qed.

(* ------------------------------------------------------------------ *)
(** ** Token accounting of a step *)



Example streamed_events_on_the_wire :
  wire streaming_done
  = wire rejected_at_step
    ++ [Stream (PartEvent (TextPart "going back"));
        Stream (ToolCallEvent dmail_call);
        StatusUpdate 900 200000;
        Stream (ApprovalRequest "call_bash" "run command");
        Stream (ToolResultEvent (mkToolResult "call_dmail" (ToolOk "sent")))].
Proof. vm_compute. reflexivity. Qed.

(* ------------------------------------------------------------------ *)
(** ** The metadata log: what each writer changes for each reader *)

Lemma tags_app l l' : tags (l ++ l') = tags l ++ tags l'.
Proof.
  induction l as [|r l IH]; simpl; [reflexivity|].
  destruct r; simpl; now rewrite IH.
Qed.

Lemma maps_app l l' : maps (l ++ l') = maps l ++ maps l'.
Proof.
  induction l as [|r l IH]; simpl; [reflexivity|].
  destruct r; simpl; now rewrite IH.
Qed.

Lemma log_append_record r st :
  log (append_record r st) = Some (records st ++ [r]).
Proof. unfold append_record, records. destruct (log st); reflexivity. Qed.

Lemma list_active_pins_records step st :
  list_active_pins step st
  = sort_pins
      (filter (active (match step with
                       | Some n => n
                       | None => current_step st
                       end)) (tags (records st))).
Proof. unfold list_active_pins, records. destruct (log st); reflexivity. Qed.

Lemma list_todo_task_maps_records st :
  list_todo_task_maps st = maps (records st).
Proof. unfold list_todo_task_maps, records. destruct (log st); reflexivity. Qed.

Lemma records_append_record r st :
  records (append_record r st) = records st ++ [r].
Proof. unfold records at 1. now rewrite log_append_record. Qed.

(** X11. Records that are not tags never change the list of active pins:
    after [map_todo_task] or [record_artifact] every query, with a given
    step or with the store's own counter, answers as before.  Likewise
    [increment_step] changes no answer to a query with a given step. *)
Theorem non_tag_records_leave_pins (st : MetadataStore.t) (step : option Z) :
  (forall todo task,
      list_active_pins step (map_todo_task todo task st)
      = list_active_pins step st)
  /\ (forall task knd pth sz,
         list_active_pins step (record_artifact task knd pth sz st)
         = list_active_pins step st)
  /\ (forall s,
         list_active_pins (Some s) (increment_step st)
         = list_active_pins (Some s) st).
Proof.
  repeat split; intros.
  - rewrite !list_active_pins_records. unfold map_todo_task.
    rewrite records_append_record, tags_app. simpl. now rewrite app_nil_r.
  - rewrite !list_active_pins_records. unfold record_artifact.
    rewrite records_append_record, tags_app. simpl. now rewrite app_nil_r.
Qed.

(** X12. Tagging adds and never replaces: at any step [s] the active pins
    after [tag] are the pins active before together with the new record,
    stamped with the store's current step, if it is active at [s] (same
    records, same multiplicity).  Among the records of one importance the
    earlier ones keep their order and the new one comes last. *)
Theorem tag_adds_one_pin (st : MetadataStore.t) (task : string)
        (ids : list string) (pol : Policy) (ttl imp : Z)
        (nts : option string) (s : Z) :
  let p := mkPin task ids pol ttl imp nts (current_step st) in
  let new := if active s p then [p] else [] in
  Permutation (list_active_pins (Some s) (tag task ids pol ttl imp nts st))
              (list_active_pins (Some s) st ++ new)
  /\ forall k,
       of_importance k
         (list_active_pins (Some s) (tag task ids pol ttl imp nts st))
       = of_importance k (list_active_pins (Some s) st)
         ++ of_importance k new.
Proof.
  intros p new. rewrite !list_active_pins_records. unfold tag.
  rewrite records_append_record, tags_app, filter_app.
  change (tags [TagRec p]) with [p].
  change (filter (active s) [p]) with new.
  split.
  - eapply perm_trans; [apply sort_pins_perm|].
    apply Permutation_app_tail, Permutation_sym, sort_pins_perm.
  - intros k. rewrite !sort_pins_stable. unfold of_importance.
    apply filter_app.
Qed.

(** X13. [list_todo_task_maps] lists the mappings in the order they were
    written: after [map_todo_task] it is the earlier list followed by the new
    pair.  Tag records, artifact records and the step counter do not change
    it. *)
Theorem todo_task_maps_in_log_order (st : MetadataStore.t) :
  (forall todo task,
      list_todo_task_maps (map_todo_task todo task st)
      = list_todo_task_maps st ++ [mkMap todo task])
  /\ (forall task ids pol ttl imp nts,
         list_todo_task_maps (tag task ids pol ttl imp nts st)
         = list_todo_task_maps st)
  /\ (forall task knd pth sz,
         list_todo_task_maps (record_artifact task knd pth sz st)
         = list_todo_task_maps st)
  /\ list_todo_task_maps (increment_step st) = list_todo_task_maps st.
Proof.
  repeat split; intros; rewrite ?list_todo_task_maps_records;
    unfold map_todo_task, tag, record_artifact;
    rewrite ?records_append_record, ?maps_app; simpl;
    rewrite ?app_nil_r; reflexivity.
Qed.

Lemma list_active_pins_In step st p :
  In p (list_active_pins step st) <->
  In p (tags (records st))
  /\ active (match step with Some n => n | None => current_step st end) p
     = true.
Proof.
  rewrite list_active_pins_records. split.
  - intros H. apply (Permutation_in _ (sort_pins_perm _)) in H.
    now apply filter_In in H.
  - intros H. apply (Permutation_in _ (Permutation_sym (sort_pins_perm _))).
    now apply filter_In.
Qed.

Lemma iter_increment_step k st :
  records (Nat.iter k increment_step st) = records st
  /\ current_step (Nat.iter k increment_step st)
     = current_step st + Z.of_nat k.
Proof.
  induction k as [|k [IHr IHc]].
  - simpl. split; [reflexivity|lia].
  - change (Nat.iter (S k) increment_step st)
      with (increment_step (Nat.iter k increment_step st)).
    split.
    + rewrite <- IHr. reflexivity.
    + change (current_step (increment_step ?x)) with (current_step x + 1).
      rewrite IHc. lia.
Qed.

(** X14. The store's own counter is the clock of expiry: a record tagged
    with [ttl_steps = T] is listed by the query without a step after [k]
    calls of [increment_step] exactly when [k < T]; it is never removed
    from the log. *)
Theorem pin_expires_after_ttl_increments (st : MetadataStore.t)
        (task : string) (ids : list string) (pol : Policy) (ttl imp : Z)
        (nts : option string) (k : nat) :
  let p := mkPin task ids pol ttl imp nts (current_step st) in
  let st' := Nat.iter k increment_step (tag task ids pol ttl imp nts st) in
  (In p (list_active_pins None st') <-> Z.of_nat k < ttl)
  /\ In (TagRec p) (records st').
Proof.
  intros p st'.
  destruct (iter_increment_step k (tag task ids pol ttl imp nts st))
    as [Hr Hc].
  fold st' in Hr, Hc.
  assert (Hrec : records st' = records st ++ [TagRec p]).
  { rewrite Hr. unfold tag. apply records_append_record. }
  split.
  - rewrite list_active_pins_In, Hrec, tags_app, Hc.
    unfold active. cbn [created_at_step ttl_steps p tag append_record
                        current_step].
    rewrite Z.ltb_lt. split.
    + intros [_ H]. lia.
    + intros H. split; [|lia]. apply in_or_app. right. now left.
  - rewrite Hrec. apply in_or_app. right. now left.
Qed.

(* ------------------------------------------------------------------ *)
(** ** TagContext: what a call changes *)

(** X15. TagContext returns [ToolError] exactly when no context is
    available.  With a context it returns [ToolOk] and leaves the history,
    the checkpoints, the token count and the store's step counter alone; the
    metadata log is either untouched or extended by one tag record at its
    end, no earlier record being changed or removed. *)
Theorem tag_context_frame (message_id : nat -> Message -> string)
        (params : TagContext.Params) (current : option Context.t) :
  (current = None <->
   exists m b, fst (TagContext.call message_id params current)
               = ToolError m b)
  /\ forall ctx,
       current = Some ctx ->
       exists out ctx',
         TagContext.call message_id params current = (ToolOk out, Some ctx')
         /\ Context.history ctx' = Context.history ctx
         /\ Context.checkpoints ctx' = Context.checkpoints ctx
         /\ Context.token_count ctx' = Context.token_count ctx
         /\ current_step (Context.meta ctx') = current_step (Context.meta ctx)
         /\ (Context.meta ctx' = Context.meta ctx
             \/ exists p,
                  records (Context.meta ctx')
                  = records (Context.meta ctx) ++ [TagRec p]).
Proof.
  assert (Hsome : forall ctx,
             exists out ctx',
               TagContext.call message_id params (Some ctx)
               = (ToolOk out, Some ctx')
               /\ Context.history ctx' = Context.history ctx
               /\ Context.checkpoints ctx' = Context.checkpoints ctx
               /\ Context.token_count ctx' = Context.token_count ctx
               /\ current_step (Context.meta ctx')
                  = current_step (Context.meta ctx)
               /\ (Context.meta ctx' = Context.meta ctx
                   \/ exists p,
                        records (Context.meta ctx')
                        = records (Context.meta ctx) ++ [TagRec p])).
  { intros ctx. unfold TagContext.call.
    destruct (TagContext.p_message_ids params) as [ids|].
    - eexists _, _. split; [reflexivity|]. repeat split.
      right. eexists. cbn [Context.meta Context.set_meta]. unfold tag.
      apply records_append_record.
    - destruct (Context.get_recent_message_ids _ _ _ _) as [|i ids].
      + eexists _, _. split; [reflexivity|]. repeat split. now left.
      + eexists _, _. split; [reflexivity|]. repeat split.
        right. eexists. cbn [Context.meta Context.set_meta]. unfold tag.
        apply records_append_record. }
  split.
  - split.
    + intros ->. eexists _, _. reflexivity.
    + intros (m & b & H). destruct current as [ctx|]; [|reflexivity].
      destruct (Hsome ctx) as (out & ctx' & E & _). rewrite E in H.
      discriminate H.
  - intros ctx ->. apply Hsome.
Qed.

Lemma tag_context_frame_witness :
  exists out ctx',
    TagContext.call positional_id explicit_params (Some three_messages)
    = (ToolOk out, Some ctx')
    /\ Context.history ctx' = Context.history three_messages.
Proof.
  destruct (proj2 (tag_context_frame positional_id explicit_params
                                     (Some three_messages))
                  three_messages eq_refl)
    as (out & ctx' & H1 & H2 & _).
  exists out, ctx'. split; [exact H1 | exact H2].
Defined.

(** X16. When TagContext has message ids to tag (the given ones, or a
    non-empty list of inferred ones), it appends to the log of the
    context's store exactly one tag record carrying the call's task id,
    those ids, policy, TTL, importance and notes, stamped with the store's
    current step, and reports them in its output.  Every pin active before
    the call is still listed afterwards, and with [ttl_steps >= 1] the new
    record is listed by a query at the store's current step. *)
Theorem tag_context_stores_pin (message_id : nat -> Message -> string)
        (params : TagContext.Params) (ctx : Context.t) :
  (TagContext.p_message_ids params = None ->
   ids_to_tag message_id params ctx <> []) ->
  let ids := ids_to_tag message_id params ctx in
  let p := pin_of_params params ids (Context.meta ctx) in
  exists ctx',
    TagContext.call message_id params (Some ctx)
    = (ToolOk (TagContext.tagged_output params ids), Some ctx')
    /\ records (Context.meta ctx') = records (Context.meta ctx) ++ [TagRec p]
    /\ (forall step q,
          In q (list_active_pins (Some step) (Context.meta ctx)) ->
          In q (list_active_pins (Some step) (Context.meta ctx')))
    /\ (1 <= TagContext.p_ttl_steps params ->
        In p (list_active_pins None (Context.meta ctx'))).
Proof.
  intros Hne ids p.
  assert (E : TagContext.call message_id params (Some ctx)
              = (ToolOk (TagContext.tagged_output params ids),
                 Some (Context.set_meta
                         (tag (TagContext.p_task_id params) ids
                              (TagContext.p_policy params)
                              (TagContext.p_ttl_steps params)
                              (TagContext.p_importance params)
                              (TagContext.p_notes params) (Context.meta ctx))
                         ctx))).
  { unfold TagContext.call. subst ids. unfold ids_to_tag in *.
    destruct (TagContext.p_message_ids params) as [given|]; [reflexivity|].
    destruct (Context.get_recent_message_ids _ _ _ _) as [|i rest];
      [now destruct (Hne eq_refl) | reflexivity]. }
  eexists. split; [exact E|].
  cbn [Context.meta Context.set_meta].
  assert (Hrec : records (tag (TagContext.p_task_id params) ids
                              (TagContext.p_policy params)
                              (TagContext.p_ttl_steps params)
                              (TagContext.p_importance params)
                              (TagContext.p_notes params) (Context.meta ctx))
                 = records (Context.meta ctx) ++ [TagRec p]).
  { unfold tag. apply records_append_record. }
  split; [exact Hrec|]. split.
  - intros step q. rewrite !list_active_pins_In, Hrec, tags_app.
    intros [H1 H2]. split; [apply in_or_app; now left | exact H2].
  - intros Httl. rewrite list_active_pins_In, Hrec, tags_app. split.
    + apply in_or_app. right. now left.
    + unfold active, tag, append_record. cbn [current_step].
      subst p. unfold pin_of_params. cbn [created_at_step ttl_steps].
      apply Z.ltb_lt. lia.
Qed.

Lemma tag_context_stores_pin_witness :
  exists ctx',
    TagContext.call positional_id explicit_params (Some three_messages)
    = (ToolOk (TagContext.tagged_output explicit_params ["msg1"; "msg2"]),
       Some ctx')
    /\ In (mkPin "task_abc123" ["msg1"; "msg2"] pin_outcome 100 4
                 (Some "Test tag") 0)
          (list_active_pins None (Context.meta ctx')).
Proof.
  destruct (tag_context_stores_pin positional_id explicit_params
                                   three_messages)
    as (ctx' & H1 & _ & _ & H2).
  - intros H. discriminate H.
  - exists ctx'. split; [exact H1|]. apply H2. simpl. lia.
Defined.

Lemma lastn_length A n (l : list A) :
  List.length (Context.lastn n l) = Nat.min n (List.length l).
Proof. unfold Context.lastn. rewrite length_skipn. lia. Qed.

Lemma lastn_In A n (l : list A) x : In x (Context.lastn n l) -> In x l.
Proof.
  unfold Context.lastn. intros H.
  rewrite <- (firstn_skipn (List.length l - n) l).
  apply in_or_app. now right.
Qed.

Lemma in_combine_seq_nth A (h : list A) : forall s i m,
  In (i, m) (combine (seq s (List.length h)) h) ->
  (s <= i)%nat /\ nth_error h (i - s) = Some m.
Proof.
  induction h as [|x h IH]; intros s i m; simpl; [intros []|].
  intros [H|H].
  - injection H as <- <-. split; [lia|]. now rewrite Nat.sub_diag.
  - destruct (IH _ _ _ H) as [Hle Hn]. split; [lia|].
    replace (i - s)%nat with (S (i - S s)) by lia. exact Hn.
Qed.

(** X17. With [message_ids] omitted and at least one assistant or tool
    message in the history, TagContext tags between one and five messages.
    Each inferred id is the identifier of a message of the history whose
    role is assistant or tool (a user or system message is never tagged by
    inference), and the call appends one tag record with exactly these
    ids. *)
Theorem tag_context_infers_recent_ids
        (message_id : nat -> Message -> string)
        (params : TagContext.Params) (ctx : Context.t) :
  TagContext.p_message_ids params = None ->
  (exists m, In m (Context.history ctx)
             /\ (role m = assistant \/ role m = tool)) ->
  let ids := Context.get_recent_message_ids message_id 5 [assistant; tool]
                                            ctx in
  (1 <= List.length ids <= 5)%nat
  /\ (forall i, In i ids ->
        exists pos m,
          nth_error (Context.history ctx) pos = Some m
          /\ i = message_id pos m
          /\ (role m = assistant \/ role m = tool))
  /\ exists ctx',
       TagContext.call message_id params (Some ctx)
       = (ToolOk (TagContext.tagged_output params ids), Some ctx')
       /\ records (Context.meta ctx')
          = records (Context.meta ctx)
            ++ [TagRec (pin_of_params params ids (Context.meta ctx))].
Proof.
  intros Hnone (m & Hm & Hrole) ids.
  assert (Hne : ids <> []).
  { intros E0. subst ids.
    pose proof (proj1 (get_recent_message_ids_nil
                         message_id 5 [assistant; tool] ctx
                         (Nat.lt_0_succ 4)) E0 m Hm) as E.
    simpl in E.
    destruct Hrole as [Hr | Hr]; rewrite Hr in E; discriminate E. }
  split; [|split].
  - split.
    + destruct ids; [congruence | simpl; lia].
    + subst ids. unfold Context.get_recent_message_ids.
      rewrite length_map, lastn_length. lia.
  - intros i Hi. subst ids. unfold Context.get_recent_message_ids in Hi.
    apply in_map_iff in Hi. destruct Hi as ([pos m0] & <- & Hin).
    apply lastn_In, filter_In in Hin. destruct Hin as [Hin Hf].
    apply in_combine_seq_nth in Hin. destruct Hin as [_ Hn].
    rewrite Nat.sub_0_r in Hn. exists pos, m0.
    split; [exact Hn|]. split; [reflexivity|].
    simpl in Hf. destruct (role m0); simpl in Hf; try discriminate Hf; auto.
  - unfold TagContext.call. rewrite Hnone. fold ids.
    destruct ids as [|i rest] eqn:E; [congruence|].
    eexists. split; [reflexivity|].
    cbn [Context.meta Context.set_meta]. unfold tag, pin_of_params.
    apply records_append_record.
Qed.

Lemma tag_context_infers_recent_ids_witness :
  (1 <= List.length
          (Context.get_recent_message_ids positional_id 5 [assistant; tool]
                                          long_history) <= 5)%nat
  /\ Context.get_recent_message_ids positional_id 5 [assistant; tool]
                                    long_history
     = ["msg_2"; "msg_3"; "msg_4"; "msg_5"; "msg_6"].
Proof.
  split; [|reflexivity].
  apply (tag_context_infers_recent_ids positional_id
                                       (tag_defaults "task_xyz789")
                                       long_history eq_refl).
  exists (plain_message assistant "a1"). split; [simpl; tauto | now left].
Defined.

(* ------------------------------------------------------------------ *)
(** ** SetTodoList *)

Lemma string_app_assoc (a b c : string) :
  ((a ++ b) ++ c)%string = (a ++ (b ++ c))%string.
Proof. induction a as [|x a IH]; simpl; [reflexivity | now rewrite IH]. Qed.

Lemma string_app_nil_r (a : string) : (a ++ "")%string = a.
Proof. induction a as [|x a IH]; simpl; [reflexivity | now rewrite IH]. Qed.

(** The text rendered so far only gets a suffix. *)
Lemma for_todos_rendered hex todos : forall rendered draws,
  SetTodoList.for_todos hex todos rendered draws
  = (fst (fst (SetTodoList.for_todos hex todos "" draws)),
     (rendered ++ snd (fst (SetTodoList.for_todos hex todos "" draws)))%string,
     snd (SetTodoList.for_todos hex todos "" draws)).
Proof.
  induction todos as [|t todos IH]; intros rendered draws; simpl.
  - now rewrite string_app_nil_r.
  - destruct (SetTodoList.render_todo hex draws t) as [[t1 text] d1].
    rewrite (IH (rendered ++ text)%string d1), (IH text d1).
    destruct (SetTodoList.for_todos hex todos "" d1) as [[ts out] d2].
    simpl. now rewrite string_app_assoc.
Qed.

Lemma for_todos_cons hex t todos draws :
  SetTodoList.for_todos hex (t :: todos) "" draws
  = let '(t1, text, d1) := SetTodoList.render_todo hex draws t in
    let '(ts, out, d2) := SetTodoList.for_todos hex todos "" d1 in
    (t1 :: ts, (text ++ out)%string, d2).
Proof.
  simpl. destruct (SetTodoList.render_todo hex draws t) as [[t1 text] d1].
  rewrite for_todos_rendered.
  destruct (SetTodoList.for_todos hex todos "" d1) as [[ts out] d2].
  reflexivity.
Qed.

Lemma render_todo_ids hex draws t :
  let '(t1, _, d1) := SetTodoList.render_todo hex draws t in
  same_todo_with_id t t1
  /\ (lacks_id t = true ->
      d1 = S draws
      /\ SetTodoList.id t1 = Some ("todo_" ++ hex draws)%string)
  /\ (lacks_id t = false -> d1 = draws).
Proof.
  unfold SetTodoList.render_todo, lacks_id, same_todo_with_id.
  destruct (SetTodoList.id t) as [given|]; simpl.
  - repeat split; try discriminate. intros g H. exact H.
  - repeat split; try discriminate.
Qed.

Lemma for_todos_ids hex todos : forall draws,
  let '(todos1, _, d1) := SetTodoList.for_todos hex todos "" draws in
  Forall2 same_todo_with_id todos todos1
  /\ d1 = (draws + List.length (filter lacks_id todos))%nat
  /\ generated_ids todos todos1
     = map (fun k => Some ("todo_" ++ hex k)%string)
           (seq draws (List.length (filter lacks_id todos))).
Proof.
  induction todos as [|t todos IH]; intros draws.
  - simpl. repeat split; [constructor | lia].
  - rewrite for_todos_cons.
    pose proof (render_todo_ids hex draws t) as Ht.
    destruct (SetTodoList.render_todo hex draws t) as [[t1 text] d1].
    specialize (IH d1).
    destruct (SetTodoList.for_todos hex todos "" d1) as [[ts out] d2].
    destruct Ht as (Hsame & Hnone & Hsome).
    destruct IH as (Hall & Hd & Hgen).
    unfold generated_ids in *. cbn [combine filter fst snd].
    destruct (lacks_id t) eqn:El.
    + destruct (Hnone eq_refl) as [-> Hid].
      cbn [List.length seq map fst snd]. rewrite Hgen, Hid.
      repeat split; [now constructor | lia].
    + rewrite (Hsome eq_refl) in *.
      repeat split; [now constructor | lia | exact Hgen].
Qed.

(** X18. After [SetTodoList.__call__] every todo has an id: a todo that came
    with an id keeps it, and the todos that came without one get
    ["todo_"] followed by the results of consecutive calls of
    [secrets.token_hex], one call each and in list order; nothing else of
    a todo changes, and none is added, dropped or reordered. *)
Theorem set_todo_list_assigns_ids (token_hex : nat -> string) (draws : nat)
        (todos todos' : list SetTodoList.Todo) (r : ToolReturnType)
        (draws' : nat) :
  SetTodoList.call token_hex draws todos = (r, todos', draws') ->
  Forall2 same_todo_with_id todos todos'
  /\ draws' = (draws + List.length (filter lacks_id todos))%nat
  /\ generated_ids todos todos'
     = map (fun k => Some ("todo_" ++ token_hex k)%string)
           (seq draws (List.length (filter lacks_id todos))).
Proof.
  unfold SetTodoList.call. intros H.
  pose proof (for_todos_ids token_hex todos draws) as Hids.
  destruct (SetTodoList.for_todos token_hex todos "" draws) as [[ts out] d].
  injection H as _ <- <-. exact Hids.
Qed.

Lemma set_todo_list_assigns_ids_witness :
  generated_ids three_todos
    (snd (fst (SetTodoList.call hex_of_draw 0 three_todos)))
  = [Some "todo_ab12cd34"; Some "todo_00ff00ff"].
Proof.
  exact (proj2 (proj2 (set_todo_list_assigns_ids
                         hex_of_draw 0 three_todos _ _ _ eq_refl))).
Defined.

Lemma render_todo_again hex draws t hex' draws' :
  let '(t1, text, _) := SetTodoList.render_todo hex draws t in
  SetTodoList.render_todo hex' draws' t1 = (t1, text, draws').
Proof.
  unfold SetTodoList.render_todo.
  destruct (SetTodoList.id t) as [given|]; reflexivity.
Qed.

Lemma for_todos_again hex hex' todos : forall draws draws',
  let '(todos1, out, _) := SetTodoList.for_todos hex todos "" draws in
  SetTodoList.for_todos hex' todos1 "" draws' = (todos1, out, draws').
Proof.
  induction todos as [|t todos IH]; intros draws draws'.
  - reflexivity.
  - rewrite for_todos_cons.
    pose proof (render_todo_again hex draws t hex' draws') as Ht.
    destruct (SetTodoList.render_todo hex draws t) as [[t1 text] d1].
    specialize (IH d1 draws').
    destruct (SetTodoList.for_todos hex todos "" d1) as [[ts out] d2].
    rewrite for_todos_cons, Ht, IH. reflexivity.
Qed.

(** X19. The ids make the rendering repeatable: calling the tool again on
    the todos as the first call left them returns the same text and the
    same todos, and draws no random id, whatever the random source is. *)
Theorem set_todo_list_is_repeatable (token_hex token_hex' : nat -> string)
        (draws draws' d : nat) (todos todos' : list SetTodoList.Todo)
        (r : ToolReturnType) :
  SetTodoList.call token_hex draws todos = (r, todos', d) ->
  SetTodoList.call token_hex' draws' todos' = (r, todos', draws').
Proof.
  unfold SetTodoList.call. intros H.
  pose proof (for_todos_again token_hex token_hex' todos draws draws') as Ha.
  destruct (SetTodoList.for_todos token_hex todos "" draws) as [[ts out] d0].
  injection H as <- <- _. now rewrite Ha.
Qed.

Lemma set_todo_list_is_repeatable_witness :
  SetTodoList.call (fun _ => "ffffffff") 7
                   (snd (fst (SetTodoList.call hex_of_draw 0 three_todos)))
  = (fst (fst (SetTodoList.call hex_of_draw 0 three_todos)),
     snd (fst (SetTodoList.call hex_of_draw 0 three_todos)), 7%nat).
Proof.
  exact (set_todo_list_is_repeatable hex_of_draw (fun _ => "ffffffff")
           0 7 _ three_todos _ _ eq_refl).
Defined.

Lemma for_todos_app hex a : forall b draws,
  SetTodoList.for_todos hex (a ++ b) "" draws
  = let '(a1, out_a, d1) := SetTodoList.for_todos hex a "" draws in
    let '(b1, out_b, d2) := SetTodoList.for_todos hex b "" d1 in
    (a1 ++ b1, (out_a ++ out_b)%string, d2).
Proof.
  induction a as [|t a IH]; intros b draws.
  - simpl. destruct (SetTodoList.for_todos hex b "" draws) as [[b1 out] d].
    reflexivity.
  - change ((t :: a) ++ b) with (t :: (a ++ b)). rewrite !for_todos_cons.
    destruct (SetTodoList.render_todo hex draws t) as [[t1 text] d1].
    rewrite IH.
    destruct (SetTodoList.for_todos hex a "" d1) as [[a1 out_a] d2].
    destruct (SetTodoList.for_todos hex b "" d2) as [[b1 out_b] d3].
    simpl. now rewrite string_app_assoc.
Qed.

(** X20. The text is rendered todo by todo, in list order: the call on a
    list [a ++ b] returns the text of the call on [a] followed by the text
    of the call on [b] made with the random draws that are left, and the
    todos of both.  The text is empty exactly when there is no todo. *)
Theorem set_todo_list_renders_in_order (token_hex : nat -> string)
        (draws : nat) (a b : list SetTodoList.Todo) :
  (forall out_a a' d1 out_b b' d2,
      SetTodoList.call token_hex draws a = (ToolOk out_a, a', d1) ->
      SetTodoList.call token_hex d1 b = (ToolOk out_b, b', d2) ->
      SetTodoList.call token_hex draws (a ++ b)
      = (ToolOk (out_a ++ out_b)%string, a' ++ b', d2))
  /\ exists out,
       fst (fst (SetTodoList.call token_hex draws a)) = ToolOk out
       /\ (out = ""%string <-> a = []).
Proof.
  split.
  - unfold SetTodoList.call.
    intros out_a a' d1 out_b b' d2 Ha Hb. rewrite for_todos_app.
    destruct (SetTodoList.for_todos token_hex a "" draws) as [[a1 oa] da].
    injection Ha as <- <- <-.
    destruct (SetTodoList.for_todos token_hex b "" da) as [[b1 ob] db].
    injection Hb as <- <- <-. reflexivity.
  - unfold SetTodoList.call. destruct a as [|t a].
    + exists ""%string. simpl. split; [reflexivity|]. split; reflexivity.
    + rewrite for_todos_cons. unfold SetTodoList.render_todo.
      destruct (match SetTodoList.id t with
                | Some given => (given, draws)
                | None => (("todo_" ++ token_hex draws)%string, S draws)
                end) as [todo_id d1].
      destruct (SetTodoList.for_todos token_hex a "" d1) as [[ts out] d2].
      eexists. split; [reflexivity|]. split; intros H; discriminate H.
Qed.

Lemma set_todo_list_renders_in_order_witness :
  SetTodoList.call hex_of_draw 0 three_todos
  = (ToolOk
       (("- write tests [Pending]" ++ newline
         ++ "  [todo_id=todo_ab12cd34; tags=qa]" ++ newline)
        ++ ("- fix bug [In Progress]" ++ newline
            ++ "  [todo_id=todo_1; related_tasks=task_abc,task_def]" ++ newline
            ++ "- ship [Done]" ++ newline
            ++ "  [todo_id=todo_00ff00ff]" ++ newline))%string,
     snd (fst (SetTodoList.call hex_of_draw 0 (firstn 1 three_todos)))
     ++ snd (fst (SetTodoList.call hex_of_draw 1 (skipn 1 three_todos))),
     2%nat).
Proof.
  exact (proj1 (set_todo_list_renders_in_order
                  hex_of_draw 0 (firstn 1 three_todos) (skipn 1 three_todos))
               _ _ _ _ _ _ eq_refl eq_refl).
Defined.

(* ------------------------------------------------------------------ *)
(** ** The step numbers a run announces *)

Lemma step_numbers_app a b :
  step_numbers (a ++ b) = step_numbers a ++ step_numbers b.
Proof. unfold step_numbers. apply flat_map_app. Qed.

Lemma announces_nothing_refl w : announces_nothing w w.
Proof. exists []. split; [now rewrite app_nil_r | reflexivity]. Qed.

Lemma announces_nothing_trans w1 w2 w3 :
  announces_nothing w1 w2 -> announces_nothing w2 w3 ->
  announces_nothing w1 w3.
Proof.
  intros (r1 & H1 & N1) (r2 & H2 & N2). exists (r1 ++ r2). split.
  - now rewrite H2, H1, app_assoc.
  - now rewrite step_numbers_app, N1, N2.
Qed.

Lemma announces_nothing_same w w' :
  wire w' = wire w -> announces_nothing w w'.
Proof.
  intros H. exists []. split; [now rewrite app_nil_r | reflexivity].
Qed.

(** What is streamed is never a [StepBegin]. *)
Lemma step_numbers_stream events : step_numbers (map Stream events) = [].
Proof. induction events as [|x events IH]; [reflexivity | exact IH]. Qed.

Lemma announces_nothing_stream w w' events :
  wire w' = wire w ++ map Stream events -> announces_nothing w w'.
Proof.
  intros H. exists (map Stream events).
  split; [exact H | apply step_numbers_stream].
Qed.

Section AnnouncesNothing.

Variable env : Env.

Ltac quiet_step :=
  first
    [ apply (keeps_bind _ announces_nothing_trans)
    | apply (keeps_ret _ announces_nothing_refl)
    | apply (keeps_raise _ announces_nothing_refl)
    | apply (keeps_py_assert _ announces_nothing_refl)
    | apply (keeps_get_context _ announces_nothing_refl)
    | apply (keeps_lift announces_nothing);
      intros ?; first [ apply announces_nothing_same; reflexivity
                      | eexists; split; reflexivity ] ].

Lemma compact_context_announces_nothing :
  keeps announces_nothing (compact_context env).
Proof.
  intros w r w' H. apply announces_nothing_same.
  apply (compact_context_same_wire env _ _ _ H).
Qed.

Lemma step_announces_nothing : keeps announces_nothing (_step env).
Proof.
  unfold _step.
  quiet_step; [quiet_step | intros _].
  quiet_step.
  { intros w r w' H.
    destruct (kosong_retry_only_streams _ _ _ _ H)
      as (_ & _ & (events & E) & _).
    apply (announces_nothing_stream _ _ _ E). }
  intros res. quiet_step.
  { destruct (usage res); repeat (quiet_step; try intros ?). }
  intros _. quiet_step.
  { intros w r w' H.
    destruct (tool_results_effects _ _ _ _ _ H) as (_ & E & _).
    apply (announces_nothing_stream _ _ _ E). }
  intros results. quiet_step.
  { apply (keeps_shield announces_nothing).
    intros w r w' H. rewrite grow_context_eq in H. injection H as _ <-.
    apply announces_nothing_same. reflexivity. }
  intros _. cbv zeta.
  assert (Hfetch : keeps announces_nothing fetch_pending_dmail).
  { intros w r w' H. injection H as _ <-.
    apply announces_nothing_same. reflexivity. }
  destruct (existsb is_rejected results).
  - quiet_step; [exact Hfetch | intros _; quiet_step].
  - quiet_step; [exact Hfetch | intros [d|]]; [|quiet_step].
    repeat (quiet_step; try intros ?).
Qed.

Lemma try_block_announces_nothing l :
  keeps announces_nothing (try_block env l).
Proof.
  unfold try_block, _checkpoint.
  quiet_step; [quiet_step | intros c].
  quiet_step.
  { destruct (_ >=? _); [|quiet_step].
    quiet_step; [unfold wire_send; quiet_step | intros _].
    quiet_step; [apply compact_context_announces_nothing | intros _].
    unfold wire_send; quiet_step. }
  intros _. quiet_step; [quiet_step | intros _].
  quiet_step; [quiet_step | intros _]. apply step_announces_nothing.
Qed.

Lemma back_to_the_future_announces_nothing id msgs :
  keeps announces_nothing (back_to_the_future env id msgs).
Proof.
  unfold back_to_the_future, _checkpoint, append_message.
  quiet_step.
  { intros w r w' H. unfold revert_to in H.
    destruct (Context.revert_to id (context w)); injection H as _ <-;
      apply announces_nothing_same; reflexivity. }
  intros _. repeat (quiet_step; try intros ?).
Qed.

(** One pass announces its own step number and no other; if the loop goes
    on, it does so with the same number or with the next one, which is
    within the limit. *)
Lemma loop_body_announces l step_no w :
  (exists rest,
      wire (snd (loop_body env l step_no w)) = wire w ++ rest
      /\ step_numbers rest = [step_no])
  /\ (forall s', fst (loop_body env l step_no w) = Continue s' ->
                 s' = step_no
                 \/ (s' = step_no + 1
                     /\ s' <= max_steps_per_run (loop_control env))).
Proof.
  unfold loop_body. cbv zeta. fold (begin_step step_no w).
  pose proof (try_block_announces_nothing l (begin_step step_no w)) as Ht.
  assert (Hbegin : forall w1 rest,
             wire w1 = wire (begin_step step_no w) ++ rest ->
             step_numbers rest = [] ->
             exists rest0, wire w1 = wire w ++ rest0
                           /\ step_numbers rest0 = [step_no]).
  { intros w1 rest Hr Hn. exists (StepBegin step_no :: rest). split.
    - rewrite Hr. change (wire (begin_step step_no w))
        with (wire w ++ [StepBegin step_no]).
      now rewrite <- app_assoc.
    - change (step_numbers (StepBegin step_no :: rest))
        with (step_no :: step_numbers rest). now rewrite Hn. }
  destruct (try_block env l (begin_step step_no w)) as [[finished|e] w1].
  - destruct (Ht _ _ eq_refl) as (rest & Hr & Hn).
    destruct finished; [|destruct (Z.gtb_spec (step_no + 1)
                                     (max_steps_per_run (loop_control env))) as [Hgt|Hle]];
      (split; [apply (Hbegin _ rest Hr Hn)|]); intros s' Hs;
      try discriminate Hs.
    injection Hs as <-. right. split; [reflexivity|lia].
  - destruct (Ht _ _ eq_refl) as (rest & Hr & Hn).
    assert (Hother :
              (exists rest0,
                  wire (snd (if is_provider_or_cancel e
                             then (Raised e,
                                   set_approval_task false
                                     (send StepInterrupted w1))
                             else (Raised e, set_approval_task false w1)))
                  = wire w ++ rest0 /\ step_numbers rest0 = [step_no])
              /\ forall s',
                   fst (if is_provider_or_cancel e
                        then (Raised e,
                              set_approval_task false
                                (send StepInterrupted w1))
                        else (Raised e, set_approval_task false w1))
                   = Continue s' ->
                   s' = step_no
                   \/ (s' = step_no + 1
                       /\ s' <= max_steps_per_run (loop_control env))).
    { destruct (is_provider_or_cancel e);
        (split; [|intros s' H; discriminate H]).
      - apply (Hbegin _ (rest ++ [StepInterrupted])).
        + cbn [snd].
          change (wire (set_approval_task false (send StepInterrupted w1)))
            with (wire w1 ++ [StepInterrupted]).
          now rewrite Hr, <- app_assoc.
        + rewrite step_numbers_app, Hn. reflexivity.
      - apply (Hbegin _ rest Hr Hn). }
    destruct e; try exact Hother.
    pose proof (back_to_the_future_announces_nothing checkpoint_id messages
                                                     w1) as Hback.
    destruct (back_to_the_future env checkpoint_id messages w1)
      as [[[]|e'] w2];
      destruct (Hback _ _ eq_refl) as (rest2 & Hr2 & Hn2);
      (split;
       [ apply (Hbegin _ (rest ++ rest2));
         [ cbn [snd]; change (wire (set_approval_task false w2)) with (wire w2);
           now rewrite Hr2, Hr, <- app_assoc
         | now rewrite step_numbers_app, Hn, Hn2 ]
       | intros s' H; try discriminate H ]).
    injection H as <-. now left.
Qed.

Lemma while_true_announces l fuel : forall step_no w r w',
  while_true env fuel l step_no w = Some (r, w') ->
  exists rest numbers,
    wire w' = wire w ++ rest
    /\ step_numbers rest = step_no :: numbers
    /\ climbs step_no numbers
    /\ Forall (fun n => n <= Z.max step_no
                               (max_steps_per_run (loop_control env)))
              numbers.
Proof.
  induction fuel as [|fuel IH]; intros step_no w r w' H; simpl in H;
    [discriminate|].
  destruct (loop_body_announces l step_no w) as [(rest & Hr & Hn) Hc].
  destruct (loop_body env l step_no w) as [[|s'|e] w1]; simpl in Hr, Hc.
  - injection H as _ <-. exists rest, []. repeat split; auto.
  - destruct (IH _ _ _ _ H) as (rest' & numbers & Hr' & Hn' & Hcl & Hle).
    exists (rest ++ rest'), (s' :: numbers).
    split; [now rewrite Hr', Hr, <- app_assoc|].
    split; [now rewrite step_numbers_app, Hn, Hn'|].
    specialize (Hc s' eq_refl).
    split; [split; [tauto | exact Hcl]|].
    constructor; [lia|].
    eapply Forall_impl; [|exact Hle]. intros n Hn0. simpl in Hn0. lia.
  - injection H as _ <-. exists rest, []. repeat split; auto.
Qed.

End AnnouncesNothing.

(** X21. The [StepBegin] events of a run count the steps: the events a run
    with a model adds to the wire announce step 1 first, every later
    announcement repeats the number before it (a replay after a D-Mail) or
    is one more, and no number beyond [max_steps_per_run] is announced
    (beyond 1 when the limit is below 1). *)
Theorem announced_steps_climb (env : Env) (l : LLM) (fuel : nat)
        (user_input : Content) (w w' : World) (r : Result unit) :
  llm env = Some l ->
  run env fuel user_input w = Some (r, w') ->
  exists rest numbers,
    wire w' = wire w ++ rest
    /\ step_numbers rest = 1 :: numbers
    /\ climbs 1 numbers
    /\ Forall (fun n => n <= Z.max 1 (max_steps_per_run (loop_control env)))
              numbers.
Proof.
  intros Hl H. unfold run, _agent_loop in H. rewrite Hl in H.
  cbv beta iota in H. apply while_true_announces in H. exact H.
Qed.

Lemma announced_steps_climb_witness :
  exists rest numbers,
    wire zero_limit_run_end = wire fresh_world ++ rest
    /\ step_numbers rest = 1 :: numbers
    /\ climbs 1 numbers.
Proof.
  assert (H : run zero_limit_env 5 (Str "go") fresh_world
              = Some (Raise (MaxStepsReached 0), zero_limit_run_end))
    by (vm_compute; reflexivity).
  destruct (announced_steps_climb zero_limit_env sample_llm 5 (Str "go")
              fresh_world zero_limit_run_end _ eq_refl H)
    as (rest & numbers & H1 & H2 & H3 & _).
  exists rest, numbers. repeat split; assumption.
Defined.
